(** * Finance dashboard: transaction normalisation and categorisation

    A shallow embedding of [main.py]: the category store kept in the
    session and in [categories.json], keyword classification
    ([categorize_transactions]), ingestion of an uploaded statement
    ([load_transactions]) and the parts of [main] that change the session
    (adding a category, applying the user's edits).

    Modelling conventions.
    - Python text is a [string] that holds its UTF-8 encoding; [lower]
      and [strip] act on its characters as [str.lower] and [str.strip]
      do.
    - A pandas frame is a list of column names and a list of rows, a row
      being a finite map from column name to cell, so that a name stands
      for one column.  Row labels are the positions [0 .. n-1], which is
      the index [read_csv] and [merge] produce.
    - The session dictionary [categories] is an association list in
      insertion order with pairwise distinct keys, the order in which
      [dict.items()] iterates.
    - A raised exception is the [Raise] result of a small error monad. *)

From Stdlib Require Import String Ascii QArith Qcanon.
From stdpp Require Import base numbers strings option list gmap.

(** ** Exceptions *)

Inductive exn := KeyError | ValueError | AttributeError.

Inductive result (A : Type) :=
  | Ok (a : A)
  | Raise (e : exn).
Arguments Ok {A} a.
Arguments Raise {A} e.

Global Instance result_ret : MRet result := λ A a, Ok a.
Global Instance result_bind : MBind result := λ A B f r,
  match r with Ok a => f a | Raise e => Raise e end.

Global Instance exn_eq_dec : EqDecision exn.
Proof. solve_decision. Defined.

(** [for x in xs: body] over a state that [body] may abort by raising. *)
Fixpoint for_each {A S : Type} (body : A → S → result S) (xs : list A) (s : S)
  : result S :=
  match xs with
  | [] => Ok s
  | x :: xs' => s' ← body x s; for_each body xs' s'
  end.

(** ** Text *)

(** Python text is held as the bytes of its UTF-8 encoding.  [str.strip]
    and [str.lower] work on the characters of the text, so the model
    splits the bytes into characters, reads their code points where it
    has to, and follows the tables of the interpreter (Unicode 14.0, as
    in Python 3.11). *)
Module Text.

Definition byte (a : ascii) : Z := Z.of_N (N_of_ascii a).
Definition of_byte (n : Z) : ascii := ascii_of_N (Z.to_N n).

(** A continuation byte of UTF-8. *)
Definition is_cont (a : ascii) : bool :=
  (128 <=? byte a)%Z && (byte a <=? 191)%Z.

(** The characters of a text: every byte that is no continuation byte
    starts one and takes the continuation bytes that follow it. *)
Fixpoint chars (l : list ascii) : list (list ascii) :=
  match l with
  | [] => []
  | a :: l' =>
      match chars l' with
      | (b :: t) :: ts =>
          if is_cont b then (a :: b :: t) :: ts else [a] :: (b :: t) :: ts
      | [] :: ts => [a] :: ts
      | [] => [[a]]
      end
  end.

(** The code point of a character; [None] for bytes that encode none. *)
Definition decode (t : list ascii) : option Z :=
  match t with
  | [a] => if (byte a <? 128)%Z then Some (byte a) else None
  | [a; b] =>
      if (194 <=? byte a)%Z && (byte a <=? 223)%Z && is_cont b
      then Some ((byte a - 192) * 64 + (byte b - 128))%Z
      else None
  | [a; b; c] =>
      let n := ((byte a - 224) * 4096 + (byte b - 128) * 64
                + (byte c - 128))%Z in
      if (224 <=? byte a)%Z && (byte a <=? 239)%Z && is_cont b && is_cont c
         && (2048 <=? n)%Z && negb ((55296 <=? n)%Z && (n <=? 57343)%Z)
      then Some n else None
  | [a; b; c; d] =>
      let n := ((byte a - 240) * 262144 + (byte b - 128) * 4096
                + (byte c - 128) * 64 + (byte d - 128))%Z in
      if (240 <=? byte a)%Z && (byte a <=? 244)%Z && is_cont b && is_cont c
         && is_cont d && (65536 <=? n)%Z && (n <=? 1114111)%Z
      then Some n else None
  | _ => None
  end.

(** The bytes of a code point. *)
Definition encode (c : Z) : list ascii :=
  if (c <? 128)%Z then [of_byte c]
  else if (c <? 2048)%Z then
    [of_byte (192 + c / 64); of_byte (128 + c mod 64)]
  else if (c <? 65536)%Z then
    [of_byte (224 + c / 4096); of_byte (128 + c / 64 mod 64);
     of_byte (128 + c mod 64)]
  else
    [of_byte (240 + c / 262144); of_byte (128 + c / 4096 mod 64);
     of_byte (128 + c / 64 mod 64); of_byte (128 + c mod 64)].

(** The code points [str.isspace] accepts, which [str.strip] removes and
    [\s] matches. *)
Definition space_points : list Z :=
  [9; 10; 11; 12; 13; 28; 29; 30; 31; 32; 133; 160; 5760; 8192; 8193;
   8194; 8195; 8196; 8197; 8198; 8199; 8200; 8201; 8202; 8232; 8233;
   8239; 8287; 12288]%Z.

(** The decimal digits (category Nd), which [\d] matches and [int]
    reads: each block holds the digits 0 to 9 from the code point listed. *)
Definition digit_blocks : list Z :=
  [48; 1632; 1776; 1984; 2406; 2534; 2662; 2790; 2918; 3046; 3174;
   3302; 3430; 3558; 3664; 3792; 3872; 4160; 4240; 6112; 6160; 6470;
   6608; 6784; 6800; 6992; 7088; 7232; 7248; 42528; 43216; 43264;
   43472; 43504; 43600; 44016; 65296; 66720; 68912; 69734; 69872;
   69942; 70096; 70384; 70736; 70864; 71248; 71360; 71472; 71904;
   72016; 72784; 73040; 73120; 92768; 92864; 93008; 120782; 120792;
   120802; 120812; 120822; 123200; 123632; 125264; 130032]%Z.

(** The case-ignorable code points, as ranges. *)
Definition case_ignorable_points : list (Z * Z) :=
  [(39, 39); (46, 46); (58, 58); (94, 94); (96, 96); (168, 168);
   (173, 173); (175, 175); (180, 180); (183, 184); (688, 879);
   (884, 885); (890, 890); (900, 901); (903, 903); (1155, 1161);
   (1369, 1369); (1375, 1375); (1425, 1469); (1471, 1471);
   (1473, 1474); (1476, 1477); (1479, 1479); (1524, 1524);
   (1536, 1541); (1552, 1562); (1564, 1564); (1600, 1600);
   (1611, 1631); (1648, 1648); (1750, 1757); (1759, 1768);
   (1770, 1773); (1807, 1807); (1809, 1809); (1840, 1866);
   (1958, 1968); (2027, 2037); (2042, 2042); (2045, 2045);
   (2070, 2093); (2137, 2139); (2184, 2184); (2192, 2193);
   (2200, 2207); (2249, 2306); (2362, 2362); (2364, 2364);
   (2369, 2376); (2381, 2381); (2385, 2391); (2402, 2403);
   (2417, 2417); (2433, 2433); (2492, 2492); (2497, 2500);
   (2509, 2509); (2530, 2531); (2558, 2558); (2561, 2562);
   (2620, 2620); (2625, 2626); (2631, 2632); (2635, 2637);
   (2641, 2641); (2672, 2673); (2677, 2677); (2689, 2690);
   (2748, 2748); (2753, 2757); (2759, 2760); (2765, 2765);
   (2786, 2787); (2810, 2815); (2817, 2817); (2876, 2876);
   (2879, 2879); (2881, 2884); (2893, 2893); (2901, 2902);
   (2914, 2915); (2946, 2946); (3008, 3008); (3021, 3021);
   (3072, 3072); (3076, 3076); (3132, 3132); (3134, 3136);
   (3142, 3144); (3146, 3149); (3157, 3158); (3170, 3171);
   (3201, 3201); (3260, 3260); (3263, 3263); (3270, 3270);
   (3276, 3277); (3298, 3299); (3328, 3329); (3387, 3388);
   (3393, 3396); (3405, 3405); (3426, 3427); (3457, 3457);
   (3530, 3530); (3538, 3540); (3542, 3542); (3633, 3633);
   (3636, 3642); (3654, 3662); (3761, 3761); (3764, 3772);
   (3782, 3782); (3784, 3789); (3864, 3865); (3893, 3893);
   (3895, 3895); (3897, 3897); (3953, 3966); (3968, 3972);
   (3974, 3975); (3981, 3991); (3993, 4028); (4038, 4038);
   (4141, 4144); (4146, 4151); (4153, 4154); (4157, 4158);
   (4184, 4185); (4190, 4192); (4209, 4212); (4226, 4226);
   (4229, 4230); (4237, 4237); (4253, 4253); (4348, 4348);
   (4957, 4959); (5906, 5908); (5938, 5939); (5970, 5971);
   (6002, 6003); (6068, 6069); (6071, 6077); (6086, 6086);
   (6089, 6099); (6103, 6103); (6109, 6109); (6155, 6159);
   (6211, 6211); (6277, 6278); (6313, 6313); (6432, 6434);
   (6439, 6440); (6450, 6450); (6457, 6459); (6679, 6680);
   (6683, 6683); (6742, 6742); (6744, 6750); (6752, 6752);
   (6754, 6754); (6757, 6764); (6771, 6780); (6783, 6783);
   (6823, 6823); (6832, 6862); (6912, 6915); (6964, 6964);
   (6966, 6970); (6972, 6972); (6978, 6978); (7019, 7027);
   (7040, 7041); (7074, 7077); (7080, 7081); (7083, 7085);
   (7142, 7142); (7144, 7145); (7149, 7149); (7151, 7153);
   (7212, 7219); (7222, 7223); (7288, 7293); (7376, 7378);
   (7380, 7392); (7394, 7400); (7405, 7405); (7412, 7412);
   (7416, 7417); (7468, 7530); (7544, 7544); (7579, 7679);
   (8125, 8125); (8127, 8129); (8141, 8143); (8157, 8159);
   (8173, 8175); (8189, 8190); (8203, 8207); (8216, 8217);
   (8228, 8228); (8231, 8231); (8234, 8238); (8288, 8292);
   (8294, 8303); (8305, 8305); (8319, 8319); (8336, 8348);
   (8400, 8432); (11388, 11389); (11503, 11505); (11631, 11631);
   (11647, 11647); (11744, 11775); (11823, 11823); (12293, 12293);
   (12330, 12333); (12337, 12341); (12347, 12347); (12441, 12446);
   (12540, 12542); (40981, 40981); (42232, 42237); (42508, 42508);
   (42607, 42610); (42612, 42621); (42623, 42623); (42652, 42655);
   (42736, 42737); (42752, 42785); (42864, 42864); (42888, 42890);
   (42994, 42996); (43000, 43001); (43010, 43010); (43014, 43014);
   (43019, 43019); (43045, 43046); (43052, 43052); (43204, 43205);
   (43232, 43249); (43263, 43263); (43302, 43309); (43335, 43345);
   (43392, 43394); (43443, 43443); (43446, 43449); (43452, 43453);
   (43471, 43471); (43493, 43494); (43561, 43566); (43569, 43570);
   (43573, 43574); (43587, 43587); (43596, 43596); (43632, 43632);
   (43644, 43644); (43696, 43696); (43698, 43700); (43703, 43704);
   (43710, 43711); (43713, 43713); (43741, 43741); (43756, 43757);
   (43763, 43764); (43766, 43766); (43867, 43871); (43881, 43883);
   (44005, 44005); (44008, 44008); (44013, 44013); (64286, 64286);
   (64434, 64450); (65024, 65039); (65043, 65043); (65056, 65071);
   (65106, 65106); (65109, 65109); (65279, 65279); (65287, 65287);
   (65294, 65294); (65306, 65306); (65342, 65342); (65344, 65344);
   (65392, 65392); (65438, 65439); (65507, 65507); (65529, 65531);
   (66045, 66045); (66272, 66272); (66422, 66426); (67456, 67461);
   (67463, 67504); (67506, 67514); (68097, 68099); (68101, 68102);
   (68108, 68111); (68152, 68154); (68159, 68159); (68325, 68326);
   (68900, 68903); (69291, 69292); (69446, 69456); (69506, 69509);
   (69633, 69633); (69688, 69702); (69744, 69744); (69747, 69748);
   (69759, 69761); (69811, 69814); (69817, 69818); (69821, 69821);
   (69826, 69826); (69837, 69837); (69888, 69890); (69927, 69931);
   (69933, 69940); (70003, 70003); (70016, 70017); (70070, 70078);
   (70089, 70092); (70095, 70095); (70191, 70193); (70196, 70196);
   (70198, 70199); (70206, 70206); (70367, 70367); (70371, 70378);
   (70400, 70401); (70459, 70460); (70464, 70464); (70502, 70508);
   (70512, 70516); (70712, 70719); (70722, 70724); (70726, 70726);
   (70750, 70750); (70835, 70840); (70842, 70842); (70847, 70848);
   (70850, 70851); (71090, 71093); (71100, 71101); (71103, 71104);
   (71132, 71133); (71219, 71226); (71229, 71229); (71231, 71232);
   (71339, 71339); (71341, 71341); (71344, 71349); (71351, 71351);
   (71453, 71455); (71458, 71461); (71463, 71467); (71727, 71735);
   (71737, 71738); (71995, 71996); (71998, 71998); (72003, 72003);
   (72148, 72151); (72154, 72155); (72160, 72160); (72193, 72202);
   (72243, 72248); (72251, 72254); (72263, 72263); (72273, 72278);
   (72281, 72283); (72330, 72342); (72344, 72345); (72752, 72758);
   (72760, 72765); (72767, 72767); (72850, 72871); (72874, 72880);
   (72882, 72883); (72885, 72886); (73009, 73014); (73018, 73018);
   (73020, 73021); (73023, 73029); (73031, 73031); (73104, 73105);
   (73109, 73109); (73111, 73111); (73459, 73460); (78896, 78904);
   (92912, 92916); (92976, 92982); (92992, 92995); (94031, 94031);
   (94095, 94111); (94176, 94177); (94179, 94180); (110576, 110579);
   (110581, 110587); (110589, 110590); (113821, 113822);
   (113824, 113827); (118528, 118573); (118576, 118598);
   (119143, 119145); (119155, 119170); (119173, 119179);
   (119210, 119213); (119362, 119364); (121344, 121398);
   (121403, 121452); (121461, 121461); (121476, 121476);
   (121499, 121503); (121505, 121519); (122880, 122886);
   (122888, 122904); (122907, 122913); (122915, 122916);
   (122918, 122922); (123184, 123197); (123566, 123566);
   (123628, 123631); (125136, 125142); (125252, 125259);
   (127995, 127999); (917505, 917505); (917536, 917631);
   (917760, 917999)]%Z.

(** The cased code points that are not case-ignorable, as ranges. *)
Definition cased_points : list (Z * Z) :=
  [(65, 90); (97, 122); (170, 170); (181, 181); (186, 186); (192, 214);
   (216, 246); (248, 442); (444, 447); (452, 659); (661, 687);
   (880, 883); (886, 887); (891, 893); (895, 895); (902, 902);
   (904, 906); (908, 908); (910, 929); (931, 1013); (1015, 1153);
   (1162, 1327); (1329, 1366); (1376, 1416); (4256, 4293);
   (4295, 4295); (4301, 4301); (4304, 4346); (4349, 4351);
   (5024, 5109); (5112, 5117); (7296, 7304); (7312, 7354);
   (7357, 7359); (7424, 7467); (7531, 7543); (7545, 7578);
   (7680, 7957); (7960, 7965); (7968, 8005); (8008, 8013);
   (8016, 8023); (8025, 8025); (8027, 8027); (8029, 8029);
   (8031, 8061); (8064, 8116); (8118, 8124); (8126, 8126);
   (8130, 8132); (8134, 8140); (8144, 8147); (8150, 8155);
   (8160, 8172); (8178, 8180); (8182, 8188); (8450, 8450);
   (8455, 8455); (8458, 8467); (8469, 8469); (8473, 8477);
   (8484, 8484); (8486, 8486); (8488, 8488); (8490, 8493);
   (8495, 8500); (8505, 8505); (8508, 8511); (8517, 8521);
   (8526, 8526); (8544, 8575); (8579, 8580); (9398, 9449);
   (11264, 11387); (11390, 11492); (11499, 11502); (11506, 11507);
   (11520, 11557); (11559, 11559); (11565, 11565); (42560, 42605);
   (42624, 42651); (42786, 42863); (42865, 42887); (42891, 42894);
   (42896, 42954); (42960, 42961); (42963, 42963); (42965, 42969);
   (42997, 42998); (43002, 43002); (43824, 43866); (43872, 43880);
   (43888, 43967); (64256, 64262); (64275, 64279); (65313, 65338);
   (65345, 65370); (66560, 66639); (66736, 66771); (66776, 66811);
   (66928, 66938); (66940, 66954); (66956, 66962); (66964, 66965);
   (66967, 66977); (66979, 66993); (66995, 67001); (67003, 67004);
   (68736, 68786); (68800, 68850); (71840, 71903); (93760, 93823);
   (119808, 119892); (119894, 119964); (119966, 119967);
   (119970, 119970); (119973, 119974); (119977, 119980);
   (119982, 119993); (119995, 119995); (119997, 120003);
   (120005, 120069); (120071, 120074); (120077, 120084);
   (120086, 120092); (120094, 120121); (120123, 120126);
   (120128, 120132); (120134, 120134); (120138, 120144);
   (120146, 120485); (120488, 120512); (120514, 120538);
   (120540, 120570); (120572, 120596); (120598, 120628);
   (120630, 120654); (120656, 120686); (120688, 120712);
   (120714, 120744); (120746, 120770); (120772, 120779);
   (122624, 122633); (122635, 122654); (125184, 125251);
   (127280, 127305); (127312, 127337); (127344, 127369)]%Z.

(** The lower-case mapping of single code points: in the run
    [(lo, hi, step, target)] the code point [lo + k * step], up to [hi],
    maps to [target + k * step]. *)
Definition lower_runs : list (Z * Z * Z * Z) :=
  [(65, 90, 1, 97); (192, 214, 1, 224); (216, 222, 1, 248);
   (256, 302, 2, 257); (306, 310, 2, 307); (313, 327, 2, 314);
   (330, 374, 2, 331); (376, 376, 1, 255); (377, 381, 2, 378);
   (385, 385, 1, 595); (386, 388, 2, 387); (390, 390, 1, 596);
   (391, 391, 1, 392); (393, 394, 1, 598); (395, 395, 1, 396);
   (398, 398, 1, 477); (399, 399, 1, 601); (400, 400, 1, 603);
   (401, 401, 1, 402); (403, 403, 1, 608); (404, 404, 1, 611);
   (406, 406, 1, 617); (407, 407, 1, 616); (408, 408, 1, 409);
   (412, 412, 1, 623); (413, 413, 1, 626); (415, 415, 1, 629);
   (416, 420, 2, 417); (422, 422, 1, 640); (423, 423, 1, 424);
   (425, 425, 1, 643); (428, 428, 1, 429); (430, 430, 1, 648);
   (431, 431, 1, 432); (433, 434, 1, 650); (435, 437, 2, 436);
   (439, 439, 1, 658); (440, 440, 1, 441); (444, 444, 1, 445);
   (452, 452, 1, 454); (453, 453, 1, 454); (455, 455, 1, 457);
   (456, 456, 1, 457); (458, 458, 1, 460); (459, 475, 2, 460);
   (478, 494, 2, 479); (497, 497, 1, 499); (498, 500, 2, 499);
   (502, 502, 1, 405); (503, 503, 1, 447); (504, 542, 2, 505);
   (544, 544, 1, 414); (546, 562, 2, 547); (570, 570, 1, 11365);
   (571, 571, 1, 572); (573, 573, 1, 410); (574, 574, 1, 11366);
   (577, 577, 1, 578); (579, 579, 1, 384); (580, 580, 1, 649);
   (581, 581, 1, 652); (582, 590, 2, 583); (880, 882, 2, 881);
   (886, 886, 1, 887); (895, 895, 1, 1011); (902, 902, 1, 940);
   (904, 906, 1, 941); (908, 908, 1, 972); (910, 911, 1, 973);
   (913, 929, 1, 945); (932, 939, 1, 964); (975, 975, 1, 983);
   (984, 1006, 2, 985); (1012, 1012, 1, 952); (1015, 1015, 1, 1016);
   (1017, 1017, 1, 1010); (1018, 1018, 1, 1019); (1021, 1023, 1, 891);
   (1024, 1039, 1, 1104); (1040, 1071, 1, 1072); (1120, 1152, 2, 1121);
   (1162, 1214, 2, 1163); (1216, 1216, 1, 1231); (1217, 1229, 2, 1218);
   (1232, 1326, 2, 1233); (1329, 1366, 1, 1377);
   (4256, 4293, 1, 11520); (4295, 4295, 1, 11559);
   (4301, 4301, 1, 11565); (5024, 5103, 1, 43888);
   (5104, 5109, 1, 5112); (7312, 7354, 1, 4304); (7357, 7359, 1, 4349);
   (7680, 7828, 2, 7681); (7838, 7838, 1, 223); (7840, 7934, 2, 7841);
   (7944, 7951, 1, 7936); (7960, 7965, 1, 7952); (7976, 7983, 1, 7968);
   (7992, 7999, 1, 7984); (8008, 8013, 1, 8000); (8025, 8031, 2, 8017);
   (8040, 8047, 1, 8032); (8072, 8079, 1, 8064); (8088, 8095, 1, 8080);
   (8104, 8111, 1, 8096); (8120, 8121, 1, 8112); (8122, 8123, 1, 8048);
   (8124, 8124, 1, 8115); (8136, 8139, 1, 8050); (8140, 8140, 1, 8131);
   (8152, 8153, 1, 8144); (8154, 8155, 1, 8054); (8168, 8169, 1, 8160);
   (8170, 8171, 1, 8058); (8172, 8172, 1, 8165); (8184, 8185, 1, 8056);
   (8186, 8187, 1, 8060); (8188, 8188, 1, 8179); (8486, 8486, 1, 969);
   (8490, 8490, 1, 107); (8491, 8491, 1, 229); (8498, 8498, 1, 8526);
   (8544, 8559, 1, 8560); (8579, 8579, 1, 8580); (9398, 9423, 1, 9424);
   (11264, 11311, 1, 11312); (11360, 11360, 1, 11361);
   (11362, 11362, 1, 619); (11363, 11363, 1, 7549);
   (11364, 11364, 1, 637); (11367, 11371, 2, 11368);
   (11373, 11373, 1, 593); (11374, 11374, 1, 625);
   (11375, 11375, 1, 592); (11376, 11376, 1, 594);
   (11378, 11378, 1, 11379); (11381, 11381, 1, 11382);
   (11390, 11391, 1, 575); (11392, 11490, 2, 11393);
   (11499, 11501, 2, 11500); (11506, 11506, 1, 11507);
   (42560, 42604, 2, 42561); (42624, 42650, 2, 42625);
   (42786, 42798, 2, 42787); (42802, 42862, 2, 42803);
   (42873, 42875, 2, 42874); (42877, 42877, 1, 7545);
   (42878, 42886, 2, 42879); (42891, 42891, 1, 42892);
   (42893, 42893, 1, 613); (42896, 42898, 2, 42897);
   (42902, 42920, 2, 42903); (42922, 42922, 1, 614);
   (42923, 42923, 1, 604); (42924, 42924, 1, 609);
   (42925, 42925, 1, 620); (42926, 42926, 1, 618);
   (42928, 42928, 1, 670); (42929, 42929, 1, 647);
   (42930, 42930, 1, 669); (42931, 42931, 1, 43859);
   (42932, 42946, 2, 42933); (42948, 42948, 1, 42900);
   (42949, 42949, 1, 642); (42950, 42950, 1, 7566);
   (42951, 42953, 2, 42952); (42960, 42960, 1, 42961);
   (42966, 42968, 2, 42967); (42997, 42997, 1, 42998);
   (65313, 65338, 1, 65345); (66560, 66599, 1, 66600);
   (66736, 66771, 1, 66776); (66928, 66938, 1, 66967);
   (66940, 66954, 1, 66979); (66956, 66962, 1, 66995);
   (66964, 66965, 1, 67003); (68736, 68786, 1, 68800);
   (71840, 71871, 1, 71872); (93760, 93791, 1, 93792);
   (125184, 125217, 1, 125218)]%Z.

Definition in_ranges (c : Z) (l : list (Z * Z)) : bool :=
  existsb (λ '(lo, hi), (lo <=? c)%Z && (c <=? hi)%Z) l.

(** [c.isspace()] *)
Definition isspace (t : list ascii) : bool :=
  match decode t with
  | Some c => bool_decide (c ∈ space_points)
  | None => false
  end.

Fixpoint lstrip_chars (l : list (list ascii)) : list (list ascii) :=
  match l with
  | t :: l' => if isspace t then lstrip_chars l' else l
  | [] => []
  end.

Definition rstrip_chars (l : list (list ascii)) : list (list ascii) :=
  rev (lstrip_chars (rev l)).

Definition strip_chars (l : list (list ascii)) : list (list ascii) :=
  rstrip_chars (lstrip_chars l).

(** [s.strip()] *)
Definition strip (s : string) : string :=
  string_of_list_ascii
    (concat (strip_chars (chars (list_ascii_of_string s)))).

Definition case_ignorable (t : list ascii) : bool :=
  match decode t with
  | Some c => in_ranges c case_ignorable_points
  | None => false
  end.

Definition cased (t : list ascii) : bool :=
  match decode t with
  | Some c => in_ranges c cased_points
  | None => false
  end.

Fixpoint skip_ignorable (l : list (list ascii)) : list (list ascii) :=
  match l with
  | t :: l' => if case_ignorable t then skip_ignorable l' else l
  | [] => []
  end.

(** A capital sigma is final when a cased character stands before it and
    none after it, case-ignorable characters not counting; [before] holds
    the characters before it, the nearest first. *)
Definition final_sigma (before after : list (list ascii)) : bool :=
  match skip_ignorable before with
  | t :: _ => cased t
  | [] => false
  end
  && match skip_ignorable after with
     | t :: _ => negb (cased t)
     | [] => true
     end.

(** The lower case of a code point other than the capital sigma, when it
    differs from the code point. *)
Definition lower_point (c : Z) : option (list Z) :=
  if (c =? 304)%Z then Some [105; 775]%Z
  else
    match find (λ '(lo, hi, step, _),
                  (lo <=? c)%Z && (c <=? hi)%Z
                  && ((c - lo) mod step =? 0)%Z) lower_runs with
    | Some (lo, _, _, target) => Some [target + (c - lo)]%Z
    | None => None
    end.

(** The lower case of one character of a text. *)
Definition lower_char (before after : list (list ascii)) (t : list ascii)
  : list (list ascii) :=
  match decode t with
  | Some c =>
      if (c =? 931)%Z
      then [encode (if final_sigma before after then 962 else 963)%Z]
      else match lower_point c with
           | Some l => encode <$> l
           | None => [t]
           end
  | None => [t]
  end.

Fixpoint lower_chars (before l after : list (list ascii))
  : list (list ascii) :=
  match l with
  | [] => []
  | t :: l' =>
      lower_char before (l' ++ after) t ++ lower_chars (t :: before) l' after
  end.

(** [s.lower()] *)
Definition lower (s : string) : string :=
  string_of_list_ascii
    (concat (lower_chars [] (chars (list_ascii_of_string s)) [])).

(** [s.replace(",", "")], what [Series.replace({',': ''}, regex=True)]
    does to a text cell. *)
Definition remove_commas (s : string) : string :=
  string_of_list_ascii
    (filter (λ a, a ≠ ","%char) (list_ascii_of_string s)).

(** A non-empty string is truthy. *)
Definition truthy (s : string) : bool := bool_decide (s ≠ "").

(** No white space in front. *)
Definition starts_clean (l : list (list ascii)) : Prop :=
  match l with
  | t :: _ => isspace t = false
  | [] => True
  end.

(** A byte that starts a character, with continuation bytes only. *)
Definition proper (t : list ascii) : bool :=
  match t with
  | a :: cs => negb (is_cont a) && forallb is_cont cs
  | [] => false
  end.

(** The characters of a text: the first may start with a continuation
    byte, the others are proper. *)
Definition well_split (ts : list (list ascii)) : Prop :=
  match ts with
  | [] => True
  | t :: ts' =>
      (∃ a cs, t = a :: cs ∧ forallb is_cont cs = true)
      ∧ Forall (λ t', proper t' = true) ts'
  end.

(** A code point whose bytes are a character that is no white space. *)
Definition letter (c : Z) : bool :=
  proper (encode c) && negb (isspace (encode c)).

End Text.

(** ** Frames *)

Record date := mkDate { year : nat; month : nat; day : nat }.

Global Instance date_eq_dec : EqDecision date.
Proof. solve_decision. Defined.

(** A cell of a frame: text, a float, a timestamp, or the missing value
    (NaN, NaT, None). *)
Inductive cell :=
  | VStr (s : string)
  | VNum (x : Qc)
  | VDate (d : date)
  | VNaN.

Global Instance cell_eq_dec : EqDecision cell.
Proof. solve_decision. Defined.

Record DataFrame := mkDF {
  columns : list string;
  rows : list (gmap string cell)
}.

Module Frame.

(** [df[c]]: the column as a list, [KeyError] when there is none. *)
Definition getitem (df : DataFrame) (c : string) : result (list cell) :=
  if decide (c ∈ columns df)
  then Ok ((λ r : gmap string cell, default VNaN (r !! c)) <$> rows df)
  else Raise KeyError.

Definition add_column (c : string) (cols : list string) : list string :=
  if decide (c ∈ cols) then cols else cols ++ [c].

(** [df[c] = v] for a scalar [v]. *)
Definition setitem_scalar (df : DataFrame) (c : string) (v : cell)
  : DataFrame :=
  mkDF (add_column c (columns df))
       ((λ r : gmap string cell, <[c := v]> r) <$> rows df).

(** [df[c] = series] for a series on the same index. *)
Definition setitem (df : DataFrame) (c : string) (vs : list cell)
  : DataFrame :=
  mkDF (add_column c (columns df))
       (zip_with (λ (r : gmap string cell) v, <[c := v]> r) (rows df) vs).

(** [df.at[idx, c] = v] *)
Definition at_set (df : DataFrame) (idx : nat) (c : string) (v : cell)
  : DataFrame :=
  mkDF (columns df)
       (alter (λ r : gmap string cell, <[c := v]> r) idx (rows df)).

(** [df.iterrows()]: the labelled rows as they are when the loop starts. *)
Definition iterrows (df : DataFrame) : list (nat * gmap string cell) :=
  zip (seq 0 (length (rows df))) (rows df).

(** [row[c]] on a row yielded by [iterrows]. *)
Definition row_get (df : DataFrame) (row : gmap string cell) (c : string)
  : result cell :=
  if decide (c ∈ columns df) then Ok (default VNaN (row !! c))
  else Raise KeyError.

(** [df.at[idx, c]] *)
Definition at_get (df : DataFrame) (idx : nat) (c : string) : result cell :=
  match rows df !! idx with
  | Some row => row_get df row c
  | None => Raise KeyError
  end.

(** [df[df[c] == v]] *)
Definition select_eq (df : DataFrame) (c : string) (v : cell)
  : result DataFrame :=
  if decide (c ∈ columns df)
  then Ok (mkDF (columns df)
                (filter (λ r : gmap string cell, r !! c = Some v) (rows df)))
  else Raise KeyError.

End Frame.

(** A method of [str] called on a cell: anything but text has no such
    attribute. *)
Definition as_str (v : cell) : result string :=
  match v with
  | VStr s => Ok s
  | _ => Raise AttributeError
  end.

(** ** The category store *)

(** A [dict] from category name to keyword list, in insertion order. *)
Abbreviation dict := (list (string * list string)).

Module Dict.

Definition keys (d : dict) : list string := d.*1.

(** [k in d] *)
Definition contains (k : string) (d : dict) : bool :=
  bool_decide (k ∈ keys d).

(** [d[k]] *)
Fixpoint get (k : string) (d : dict) : result (list string) :=
  match d with
  | [] => Raise KeyError
  | (k', v) :: d' => if decide (k' = k) then Ok v else get k d'
  end.

(** The value stored under an existing key is replaced where it stands. *)
Fixpoint update (k : string) (v : list string) (d : dict) : dict :=
  match d with
  | [] => []
  | (k', v') :: d' =>
      if decide (k' = k) then (k', v) :: d' else (k', v') :: update k v d'
  end.

(** [d[k] = v] *)
Definition set (k : string) (v : list string) (d : dict) : dict :=
  if contains k d then update k v d else d ++ [(k, v)].

End Dict.

(** The session state ([st.session_state]) together with the contents of
    [categories.json] ([None] while the file does not exist). *)
Record state := mkState {
  categories : dict;
  categorized_transactions : option DataFrame;
  debits_df : option DataFrame;
  category_file : option dict
}.

Definition set_categories (d : dict) (s : state) : state :=
  mkState d (categorized_transactions s) (debits_df s) (category_file s).

Definition set_debits_df (df : DataFrame) (s : state) : state :=
  mkState (categories s) (categorized_transactions s) (Some df)
          (category_file s).

Definition set_categorized_transactions (df : option DataFrame) (s : state)
  : state :=
  mkState (categories s) df (debits_df s) (category_file s).

(** First run of a session, lines 12-18. *)
Definition new_session (file : option dict) : state :=
  mkState [("Uncategorized", [])] None None file.

(** Lines 20-23, executed at the start of every run of the script. *)
Definition load_categories (s : state) : state :=
  match category_file s with
  | Some d => set_categories d s
  | None => s
  end.

Definition save_categories (s : state) : state :=
  mkState (categories s) (categorized_transactions s) (debits_df s)
          (Some (categories s)).

(** [add_keyword_to_category], lines 87-94. *)
Definition add_keyword_to_category (category keyword : string) (s : state)
  : result (state * bool) :=
  let keyword := Text.strip keyword in
  if Text.truthy keyword then
    keywords ← Dict.get category (categories s);
    if bool_decide (keyword ∉ keywords) then
      let s := set_categories
                 (Dict.update category (keywords ++ [keyword]) (categories s))
                 s in
      Ok (save_categories s, true)
    else Ok (s, false)
  else Ok (s, false).

(** The "Add Category" block of [main], lines 116-120.  The flag tells
    whether the category was inserted (and [st.rerun()] called). *)
Definition add_category (add_button : bool) (new_category : string) (s : state)
  : state * bool :=
  if add_button && Text.truthy new_category then
    if negb (Dict.contains new_category (categories s)) then
      (save_categories
         (set_categories (Dict.set new_category [] (categories s)) s), true)
    else (s, false)
  else (s, false).

(** ** Keyword classification *)

Definition normalize (s : string) : string := Text.strip (Text.lower s).

(** The inner loop of [categorize_transactions], lines 38-41. *)
Definition categorize_row (category : string) (lowered_keywords : list string)
    (it : nat * gmap string cell) (df : DataFrame) : result DataFrame :=
  let '(idx, row) := it in
  v ← Frame.row_get df row "Details";
  s ← as_str v;
  let details := normalize s in
  if bool_decide (details ∈ lowered_keywords)
  then Ok (Frame.at_set df idx "Category" (VStr category))
  else Ok df.

(** The body of the outer loop, lines 33-41. *)
Definition categorize_category (item : string * list string) (df : DataFrame)
  : result DataFrame :=
  let '(category, keywords) := item in
  if bool_decide (category = "Uncategorized") || bool_decide (keywords = [])
  then Ok df
  else
    let lowered_keywords := normalize <$> keywords in
    for_each (categorize_row category lowered_keywords) (Frame.iterrows df) df.

(** [categorize_transactions], lines 29-42. *)
Definition categorize_transactions (cats : dict) (df : DataFrame)
  : result DataFrame :=
  let df := Frame.setitem_scalar df "Category" (VStr "Uncategorized") in
  for_each categorize_category cats df.

(** ** Dates *)

(** The format directives [load_transactions] uses, as the regular
    expressions of the [strptime] implementation read them: alternatives
    are tried in the order listed, the first complete match of the format
    is taken, and text left over after it is an error.  The expressions
    work on characters: [\d] is a decimal digit of any script, [\s] any
    white space, the digits written out in a pattern are ASCII. *)
Module Strptime.

Inductive item :=
  | Day          (* %d : 3[0-1]|[1-2]\d|0[1-9]|[1-9]| [1-9] *)
  | Month        (* %m : 1[0-2]|0[1-9]|[1-9] *)
  | MonthAbbr    (* %b : jan|feb|..., case ignored *)
  | Year4        (* %Y : \d\d\d\d *)
  | Spaces       (* white space in the format : \s+ *)
  | Literal (t : list ascii)   (* any other character; here only [/] *)
  | Unsupported.

Definition directive (c : list ascii) : item :=
  if decide (c = ["d"%char]) then Day
  else if decide (c = ["m"%char]) then Month
  else if decide (c = ["b"%char]) then MonthAbbr
  else if decide (c = ["Y"%char]) then Year4
  else Unsupported.

Fixpoint compile (after_space : bool) (fmt : list (list ascii)) : list item :=
  match fmt with
  | [] => []
  | t :: rest =>
      match rest with
      | c :: rest' =>
          if decide (t = ["%"%char]) then directive c :: compile false rest'
          else if Text.isspace t
          then (if after_space then [] else [Spaces]) ++ compile true rest
          else Literal t :: compile false rest
      | [] =>
          if Text.isspace t then (if after_space then [] else [Spaces])
          else [Literal t]
      end
  end.

(** The value of a digit written [0-9] in a pattern. *)
Definition ascii_digit (t : list ascii) : option nat :=
  match Text.decode t with
  | Some c =>
      if (48 <=? c)%Z && (c <=? 57)%Z then Some (Z.to_nat (c - 48)) else None
  | None => None
  end.

(** The value of a character that [\d] matches, as [int] reads it. *)
Definition digit (t : list ascii) : option nat :=
  match Text.decode t with
  | Some c =>
      match find (λ lo, (lo <=? c)%Z && (c <=? lo + 9)%Z) Text.digit_blocks
      with
      | Some lo => Some (Z.to_nat (c - lo))
      | None => None
      end
  | None => None
  end.

(** Fields default to 1 January 1900. *)
Definition epoch : date := mkDate 1900 1 1.

Definition set_day (n : nat) (d : date) := mkDate (year d) (month d) n.
Definition set_month (n : nat) (d : date) := mkDate (year d) n (day d).
Definition set_year (n : nat) (d : date) := mkDate n (month d) (day d).

(** Two digits with a value from [lo] to [hi]; [wide] tells after which
    first digits the pattern has [\d] for the second. *)
Definition two_digits (wide : nat → bool) (lo hi : nat)
    (s : list (list ascii)) : list (nat * list (list ascii)) :=
  match s with
  | a :: b :: rest =>
      match ascii_digit a with
      | Some x =>
          match (if wide x then digit b else ascii_digit b) with
          | Some y =>
              let n := 10 * x + y in
              if (lo <=? n)%nat && (n <=? hi)%nat then [(n, rest)] else []
          | None => []
          end
      | None => []
      end
  | _ => []
  end.

Definition one_digit (s : list (list ascii))
  : list (nat * list (list ascii)) :=
  match s with
  | a :: rest =>
      match ascii_digit a with
      | Some x => if (1 <=? x)%nat then [(x, rest)] else []
      | None => []
      end
  | _ => []
  end.

Definition space_digit (s : list (list ascii))
  : list (nat * list (list ascii)) :=
  match s with
  | a :: rest => if decide (a = [" "%char]) then one_digit rest else []
  | _ => []
  end.

Definition four_digits (s : list (list ascii))
  : list (nat * list (list ascii)) :=
  match s with
  | a :: b :: c :: d :: rest =>
      match digit a, digit b, digit c, digit d with
      | Some w, Some x, Some y, Some z =>
          [(1000 * w + 100 * x + 10 * y + z, rest)]
      | _, _, _, _ => []
      end
  | _ => []
  end.

Definition month_abbr : list string :=
  ["jan"; "feb"; "mar"; "apr"; "may"; "jun";
   "jul"; "aug"; "sep"; "oct"; "nov"; "dec"].

(** Three characters whose lower case is a month: the match ignores
    case, and the month is looked up under the lower case of the text
    that matched. *)
Definition abbr (s : list (list ascii)) : list (nat * list (list ascii)) :=
  match s with
  | a :: b :: c :: rest =>
      let w := Text.lower (string_of_list_ascii (a ++ b ++ c)) in
      match list_find (λ m, m = w) month_abbr with
      | Some (i, _) => [(S i, rest)]
      | None => []
      end
  | _ => []
  end.

(** [\s+], longest first. *)
Fixpoint spaces (s : list (list ascii)) : list (list (list ascii)) :=
  match s with
  | a :: rest => if Text.isspace a then spaces rest ++ [rest] else []
  | [] => []
  end.

Definition step (it : item) (st : date * list (list ascii))
  : list (date * list (list ascii)) :=
  let '(d, s) := st in
  match it with
  | Day =>
      (λ '(n, r), (set_day n d, r))
        <$> (two_digits (λ x, (x =? 1)%nat || (x =? 2)%nat) 1 31 s
             ++ one_digit s ++ space_digit s)
  | Month =>
      (λ '(n, r), (set_month n d, r))
        <$> (two_digits (λ _, false) 1 12 s ++ one_digit s)
  | MonthAbbr => (λ '(n, r), (set_month n d, r)) <$> abbr s
  | Year4 => (λ '(n, r), (set_year n d, r)) <$> four_digits s
  | Spaces => (λ r, (d, r)) <$> spaces s
  | Literal a =>
      match s with
      | b :: r => if decide (a = b) then [(d, r)] else []
      | [] => []
      end
  | Unsupported => []
  end.

Fixpoint run (its : list item) (st : date * list (list ascii))
  : list (date * list (list ascii)) :=
  match its with
  | [] => [st]
  | it :: its' => step it st ≫= run its'
  end.

Definition leap (y : nat) : bool :=
  ((y mod 4 =? 0)%nat && negb (y mod 100 =? 0)%nat) || (y mod 400 =? 0)%nat.

Definition days_in_month (y m : nat) : nat :=
  match m with
  | 2 => if leap y then 29 else 28
  | 4 | 6 | 9 | 11 => 30
  | _ => 31
  end.

Definition valid (d : date) : bool :=
  (1 <=? year d)%nat && (1 <=? month d)%nat && (month d <=? 12)%nat
  && (1 <=? day d)%nat && (day d <=? days_in_month (year d) (month d))%nat.

Definition strptime (s fmt : string) : option date :=
  match run (compile false (Text.chars (list_ascii_of_string fmt)))
            (epoch, Text.chars (list_ascii_of_string s)) with
  | (d, []) :: _ => if valid d then Some d else None
  | _ => None
  end.

End Strptime.

Fixpoint map_result {A B : Type} (f : A → result B) (l : list A)
  : result (list B) :=
  match l with
  | [] => Ok []
  | x :: l' => y ← f x; ys ← map_result f l'; Ok (y :: ys)
  end.

(** The texts that [to_datetime] reads as a missing date. *)
Definition nat_strings : list string :=
  [""; "NaT"; "nat"; "NAT"; "nan"; "NaN"; "NAN"].

Definition date_le (a b : date) : bool :=
  (year a <? year b)%nat
  || ((year a =? year b)%nat
      && ((month a <? month b)%nat
          || ((month a =? month b)%nat && (day a <=? day b)%nat))).

(** The days a timestamp of nanoseconds can hold at midnight: from 22
    September 1677 to 11 April 2262. *)
Definition in_bounds (d : date) : bool :=
  date_le (mkDate 1677 9 22) d && date_le d (mkDate 2262 4 11).

(** One value under [pd.to_datetime(..., format=fmt)]: a text that
    stands for a missing date becomes NaT, any other text goes through
    [strptime], and a date that a timestamp cannot hold is an
    [OutOfBoundsDatetime], which is a [ValueError]; a missing value
    becomes NaT, a timestamp stays.  A number is read through its decimal
    text, which holds neither a [/] nor a month name, so it matches
    neither format of [load_transactions]. *)
Definition to_datetime_cell (fmt : string) (v : cell) : result cell :=
  match v with
  | VStr s =>
      if bool_decide (s ∈ nat_strings) then Ok VNaN
      else
        match Strptime.strptime s fmt with
        | Some d => if in_bounds d then Ok (VDate d) else Raise ValueError
        | None => Raise ValueError
        end
  | VNaN => Ok VNaN
  | VDate d => Ok (VDate d)
  | VNum _ => Raise ValueError
  end.

(** [pd.to_datetime(col, format=fmt)]: the whole column or [ValueError]. *)
Definition to_datetime (col : list cell) (fmt : string) : result (list cell) :=
  map_result (to_datetime_cell fmt) col.

(** [try: body except ValueError: handler] *)
Definition except_ValueError {A} (body handler : result A) : result A :=
  match body with
  | Raise ValueError => handler
  | r => r
  end.

(** ** Ingestion *)

(** An uploaded statement: the column names that [read_csv] gives the
    frame, and the data lines, cell by cell as [read_csv] types them
    (text, number or empty).  A line with fewer cells than columns is
    filled with missing values. *)
Record csv := mkCsv {
  header : list string;
  lines : list (list cell)
}.

(** The statements that the frames of this model can hold: no line has
    more cells than there are columns (with more, [read_csv] makes an
    index of the surplus of the first line, or rejects the file), and the
    names stay distinct when they are trimmed (with a name twice,
    [df[name]] is a frame and no column).  What is proved of the columns
    of other statements is proved of their names only. *)
Definition fits (file : csv) : Prop :=
  Forall (λ line : list cell, length line ≤ length (header file)) (lines file)
  ∧ NoDup (Text.strip <$> header file).

Definition project_row (cols : list string) (rename : string → string)
    (value : string → cell) : gmap string cell :=
  list_to_map ((λ c, (rename c, value c)) <$> cols).

Definition cell_of (r : gmap string cell) (c : string) : cell :=
  default VNaN (r !! c).

Definition read_csv (file : csv) : DataFrame :=
  mkDF (header file)
       ((λ line, list_to_map (zip (header file) line)) <$> lines file).

(** [df.columns = names] *)
Definition set_columns (df : DataFrame) (names : list string) : DataFrame :=
  mkDF names
       ((λ r : gmap string cell,
           list_to_map (zip names (cell_of r <$> columns df))) <$> rows df).

(** [df[cols]] *)
Definition select_columns (df : DataFrame) (cols : list string)
  : result DataFrame :=
  if decide (cols ⊆ columns df)
  then Ok (mkDF cols ((λ r, project_row cols id (cell_of r)) <$> rows df))
  else Raise KeyError.

(** A column has dtype [object] when it holds text. *)
Definition is_object (col : list cell) : bool :=
  existsb (λ v, match v with VStr _ => true | _ => false end) col.

Definition replace_commas (v : cell) : cell :=
  match v with
  | VStr s => VStr (Text.remove_commas s)
  | _ => v
  end.

(** [series.fillna(v)] *)
Definition fillna (v : cell) (col : list cell) : list cell :=
  (λ x, match x with VNaN => v | _ => x end) <$> col.

(** The name of a column after a merge: a column that both frames have,
    other than the key, gets the suffix. *)
Definition suffixed (others : list string) (on sfx c : string) : string :=
  if decide (c ≠ on ∧ c ∈ others) then c +:+ sfx else c.

(** The key column of a merge. *)
Definition key_column (df : DataFrame) (on : string) : list cell :=
  (λ r, cell_of r on) <$> rows df.

(** Two key columns can be merged when one of them is empty or both have
    the same kind of dtype, [object] or numeric; the dtype is the one
    [read_csv] gives a column of these cells. *)
Definition same_kind (l r : list cell) : bool :=
  match l, r with
  | [], _ | _, [] => true
  | _, _ => bool_decide (is_object l = is_object r)
  end.

(** [df.merge(right, on=on, how="left")]: every row of [df], in order,
    joined with each row of [right] that has the same key, in the order of
    [right]; a row without a partner is kept once, with missing values in
    the columns of [right].  Text keys cannot be merged with numeric
    ones: [ValueError]. *)
Definition merge_left (df right : DataFrame) (on : string)
  : result DataFrame :=
  if decide (on ∈ columns df ∧ on ∈ columns right) then
    if negb (same_kind (key_column df on) (key_column right on))
    then Raise ValueError else
    let lname := suffixed (columns right) on "_x" in
    let rname := suffixed (columns df) on "_y" in
    let rcols := filter (λ c, c ≠ on) (columns right) in
    let lrow (l : gmap string cell) :=
      project_row (columns df) lname (cell_of l) in
    let rrow (r : gmap string cell) := project_row rcols rname (cell_of r) in
    let nan_row := project_row rcols rname (λ _, VNaN) in
    Ok (mkDF ((lname <$> columns df) ++ (rname <$> rcols))
          (rows df ≫= λ l,
             match filter (λ r, cell_of r on = cell_of l on) (rows right) with
             | [] => [lrow l ∪ nan_row]
             | ms => (λ r, lrow l ∪ rrow r) <$> ms
             end))
  else Raise KeyError.

(** Lines 70-78: the categories of the previous categorisation. *)
Definition reconcile (snapshot df : DataFrame) : result DataFrame :=
  right ← select_columns snapshot ["Details"; "Category"];
  df ← merge_left df right "Details";
  category ← Frame.getitem df "Category";
  Ok (Frame.setitem df "Category" (fillna (VStr "Uncategorized") category)).

(** Lines 69-80. *)
Definition classify (s : state) (df : DataFrame) : result DataFrame :=
  match categorized_transactions s with
  | Some snapshot => reconcile snapshot df
  | None => categorize_transactions (categories s) df
  end.

(** The nearest integer to [n / d], ties to the even one. *)
Definition round_half_even (n d : Z) : Z :=
  let q := (n / d)%Z in
  let r := (n mod d)%Z in
  if (2 * r <? d)%Z then q
  else if (d <? 2 * r)%Z then (q + 1)%Z
  else if Z.even q then q else (q + 1)%Z.

(** The float nearest to a number, with a mantissa of 53 bits and ties
    to the even mantissa: what [astype(float)] makes of an integer.  A
    float is its own nearest float. *)
Definition to_float (x : Qc) : Qc :=
  let n := Z.abs (Qnum x) in
  let d := Z.pos (Qden x) in
  if (n =? 0)%Z then x
  else
    let e0 := (Z.log2 n - Z.log2 d)%Z in
    let e := if (n * 2 ^ Z.max 0 (- e0) <? d * 2 ^ Z.max 0 e0)%Z
             then (e0 - 1)%Z else e0 in
    let k := (52 - e)%Z in
    let m := round_half_even (n * 2 ^ Z.max 0 k) (d * 2 ^ Z.max 0 (- k)) in
    let y := Q2Qc (Qmake (Z.sgn (Qnum x) * m * 2 ^ Z.max 0 (- k))
                         (Z.to_pos (2 ^ Z.max 0 k))) in
    if Qc_eq_bool y x then x else y.

(** [series.astype(float)] on one value of a numeric column. *)
Definition float_cell (v : cell) : cell :=
  match v with
  | VNum x => VNum (to_float x)
  | _ => v
  end.

Section Ingestion.

(** Two conversions of the libraries are left open: Python's [float] of
    a text, and [pd.to_datetime(col, dayfirst=True)] without a format. *)
Variable float_of_string : string → option Qc.
Variable to_datetime_dayfirst : list cell → result (list cell).

(** [series.astype(float)] on one value of an [object] column. *)
Definition astype_float (v : cell) : result cell :=
  match v with
  | VStr s =>
      match float_of_string s with
      | Some x => Ok (VNum x)
      | None => Raise ValueError
      end
  | VDate _ => Raise ValueError
  | _ => Ok (float_cell v)
  end.

(** Lines 50-55. *)
Definition normalize_amount (df : DataFrame) : result DataFrame :=
  amount ← Frame.getitem df "Amount";
  if is_object amount then
    amount ← map_result astype_float (replace_commas <$> amount);
    Ok (Frame.setitem df "Amount" amount)
  else Ok (Frame.setitem df "Amount" (float_cell <$> amount)).

(** Lines 58-67. *)
Definition normalize_date (df : DataFrame) : result DataFrame :=
  except_ValueError
    (col ← Frame.getitem df "Date";
     d ← to_datetime col "%d/%m/%Y";
     Ok (Frame.setitem df "Date" d))
    (except_ValueError
       (col ← Frame.getitem df "Date";
        d ← to_datetime col "%d %b %Y";
        Ok (Frame.setitem df "Date" d))
       (col ← Frame.getitem df "Date";
        d ← to_datetime_dayfirst col;
        Ok (Frame.setitem df "Date" d))).

(** The body of the [try] of [load_transactions], lines 46-82. *)
Definition load_transactions_body (s : state) (file : csv)
  : result DataFrame :=
  let df := read_csv file in
  let df := set_columns df (Text.strip <$> columns df) in
  df ← normalize_amount df;
  df ← normalize_date df;
  classify s df.

(** [load_transactions], lines 44-85: [None] after [st.error]. *)
Definition load_transactions (s : state) (file : csv) : option DataFrame :=
  match load_transactions_body s file with
  | Ok df => Some df
  | Raise _ => None
  end.

End Ingestion.

(** ** One run of the script *)

(** What the widgets hand to a run of [main]: the uploaded file, the
    "Add Category" form, the table as the user left it in the editor
    (given the table shown), and the "Apply Changes" button. *)
Record widgets := mkWidgets {
  uploaded_file : option csv;
  add_button : bool;
  new_category : string;
  data_editor : DataFrame → DataFrame;
  save_button : bool
}.

Inductive outcome :=
  | Finished
  | ErrorShown            (* [st.error] in [load_transactions] *)
  | Rerun                 (* [st.rerun()] *)
  | Uncaught (e : exn).   (* the run stops where the exception is raised *)

(** [add_keyword_to_category(new_category, details)] on two cells of the
    edited table: [details.strip()] comes first, and a category that is
    not text is not a key of the dictionary. *)
Definition learn_keyword (new_category details : cell) (s : state)
  : result (state * bool) :=
  keyword ← as_str details;
  match new_category with
  | VStr category => add_keyword_to_category category keyword s
  | _ =>
      if Text.truthy (Text.strip keyword) then Raise KeyError
      else Ok (s, false)
  end.

(** The body of the loop of "Apply Changes", lines 202-211.  The session
    is changed in place, so what was done before an exception stays.  The
    edited table and the dataset of the session share their index, so a
    label stands for the same position in both. *)
Definition apply_edit (edited_df : DataFrame) (it : nat * gmap string cell)
    (s : state) : state * option exn :=
  let '(idx, row) := it in
  let debits := default (mkDF [] []) (debits_df s) in
  match Frame.row_get edited_df row "Category" with
  | Raise e => (s, Some e)
  | Ok new_category =>
      match Frame.at_get debits idx "Category" with
      | Raise e => (s, Some e)
      | Ok old_category =>
          if decide (new_category ≠ old_category) then
            match Frame.row_get edited_df row "Details" with
            | Raise e => (s, Some e)
            | Ok details =>
                let s := set_debits_df
                           (Frame.at_set debits idx "Category" new_category)
                           s in
                match learn_keyword new_category details s with
                | Raise e => (s, Some e)
                | Ok (s, _) => (s, None)
                end
            end
          else (s, None)
      end
  end.

Fixpoint apply_edits (edited_df : DataFrame)
    (its : list (nat * gmap string cell)) (s : state) : state * option exn :=
  match its with
  | [] => (s, None)
  | it :: its' =>
      match apply_edit edited_df it s with
      | (s, Some e) => (s, Some e)
      | (s, None) => apply_edits edited_df its' s
      end
  end.

(** "Apply Changes", lines 199-217. *)
Definition apply_changes (edited_df : DataFrame) (s : state)
  : state * outcome :=
  match apply_edits edited_df (Frame.iterrows edited_df) s with
  | (s, Some e) => (s, Uncaught e)
  | (s, None) =>
      let s := save_categories s in
      (set_categorized_transactions (debits_df s) s, Finished)
  end.

Section Main.

Variable float_of_string : string → option Qc.
Variable to_datetime_dayfirst : list cell → result (list cell).

(** Lines 20-23 and [main]: the statements that read or change the
    session.  The charts and metrics between them read the columns
    [Category], [Amount] and [Date], which a frame returned by
    [load_transactions] has, and change nothing. *)
Definition main (w : widgets) (s : state) : state * outcome :=
  let s := load_categories s in
  match uploaded_file w with
  | None => (s, Finished)
  | Some file =>
      match load_transactions float_of_string to_datetime_dayfirst s file
      with
      | None => (s, ErrorShown)
      | Some df =>
          match Frame.select_eq df "Debit/Credit" (VStr "Debit") with
          | Raise e => (s, Uncaught e)
          | Ok debits =>
              let s := set_debits_df debits s in
              let '(s, inserted) :=
                add_category (add_button w) (new_category w) s in
              if inserted then (s, Rerun)
              else
                match select_columns debits
                        ["Date"; "Details"; "Amount"; "Category"] with
                | Raise e => (s, Uncaught e)
                | Ok shown =>
                    let edited_df := data_editor w shown in
                    if save_button w then apply_changes edited_df s
                    else (s, Finished)
                end
          end
      end
  end.

End Main.

(** The states a session can be in: it starts with no snapshot and the
    default categories, next to a [categories.json] that is absent or was
    left by an earlier session, and then runs [main] or, called on their
    own, the operations of the category store. *)
Inductive reachable : state → Prop :=
  | reach_new : reachable (new_session None)
  | reach_restart s : reachable s → reachable (new_session (category_file s))
  | reach_load s : reachable s → reachable (load_categories s)
  | reach_create s b name :
      reachable s → reachable (add_category b name s).1
  | reach_keyword s category keyword s' b :
      reachable s →
      add_keyword_to_category category keyword s = Ok (s', b) →
      reachable s'
  | reach_learn s edited_df :
      reachable s → reachable (apply_changes edited_df s).1
  | reach_main s f g w :
      reachable s → reachable (main f g w s).1.

(** ** The behaviour the specification describes *)

Definition details_text (r : gmap string cell) : string :=
  match r !! "Details" with
  | Some (VStr s) => s
  | _ => ""
  end.

Definition has_text_details (r : gmap string cell) : Prop :=
  ∃ s, r !! "Details" = Some (VStr s).

(** A category takes part in keyword matching when it is not
    "Uncategorized" and has a non-empty keyword set. *)
Definition eligible (item : string * list string) : bool :=
  negb (bool_decide (item.1 = "Uncategorized"))
  && negb (bool_decide (item.2 = [])).

(** Normalised details equal to one of the normalised keywords. *)
Definition keyword_match (keywords : list string) (details : string) : bool :=
  bool_decide (normalize details ∈ normalize <$> keywords).

(** The categories whose keywords match, in iteration order. *)
Definition matching_categories (cats : dict) (details : string)
  : list string :=
  (filter (λ item, eligible item && keyword_match item.2 details) cats).*1.

(** The last matching category wins; without a match the record keeps
    "Uncategorized". *)
Definition keyword_category (cats : dict) (details : string) : string :=
  default "Uncategorized" (last (matching_categories cats details)).

(** The entries that [dict.items()] yields after the key [k]. *)
Fixpoint entries_after (k : string) (d : dict) : dict :=
  match d with
  | [] => []
  | (k', v) :: d' => if decide (k' = k) then d' else entries_after k d'
  end.

(** A frame with the single record of the given details. *)
Definition fresh_record (details : string) : DataFrame :=
  mkDF ["Details"] [{[ "Details" := VStr details ]}].

(** The category column of a result. *)
Definition category_column (r : result DataFrame) : result (list cell) :=
  df ← r; Frame.getitem df "Category".



(** The rows of the snapshot that have the details of [l]. *)
Definition partners (snapshot : DataFrame) (l : gmap string cell)
  : list (gmap string cell) :=
  filter (λ r, cell_of r "Details" = cell_of l "Details") (rows snapshot).

(** The frame right after the header is trimmed, lines 46-47. *)
Definition parsed (file : csv) : DataFrame :=
  set_columns (read_csv file) (Text.strip <$> columns (read_csv file)).

(** ** Auxiliary notions of the proofs *)

(** Two rows that differ at most in their category. *)
Definition same_but_category (r r' : gmap string cell) : Prop :=
  ∀ c, c ≠ "Category" → r' !! c = r !! c.

(** Two frames with the same columns whose rows differ at most in their
    category. *)
Definition frame_rel (df df' : DataFrame) : Prop :=
  columns df' = columns df ∧ Forall2 same_but_category (rows df) (rows df').

(** What one pass of the inner loop does to a row. *)
Definition relabel (category : string) (lowered : list string)
    (r : gmap string cell) : gmap string cell :=
  if bool_decide (normalize (details_text r) ∈ lowered)
  then <["Category" := VStr category]> r else r.

Definition relabel_item (item : string * list string) (r : gmap string cell)
  : gmap string cell :=
  if eligible item && keyword_match item.2 (details_text r)
  then <["Category" := VStr item.1]> r else r.

(** The invariant of the store: "Uncategorized" is a key, in the session
    and in the file. *)
Definition store_inv (s : state) : Prop :=
  "Uncategorized" ∈ Dict.keys (categories s)
  ∧ ∀ d, category_file s = Some d → "Uncategorized" ∈ Dict.keys d.

(** [fillna("Uncategorized")] on one cell. *)
Definition fill_category (v : cell) : cell :=
  match v with VNaN => VStr "Uncategorized" | _ => v end.

(** The part of a merged row that comes from the row [l] of [df]. *)
Definition left_row (df : DataFrame) (l : gmap string cell)
  : gmap string cell :=
  project_row (columns df) id (cell_of l).

(** The category cells that the merge joins to [l]: one per partner, or
    a single missing value. *)
Definition joined_categories (snapshot : DataFrame) (l : gmap string cell)
  : list cell :=
  match partners snapshot l with
  | [] => [VNaN]
  | ms => (λ r, cell_of r "Category") <$> ms
  end.

Definition joined_category (snapshot : DataFrame) (l : gmap string cell)
  : cell :=
  match partners snapshot l with
  | r :: _ => cell_of r "Category"
  | [] => VNaN
  end.

(** [out] is [df] with the dates [ds] in its [Date] column. *)
Definition dated (df out : DataFrame) (ds : list cell) : Prop :=
  Frame.getitem out "Date" = Ok ds
  ∧ columns out = columns df
  ∧ ∀ c, c ≠ "Date" → Frame.getitem out c = Frame.getitem df c.

(** ** Sample inputs *)

Definition no_float : string → option Qc := λ _, None.

Definition no_dayfirst : list cell → result (list cell) :=
  λ _, Raise ValueError.

(** A statement of one debit. *)
Definition coffee_statement : csv :=
  mkCsv ["Date"; "Details"; "Amount"; "Debit/Credit"]
        [[VStr "31/01/2024"; VStr "COFFEE"; VNum 1; VStr "Debit"]].

(** The same statement without its [Details] column. *)
Definition statement_without_details : csv :=
  mkCsv ["Date"; "Amount"; "Debit/Credit"]
        [[VStr "31/01/2024"; VNum 1; VStr "Debit"]].

(** The user sets the category of every shown record. *)
Definition recategorize (category : string) (shown : DataFrame) : DataFrame :=
  Frame.setitem_scalar shown "Category" (VStr category).

(** Three runs: the category "Food" is added; the record is moved to
    "Food"; the record is moved back to "Uncategorized". *)
Definition session_1 : state :=
  (main no_float no_dayfirst
     (mkWidgets (Some coffee_statement) true "Food" id false)
     (new_session None)).1.

Definition session_2 : state :=
  (main no_float no_dayfirst
     (mkWidgets (Some coffee_statement) false "" (recategorize "Food") true)
     session_1).1.

Definition session_3 : state :=
  (main no_float no_dayfirst
     (mkWidgets (Some coffee_statement) false ""
        (recategorize "Uncategorized") true)
     session_2).1.


(** A snapshot in which "COFFEE SHOP" occurs twice, and an upload. *)
Definition coffee_snapshot : DataFrame :=
  mkDF ["Details"; "Category"]
       [{[ "Details" := VStr "COFFEE SHOP"; "Category" := VStr "Dining" ]};
        {[ "Details" := VStr "COFFEE SHOP"; "Category" := VStr "Travel" ]}].

Definition coffee_upload : DataFrame :=
  mkDF ["Details"]
       [{[ "Details" := VStr "COFFEE SHOP" ]};
        {[ "Details" := VStr "coffee shop" ]}].

Definition coffee_twice : DataFrame :=
  mkDF ["Details"]
       [{[ "Details" := VStr "COFFEE SHOP" ]};
        {[ "Details" := VStr "COFFEE SHOP" ]}].

(** ** Dates as text *)

Definition digit_char (n : nat) : ascii := ascii_of_nat (48 + n).

Definition two (n : nat) : list ascii :=
  [digit_char (n / 10); digit_char (n mod 10)].

Definition four (n : nat) : list ascii :=
  [digit_char (n / 1000); digit_char (n / 100 mod 10);
   digit_char (n / 10 mod 10); digit_char (n mod 10)].


(** The errors that [load_transactions] detects in an uploaded file. *)
Inductive parse_error (f : string → option Qc)
    (g : list cell → result (list cell)) (s : state) (file : csv) : Prop :=
  | MissingAmount :
      "Amount" ∉ columns (parsed file) → parse_error f g s file
  | MalformedAmount col t :
      Frame.getitem (parsed file) "Amount" = Ok col →
      VStr t ∈ col →
      f (Text.remove_commas t) = None →
      parse_error f g s file
  | MissingDate :
      "Date" ∉ columns (parsed file) → parse_error f g s file
  | MalformedDate col e :
      Frame.getitem (parsed file) "Date" = Ok col →
      to_datetime col "%d/%m/%Y" = Raise ValueError →
      to_datetime col "%d %b %Y" = Raise ValueError →
      g col = Raise e →
      parse_error f g s file
  | MissingDetails snapshot :
      "Details" ∉ columns (parsed file) →
      categorized_transactions s = Some snapshot →
      parse_error f g s file.

(** A statement whose amount is no number. *)
Definition malformed_statement : csv :=
  mkCsv ["Date"; "Details"; "Amount"; "Debit/Credit"]
        [[VStr "31/01/2024"; VStr "COFFEE"; VStr "12,5O"; VStr "Debit"]].

(** ** Further notions *)

(** The file, when it exists, holds the categories of the session. *)
Definition synced (s : state) : Prop :=
  ∀ d, category_file s = Some d → d = categories s.

(** Every keyword list of [d] is a prefix of the list under the same
    category in [d']. *)
Definition grows (d d' : dict) : Prop :=
  ∀ c kws, Dict.get c d = Ok kws →
    ∃ more, Dict.get c d' = Ok (kws ++ more).

(** Keywords are kept trimmed, non-empty and without repetition. *)
Definition clean_keywords (d : dict) : Prop :=
  ∀ c kws, (c, kws) ∈ d →
    NoDup kws ∧ ∀ k, k ∈ kws → k ≠ "" ∧ Text.strip k = k.

Definition store_clean (s : state) : Prop :=
  clean_keywords (categories s)
  ∧ ∀ d, category_file s = Some d → clean_keywords d.

(** The dataset of the session, as "Apply Changes" reads it. *)
Definition session_dataset (s : state) : DataFrame :=
  default (mkDF [] []) (debits_df s).

(** An edited table that "Apply Changes" can work through: it has the
    columns read, no more rows than the dataset of the session, text
    details, and categories that are keys of the store. *)
Definition editable (edited_df : DataFrame) (s : state) : Prop :=
  is_Some (debits_df s)
  ∧ "Category" ∈ columns edited_df
  ∧ "Details" ∈ columns edited_df
  ∧ "Category" ∈ columns (session_dataset s)
  ∧ length (rows edited_df) ≤ length (rows (session_dataset s))
  ∧ Forall (λ row : gmap string cell,
              has_text_details row
              ∧ ∃ c, row !! "Category" = Some (VStr c)
                     ∧ c ∈ Dict.keys (categories s))
           (rows edited_df).

(** The categories keyword matching can give: "Uncategorized", or a
    category of the store that is not "Uncategorized" and has keywords. *)
Definition rule_category (cats : dict) (c : string) : Prop :=
  c = "Uncategorized"
  ∨ ∃ kws, (c, kws) ∈ cats ∧ c ≠ "Uncategorized" ∧ kws ≠ [].

Definition has_rule_category (cats : dict) (r : gmap string cell) : Prop :=
  ∃ c, r !! "Category" = Some (VStr c) ∧ rule_category cats c.

(** The English abbreviation of a month, as statements print it. *)
Definition month_name (m : nat) : string :=
  default "" (["Jan"; "Feb"; "Mar"; "Apr"; "May"; "Jun";
               "Jul"; "Aug"; "Sep"; "Oct"; "Nov"; "Dec"] !! (m - 1)).

(** The text DD Mon YYYY of a date. *)
Definition dd_mon_yyyy (d : date) : string :=
  string_of_list_ascii
    (two (day d) ++ " "%char :: list_ascii_of_string (month_name (month d))
       ++ " "%char :: four (year d)).

(** What [normalize_amount] makes of one amount: a text becomes the float
    of the text without its commas, a number the nearest float, and a
    missing amount stays. *)
Definition amount_of (f : string → option Qc) (v v' : cell) : Prop :=
  match v with
  | VStr t => ∃ x, f (Text.remove_commas t) = Some x ∧ v' = VNum x
  | _ => v' = float_cell v
  end.

(** ** More sample inputs *)

(** One record with its category, as the editor shows it. *)
Definition coffee_table (category : string) : DataFrame :=
  mkDF ["Details"; "Category"]
       [<["Category" := VStr category]> {[ "Details" := VStr "COFFEE" ]}].

(** A session that holds the record under the given category. *)
Definition coffee_session (category : string) : state :=
  mkState [("Uncategorized", []); ("Food", [])] None
          (Some (coffee_table category)) None.

(** A statement that brings its own [Category] column. *)
Definition categorized_statement : csv :=
  mkCsv ["Date"; "Details"; "Amount"; "Category"]
        [[VStr "31/01/2024"; VStr "COFFEE SHOP"; VNum 1; VStr "Dining"]].

(** A statement with its header and nothing else. *)
Definition header_only : csv :=
  mkCsv ["Date"; "Details"; "Amount"; "Debit/Credit"] [].

(** A statement that does not tell debits from credits. *)
Definition undirected_statement : csv :=
  mkCsv ["Date"; "Details"; "Amount"]
        [[VStr "31/01/2024"; VStr "COFFEE"; VNum 1]].

(** The no-break space, U+00A0. *)
Definition nbsp : string := string_of_list_ascii (Text.encode 160).

(** A statement whose header is padded, also with a no-break space, and
    whose line is short of a cell. *)
Definition padded_statement : csv :=
  mkCsv [" Date"; "Details" +:+ nbsp; "Amount"]
        [[VStr "31/01/2024"; VStr "COFFEE"]].

(** A statement with the direction of its records under a padded name. *)
Definition directed_statement : csv :=
  mkCsv ["Date"; "Details"; "Amount"; "Debit/Credit" +:+ nbsp]
        [[VStr "31/01/2024"; VStr "COFFEE"; VNum 1; VStr "Debit"]].

(** A session with the category "Food" and no dataset. *)
Definition food_session : state :=
  mkState [("Uncategorized", []); ("Food", [])] None None None.

(** A conversion that knows one text. *)
Definition float_1000 (t : string) : option Qc :=
  if decide (t = "1000") then Some (Q2Qc 1000) else None.

(** * Properties *)

(** ** Loops *)

Lemma for_each_rel {A S} (R : S → S → Prop) `{!Reflexive R, !Transitive R}
    (body : A → S → result S) xs s s' :
  (∀ x a b, body x a = Ok b → R a b) →
  for_each body xs s = Ok s' → R s s'.
Proof.
  intros Hbody. revert s. induction xs as [|x xs IH]; intros s; simpl.
  - intros [= ->]. reflexivity.
  - destruct (body x s) as [s1|e] eqn:Hx; simpl; [|done].
    intros Hrest. transitivity s1; eauto.
Qed.

Lemma map_result_length {A B} (f : A → result B) l l' :
  map_result f l = Ok l' → length l' = length l.
Proof.
  revert l'. induction l as [|x l IH]; intros l'; simpl.
  - by intros [= <-].
  - destruct (f x); simpl; [|done].
    destruct (map_result f l) as [ys|]; simpl; [|done].
    intros [= <-]. simpl. f_equal. by apply IH.
Qed.

Lemma map_result_Raise {A B} (f : A → result B) l x e :
  x ∈ l → f x = Raise e → ∃ e', map_result f l = Raise e'.
Proof.
  intros Hin Hx. induction l as [|y l IH]; [by apply elem_of_nil in Hin|].
  apply elem_of_cons in Hin as [<-|Hin]; simpl.
  - rewrite Hx. eauto.
  - destruct (f y); simpl; [|eauto].
    destruct (IH Hin) as [e' ->]. eauto.
Qed.

(** ** Text *)

Module TextFacts.
Import Text.

(** *** Characters *)

Lemma chars_cons a l :
  chars (a :: l)
  = match chars l with
    | (b :: t) :: ts =>
        if is_cont b then (a :: b :: t) :: ts else [a] :: (b :: t) :: ts
    | [] :: ts => [a] :: ts
    | [] => [[a]]
    end.
Proof. reflexivity. Qed.

Lemma concat_chars l : concat (chars l) = l.
Proof.
  induction l as [|a l IH]; [done|]. rewrite chars_cons.
  destruct (chars l) as [|[|b t] ts]; cbn in IH |- *.
  - by rewrite <- IH.
  - by rewrite IH.
  - destruct (is_cont b); cbn; by rewrite <- IH.
Qed.

Lemma proper_inv t :
  proper t = true →
  ∃ a cs, t = a :: cs ∧ is_cont a = false ∧ forallb is_cont cs = true.
Proof.
  destruct t as [|a cs]; [done|]. cbn. intros H.
  apply andb_true_iff in H as [Ha Hcs]. apply negb_true_iff in Ha. eauto.
Qed.

Lemma proper_well_split ts :
  Forall (λ t, proper t = true) ts → well_split ts.
Proof.
  destruct 1 as [|t ts Ht Hts]; [done|]. split; [|done].
  destruct (proper_inv t Ht) as (a & cs & -> & _ & Hcs). eauto.
Qed.

Lemma chars_well_split l : well_split (chars l).
Proof.
  induction l as [|a l IH]; [done|]. rewrite chars_cons.
  destruct (chars l) as [|[|b t] ts].
  - split; [by exists a, []|done].
  - by destruct IH as [(? & ? & ? & _) _].
  - destruct IH as [(b' & cs & [= <- <-] & Hcs) Hts].
    destruct (is_cont b) eqn:Hb.
    + split; [|done]. exists a, (b :: t). split; [done|]. cbn.
      by rewrite Hb.
    + split; [by exists a, []|]. constructor; [|done]. cbn.
      by rewrite Hb.
Qed.

Lemma chars_character a cs rest ts :
  forallb is_cont cs = true →
  chars rest = ts →
  Forall (λ t, proper t = true) ts →
  chars (a :: cs ++ rest) = (a :: cs) :: ts.
Proof.
  intros Hcs Hrest Hts. revert a.
  induction cs as [|c cs IH]; intros a; cbn [app]; rewrite chars_cons.
  - rewrite Hrest. destruct Hts as [|t ts Ht Hts]; [done|].
    destruct (proper_inv t Ht) as (b & bs & -> & Hb & _). by rewrite Hb.
  - cbn in Hcs. apply andb_true_iff in Hcs as [Hc Hcs].
    rewrite (IH Hcs c). by rewrite Hc.
Qed.

Lemma chars_concat_proper ts :
  Forall (λ t, proper t = true) ts → chars (concat ts) = ts.
Proof.
  induction 1 as [|t ts Ht Hts IH]; [done|].
  destruct (proper_inv t Ht) as (a & cs & -> & _ & Hcs). cbn [concat].
  rewrite <- app_comm_cons. by apply chars_character.
Qed.

Lemma chars_concat ts : well_split ts → chars (concat ts) = ts.
Proof.
  destruct ts as [|t ts]; [done|]. intros [(a & cs & -> & Hcs) Hts].
  cbn [concat]. rewrite <- app_comm_cons.
  apply chars_character; [done| |done]. by apply chars_concat_proper.
Qed.

Lemma chars_ascii l :
  Forall (λ a, is_cont a = false) l → chars l = (λ a, [a]) <$> l.
Proof.
  induction 1 as [|a l Ha Hl IH]; [done|]. rewrite chars_cons, IH.
  destruct Hl as [|b l Hb _]; [done|]. cbn. by rewrite Hb.
Qed.

Lemma well_split_app_l x y : well_split (x ++ y) → well_split x.
Proof.
  destruct x as [|t x]; [done|]. intros [Ht Hx]. split; [done|].
  by apply Forall_app in Hx as [Hx _].
Qed.

Lemma well_split_app_r x y : well_split (x ++ y) → well_split y.
Proof.
  destruct x as [|t x]; [done|]. intros [_ Hx].
  apply Forall_app in Hx as [_ Hy]. by apply proper_well_split.
Qed.

(** *** Trimming *)

Lemma lstrip_fixed l : starts_clean l → lstrip_chars l = l.
Proof. destruct l as [|a l]; simpl; [done|]. by intros ->. Qed.

Lemma lstrip_clean l : starts_clean (lstrip_chars l).
Proof.
  induction l as [|a l IH]; simpl; [done|].
  destruct (isspace a) eqn:E; [done|]. simpl. exact E.
Qed.

Lemma lstrip_snoc l a :
  isspace a = false → lstrip_chars (l ++ [a]) = lstrip_chars l ++ [a].
Proof.
  intros Ha. induction l as [|b l IH]; simpl.
  - by rewrite Ha.
  - by destruct (isspace b).
Qed.

Lemma rstrip_fixed l : starts_clean (rev l) → rstrip_chars l = l.
Proof.
  intros H. unfold rstrip_chars. by rewrite lstrip_fixed, rev_involutive.
Qed.

Lemma rstrip_clean l : starts_clean (rev (rstrip_chars l)).
Proof. unfold rstrip_chars. rewrite rev_involutive. apply lstrip_clean. Qed.

Lemma rstrip_keeps_start l : starts_clean l → starts_clean (rstrip_chars l).
Proof.
  destruct l as [|a l]; [done|]. simpl. intros Ha.
  unfold rstrip_chars. simpl. by rewrite lstrip_snoc, rev_app_distr.
Qed.

Lemma lstrip_spaces w l :
  Forall (λ t, isspace t = true) w → lstrip_chars (w ++ l) = lstrip_chars l.
Proof. induction 1 as [|t w Ht _ IH]; [done|]. cbn. by rewrite Ht. Qed.

Lemma lstrip_split l :
  ∃ w, l = w ++ lstrip_chars l ∧ Forall (λ t, isspace t = true) w.
Proof.
  induction l as [|t l (w & Hl & Hw)]; [by exists []|]. cbn.
  destruct (isspace t) eqn:Ht; [|by exists []].
  exists (t :: w). split; [by rewrite <- app_comm_cons, <- Hl|].
  by constructor.
Qed.

Lemma rstrip_split l :
  ∃ w, l = rstrip_chars l ++ w ∧ Forall (λ t, isspace t = true) w.
Proof.
  destruct (lstrip_split (rev l)) as (w & Hl & Hw). exists (rev w). split.
  - unfold rstrip_chars. rewrite <- rev_app_distr, <- Hl.
    by rewrite rev_involutive.
  - by apply Forall_rev.
Qed.

(** A text is its trimmed text between two runs of white space. *)
Lemma strip_split l :
  ∃ w1 w2,
    l = w1 ++ strip_chars l ++ w2
    ∧ Forall (λ t, isspace t = true) w1
    ∧ Forall (λ t, isspace t = true) w2
    ∧ starts_clean (strip_chars l)
    ∧ starts_clean (rev (strip_chars l)).
Proof.
  destruct (lstrip_split l) as (w1 & Hl & Hw1).
  destruct (rstrip_split (lstrip_chars l)) as (w2 & Hr & Hw2).
  exists w1, w2. unfold strip_chars. rewrite <- Hr.
  split; [done|]. split; [done|]. split; [done|]. split.
  - apply rstrip_keeps_start, lstrip_clean.
  - apply rstrip_clean.
Qed.

Lemma strip_between w1 m w2 :
  Forall (λ t, isspace t = true) w1 →
  Forall (λ t, isspace t = true) w2 →
  starts_clean m → starts_clean (rev m) →
  strip_chars (w1 ++ m ++ w2) = m.
Proof.
  intros Hw1 Hw2 Hm Hr. unfold strip_chars. rewrite lstrip_spaces by done.
  destruct m as [|t m].
  - cbn [app]. rewrite <- (app_nil_r w2), lstrip_spaces by done. done.
  - rewrite lstrip_fixed by done. unfold rstrip_chars.
    rewrite rev_app_distr, lstrip_spaces by (by apply Forall_rev).
    by rewrite lstrip_fixed, rev_involutive.
Qed.

Lemma strip_chars_idemp l : strip_chars (strip_chars l) = strip_chars l.
Proof.
  destruct (strip_split l) as (_ & _ & _ & _ & _ & Hs & Hr).
  rewrite <- (app_nil_r (strip_chars l)) at 1.
  by apply (strip_between []).
Qed.

Lemma strip_chars_well_split l : well_split l → well_split (strip_chars l).
Proof.
  intros Hl. destruct (strip_split l) as (w1 & w2 & Heq & _).
  rewrite Heq in Hl.
  by apply well_split_app_r, well_split_app_l in Hl.
Qed.

Lemma chars_strip s :
  chars (list_ascii_of_string (strip s))
  = strip_chars (chars (list_ascii_of_string s)).
Proof.
  unfold strip. rewrite list_ascii_of_string_of_list_ascii.
  apply chars_concat, strip_chars_well_split, chars_well_split.
Qed.

Lemma strip_idemp s : strip (strip s) = strip s.
Proof. unfold strip at 1. by rewrite chars_strip, strip_chars_idemp. Qed.

(** *** Lower case *)

Lemma elem_of_forallb {A} (f : A → bool) (l : list A) x :
  forallb f l = true → x ∈ l → f x = true.
Proof.
  intros Hl Hx. apply list_elem_of_In in Hx.
  by apply (proj1 (forallb_forall f l) Hl).
Qed.

Lemma isspace_inv t :
  isspace t = true → ∃ c, decode t = Some c ∧ c ∈ space_points.
Proof.
  unfold isspace. destruct (decode t) as [c|]; [|done].
  intros H. apply bool_decide_eq_true in H. eauto.
Qed.

(** White space has one case, and the rule of the final sigma does not
    see it as a letter. *)
Lemma space_point_plain c :
  c ∈ space_points →
  (c =? 931)%Z = false ∧ lower_point c = None
  ∧ in_ranges c case_ignorable_points = false
  ∧ in_ranges c cased_points = false.
Proof.
  intros Hc.
  assert (forallb (λ c, negb (c =? 931)%Z
                        && bool_decide (lower_point c = None)
                        && negb (in_ranges c case_ignorable_points)
                        && negb (in_ranges c cased_points))
            space_points = true) as Hall by (by vm_compute).
  apply (elem_of_forallb _ _ c Hall) in Hc.
  apply andb_true_iff in Hc as [Hc H4]. apply andb_true_iff in Hc as [Hc H3].
  apply andb_true_iff in Hc as [H1 H2].
  apply negb_true_iff in H1, H3, H4. apply bool_decide_eq_true in H2.
  done.
Qed.

Lemma lower_char_space before after t :
  isspace t = true → lower_char before after t = [t].
Proof.
  intros Ht. destruct (isspace_inv t Ht) as (c & Hd & Hc).
  destruct (space_point_plain c Hc) as (Hs & Hl & _).
  unfold lower_char. by rewrite Hd, Hs, Hl.
Qed.

Lemma space_not_ignorable t : isspace t = true → case_ignorable t = false.
Proof.
  intros Ht. destruct (isspace_inv t Ht) as (c & Hd & Hc).
  destruct (space_point_plain c Hc) as (_ & _ & Hi & _).
  unfold case_ignorable. by rewrite Hd.
Qed.

Lemma space_not_cased t : isspace t = true → cased t = false.
Proof.
  intros Ht. destruct (isspace_inv t Ht) as (c & Hd & Hc).
  destruct (space_point_plain c Hc) as (_ & _ & _ & Hi).
  unfold cased. by rewrite Hd.
Qed.

Lemma lower_point_letters c l :
  lower_point c = Some l → l ≠ [] ∧ Forall (λ x, letter x = true) l.
Proof.
  unfold lower_point. destruct (c =? 304)%Z.
  { intros [= <-]. split; [done|]. by repeat constructor. }
  destruct (find _ lower_runs) as [[[[lo hi] step] target]|] eqn:Hfind;
    [|done].
  intros [= <-]. split; [done|]. constructor; [|done].
  apply find_some in Hfind as [Hin Hc].
  apply andb_true_iff in Hc as [Hc _]. apply andb_true_iff in Hc as [Hlo Hhi].
  apply Z.leb_le in Hlo, Hhi.
  assert (forallb (λ '(lo, hi, _, target),
                     forallb (λ k, letter (target + k))
                             (seqZ 0 (hi - lo + 1)))
            lower_runs = true) as Hall by (by vm_compute).
  apply (proj1 (forallb_forall _ _) Hall) in Hin.
  apply (elem_of_forallb _ _ (c - lo)%Z Hin).
  apply elem_of_seqZ. lia.
Qed.

Lemma lower_char_cases before after t :
  lower_char before after t = [t]
  ∨ (lower_char before after t ≠ []
     ∧ Forall (λ t', proper t' = true ∧ isspace t' = false)
              (lower_char before after t)).
Proof.
  unfold lower_char. destruct (decode t) as [c|]; [|by left].
  destruct (c =? 931)%Z.
  { right. split; [done|]. by destruct (final_sigma _ _); repeat constructor. }
  destruct (lower_point c) as [l|] eqn:Hl; [|by left].
  right. apply lower_point_letters in Hl as [Hne Hl]. split.
  - by destruct l.
  - apply Forall_fmap. eapply Forall_impl; [exact Hl|].
    intros x Hx. unfold letter in Hx.
    apply andb_true_iff in Hx as [? Hx]. by apply negb_true_iff in Hx.
Qed.

Lemma lower_char_clean before after t :
  isspace t = false →
  lower_char before after t ≠ []
  ∧ Forall (λ t', isspace t' = false) (lower_char before after t).
Proof.
  intros Ht. destruct (lower_char_cases before after t) as [->|[Hne Hall]].
  - split; [done|]. by constructor.
  - split; [done|]. eapply Forall_impl; [exact Hall|]. by intros ? [_ ?].
Qed.

Lemma lower_chars_app before x y after :
  lower_chars before (x ++ y) after
  = lower_chars before x (y ++ after)
    ++ lower_chars (rev x ++ before) y after.
Proof.
  revert before. induction x as [|t x IH]; intros before; [done|].
  cbn [app lower_chars rev]. rewrite IH, <- !app_assoc. done.
Qed.

Lemma lower_chars_spaces before w after :
  Forall (λ t, isspace t = true) w → lower_chars before w after = w.
Proof.
  intros Hw. revert before.
  induction Hw as [|t w Ht _ IH]; intros before; [done|]. cbn.
  by rewrite lower_char_space, IH.
Qed.

Lemma skip_ignorable_pad l w :
  Forall (λ t, isspace t = true) w →
  (∃ t r, skip_ignorable l = t :: r ∧ skip_ignorable (l ++ w) = t :: r ++ w)
  ∨ (skip_ignorable l = [] ∧ skip_ignorable (l ++ w) = w).
Proof.
  intros Hw. induction l as [|t l IH]; cbn.
  - right. split; [done|]. destruct Hw as [|t w Ht _]; [done|]. cbn.
    by rewrite space_not_ignorable.
  - destruct (case_ignorable t); [done|]. left. by exists t, l.
Qed.

Lemma final_sigma_pad before after w w' :
  Forall (λ t, isspace t = true) w →
  Forall (λ t, isspace t = true) w' →
  final_sigma (before ++ w) (after ++ w') = final_sigma before after.
Proof.
  intros Hw Hw'. unfold final_sigma. f_equal.
  - destruct (skip_ignorable_pad before w Hw)
      as [(t & r & -> & ->)|[-> ->]]; [done|].
    destruct Hw as [|t w Ht _]; [done|]. by apply space_not_cased.
  - destruct (skip_ignorable_pad after w' Hw')
      as [(t & r & -> & ->)|[-> ->]]; [done|].
    destruct Hw' as [|t w' Ht _]; [done|]. by rewrite space_not_cased.
Qed.

Lemma lower_char_pad before after w w' t :
  Forall (λ t, isspace t = true) w →
  Forall (λ t, isspace t = true) w' →
  lower_char (before ++ w) (after ++ w') t = lower_char before after t.
Proof.
  intros Hw Hw'. unfold lower_char. by rewrite final_sigma_pad.
Qed.

Lemma lower_chars_pad before l after w w' :
  Forall (λ t, isspace t = true) w →
  Forall (λ t, isspace t = true) w' →
  lower_chars (before ++ w) l (after ++ w') = lower_chars before l after.
Proof.
  intros Hw Hw'. revert before.
  induction l as [|t l IH]; intros before; [done|]. cbn [lower_chars].
  rewrite app_assoc, lower_char_pad by done.
  by rewrite (app_comm_cons before w t), IH.
Qed.

Lemma lower_chars_starts_clean before l after :
  starts_clean l → starts_clean (lower_chars before l after).
Proof.
  destruct l as [|t l]; [done|]. cbn. intros Ht.
  destruct (lower_char_clean before (l ++ after) t Ht) as [Hne Hall].
  destruct (lower_char _ _ t) as [|t' r]; [done|].
  by apply Forall_cons in Hall as [? _].
Qed.

Lemma lower_chars_ends_clean before l after :
  starts_clean (rev l) → starts_clean (rev (lower_chars before l after)).
Proof.
  destruct l as [|t l _] using rev_ind; [done|].
  rewrite rev_app_distr. cbn. intros Ht.
  rewrite lower_chars_app, rev_app_distr. cbn [lower_chars].
  rewrite app_nil_r.
  destruct (lower_char_clean (rev l ++ before) ([] ++ after) t Ht)
    as [Hne Hall].
  destruct (lower_char _ _ t) as [|t' r _] using rev_ind; [done|].
  rewrite rev_app_distr. cbn.
  apply Forall_app in Hall as [_ Hall]. by inversion Hall.
Qed.

(** Lower case and trimming commute. *)
Lemma strip_chars_lower l :
  strip_chars (lower_chars [] l []) = lower_chars [] (strip_chars l) [].
Proof.
  destruct (strip_split l) as (w1 & w2 & Heq & Hw1 & Hw2 & Hs & Hr).
  rewrite Heq at 1. rewrite !lower_chars_app, !app_nil_r.
  rewrite (lower_chars_spaces _ w1), (lower_chars_spaces _ w2) by done.
  rewrite (lower_chars_pad [] _ [] (rev w1) w2)
    by (done || by apply Forall_rev).
  apply strip_between; [done | done | |].
  - by apply lower_chars_starts_clean.
  - by apply lower_chars_ends_clean.
Qed.

Lemma lower_chars_proper before l after :
  Forall (λ t, proper t = true) l →
  Forall (λ t, proper t = true) (lower_chars before l after).
Proof.
  intros Hl. revert before.
  induction Hl as [|t l Ht _ IH]; intros before; [done|]. cbn.
  apply Forall_app. split; [|apply IH].
  destruct (lower_char_cases before (l ++ after) t) as [->|[_ Hall]].
  - by constructor.
  - eapply Forall_impl; [exact Hall|]. by intros ? [? _].
Qed.

Lemma lower_chars_well_split before l after :
  well_split l → well_split (lower_chars before l after).
Proof.
  destruct l as [|t l]; [done|]. intros [Ht Hl]. cbn.
  pose proof (lower_chars_proper (t :: before) l after Hl) as Hrest.
  destruct (lower_char_cases before (l ++ after) t) as [->|[Hne Hall]].
  - by split.
  - apply proper_well_split, Forall_app. split; [|done].
    eapply Forall_impl; [exact Hall|]. by intros ? [? _].
Qed.

Lemma chars_lower s :
  chars (list_ascii_of_string (lower s))
  = lower_chars [] (chars (list_ascii_of_string s)) [].
Proof.
  unfold lower. rewrite list_ascii_of_string_of_list_ascii.
  apply chars_concat, lower_chars_well_split, chars_well_split.
Qed.

Lemma lower_strip s : lower (strip s) = strip (lower s).
Proof.
  unfold lower at 1, strip at 2.
  by rewrite chars_strip, chars_lower, strip_chars_lower.
Qed.

End TextFacts.

(** A keyword is stored trimmed, and trimming does not change what it
    matches. *)
Lemma normalize_strip k : normalize (Text.strip k) = normalize k.
Proof.
  unfold normalize.
  by rewrite TextFacts.lower_strip, TextFacts.strip_idemp.
Qed.

(** ** Keyword classification *)

Global Instance same_but_category_refl : Reflexive same_but_category.
Proof. by intros r c _. Qed.

Global Instance same_but_category_trans : Transitive same_but_category.
Proof. intros r1 r2 r3 H12 H23 c Hc. by rewrite H23, H12. Qed.

Lemma same_but_category_insert r v :
  same_but_category r (<["Category" := v]> r).
Proof. intros c Hc. by rewrite lookup_insert_ne. Qed.

Global Instance frame_rel_refl : Reflexive frame_rel.
Proof. intros df. split; reflexivity. Qed.

Global Instance frame_rel_trans : Transitive frame_rel.
Proof.
  intros d1 d2 d3 [Hc12 Hr12] [Hc23 Hr23]. split; [congruence|].
  by etransitivity.
Qed.

Lemma categorize_row_frame category lowered it df df' :
  categorize_row category lowered it df = Ok df' → frame_rel df df'.
Proof.
  destruct it as [idx row]. unfold categorize_row.
  destruct (Frame.row_get df row "Details") as [v|]; simpl; [|done].
  destruct (as_str v) as [s|]; simpl; [|done].
  case_bool_decide; intros [= <-]; [|reflexivity].
  split; [done|]. simpl. apply Forall2_alter_r; [reflexivity|].
  intros x y _ _ Hxy. etransitivity; [exact Hxy|].
  apply same_but_category_insert.
Qed.

Lemma categorize_category_frame item df df' :
  categorize_category item df = Ok df' → frame_rel df df'.
Proof.
  destruct item as [category keywords]. unfold categorize_category.
  destruct (_ || _).
  - intros [= <-]. reflexivity.
  - apply for_each_rel; [apply _ ..|].
    intros x a b. apply categorize_row_frame.
Qed.

Lemma categorize_transactions_frame cats df out :
  categorize_transactions cats df = Ok out →
  columns out = Frame.add_column "Category" (columns df)
  ∧ Forall2 same_but_category (rows df) (rows out).
Proof.
  unfold categorize_transactions. intros Hloop.
  apply (for_each_rel frame_rel) in Hloop as [Hcols Hrows];
    [|intros x a b; apply categorize_category_frame].
  split; [done|]. simpl in Hrows.
  etransitivity; [|exact Hrows].
  apply Forall2_fmap_r, Forall_Forall2_diag, Forall_forall.
  intros r _. apply same_but_category_insert.
Qed.

Lemma details_text_insert r v :
  details_text (<["Category" := v]> r) = details_text r.
Proof. unfold details_text. by rewrite lookup_insert_ne. Qed.

Lemma has_text_details_insert r v :
  has_text_details r → has_text_details (<["Category" := v]> r).
Proof. intros [s Hs]. exists s. by rewrite lookup_insert_ne. Qed.

Lemma has_text_details_relabel_item item r :
  has_text_details r → has_text_details (relabel_item item r).
Proof.
  intros Hr. unfold relabel_item.
  destruct (_ && _); [by apply has_text_details_insert | done].
Qed.

Lemma categorize_row_text category lowered idx r df s :
  "Details" ∈ columns df →
  r !! "Details" = Some (VStr s) →
  categorize_row category lowered (idx, r) df
  = Ok (if bool_decide (normalize s ∈ lowered)
        then Frame.at_set df idx "Category" (VStr category) else df).
Proof.
  intros Hcol Hs. unfold categorize_row, Frame.row_get.
  rewrite decide_True by done. rewrite Hs. cbn.
  by case_bool_decide.
Qed.

Lemma inner_loop cols category lowered pre post :
  "Details" ∈ cols →
  Forall has_text_details post →
  for_each (categorize_row category lowered)
           (zip (seq (length pre) (length post)) post)
           (mkDF cols (pre ++ post))
  = Ok (mkDF cols (pre ++ (relabel category lowered <$> post))).
Proof.
  intros Hcol Hpost. revert pre.
  induction Hpost as [|r post [s Hs] _ IH]; intros pre; [done|].
  cbn [length seq zip zip_with for_each fmap list_fmap].
  rewrite (categorize_row_text _ _ _ _ _ s) by done. cbn [mbind result_bind].
  assert (details_text r = s) as Ht by (unfold details_text; by rewrite Hs).
  specialize (IH (pre ++ [relabel category lowered r])).
  rewrite length_app, Nat.add_1_r, <- !app_assoc in IH. cbn [app] in IH.
  rewrite <- IH. f_equal.
  unfold relabel. rewrite Ht. case_bool_decide; [|done].
  unfold Frame.at_set. cbn [columns rows]. f_equal.
  replace (length pre) with (length pre + 0) at 1 by lia.
  by rewrite alter_app_r.
Qed.

Lemma categorize_category_spec item df :
  "Details" ∈ columns df →
  Forall has_text_details (rows df) →
  categorize_category item df
  = Ok (mkDF (columns df) (relabel_item item <$> rows df)).
Proof.
  intros Hcol Hrows. destruct item as [category keywords].
  destruct df as [cols rs]. cbn [columns rows] in *.
  unfold categorize_category, relabel_item, eligible. cbn [fst snd].
  rewrite <- negb_orb.
  destruct (_ || _); cbn [negb andb].
  - by rewrite list_fmap_id.
  - unfold Frame.iterrows. cbn [rows].
    apply (inner_loop cols category (normalize <$> keywords) [] rs Hcol Hrows).
Qed.

Lemma outer_loop cats df :
  "Details" ∈ columns df →
  Forall has_text_details (rows df) →
  for_each categorize_category cats df
  = Ok (mkDF (columns df)
          ((λ r, foldl (flip relabel_item) r cats) <$> rows df)).
Proof.
  revert df. induction cats as [|item cats IH]; intros df Hcol Hrows.
  - cbn. rewrite list_fmap_id. by destruct df.
  - cbn [for_each]. rewrite categorize_category_spec by done. cbn.
    rewrite IH; cbn [columns rows]; [|done|].
    + by rewrite <- list_fmap_compose.
    + apply Forall_fmap. eapply Forall_impl; [exact Hrows|].
      intros r. apply has_text_details_relabel_item.
Qed.

Lemma matching_categories_cons item cats details :
  matching_categories (item :: cats) details
  = if eligible item && keyword_match item.2 details
    then item.1 :: matching_categories cats details
    else matching_categories cats details.
Proof.
  unfold matching_categories.
  destruct (eligible item && keyword_match item.2 details) eqn:E.
  - rewrite filter_cons_True; [done|]. by rewrite E.
  - rewrite filter_cons_False; [done|]. rewrite E. exact id.
Qed.

Lemma relabel_fold cats r c0 :
  foldl (flip relabel_item) (<["Category" := VStr c0]> r) cats
  = <["Category" :=
        VStr (default c0 (last (matching_categories cats (details_text r))))]>
      r.
Proof.
  revert c0. induction cats as [|item cats IH]; intros c0; [done|].
  cbn [foldl flip]. rewrite matching_categories_cons.
  unfold relabel_item at 2. rewrite details_text_insert.
  destruct (_ && _).
  - rewrite insert_insert_eq, IH. f_equal. f_equal.
    rewrite last_cons. by destruct (last _).
  - apply IH.
Qed.

(** On records with text details the classifier returns, and relabels
    every record with [keyword_category]. *)
Lemma categorize_transactions_spec cats df :
  "Details" ∈ columns df →
  Forall has_text_details (rows df) →
  categorize_transactions cats df
  = Ok (mkDF (Frame.add_column "Category" (columns df))
          ((λ r, <["Category" :=
                     VStr (keyword_category cats (details_text r))]> r)
             <$> rows df)).
Proof.
  intros Hcol Hrows. unfold categorize_transactions.
  rewrite outer_loop; cbn [Frame.setitem_scalar columns rows].
  - f_equal. f_equal. rewrite <- list_fmap_compose.
    apply list_fmap_ext. intros i r _. cbn. apply relabel_fold.
  - unfold Frame.add_column. case_decide; [done|]. set_solver.
  - apply Forall_fmap. eapply Forall_impl; [exact Hrows|].
    intros r. apply has_text_details_insert.
Qed.

Lemma matching_categories_app l1 l2 details :
  matching_categories (l1 ++ l2) details
  = matching_categories l1 details ++ matching_categories l2 details.
Proof. unfold matching_categories. by rewrite filter_app, fmap_app. Qed.

Lemma matching_categories_nil cats details :
  (∀ c kws, (c, kws) ∈ cats → c ≠ "Uncategorized" →
     normalize details ∉ normalize <$> kws) →
  matching_categories cats details = [].
Proof.
  induction cats as [|[c kws] cats IH]; intros Hno; [done|].
  rewrite matching_categories_cons, IH.
  - destruct (eligible (c, kws)) eqn:He; [|done]. cbn.
    unfold keyword_match. rewrite bool_decide_eq_false_2; [done|].
    apply (Hno c kws); [left|].
    unfold eligible in He. cbn in He.
    apply andb_true_iff in He as [He _].
    by apply negb_true_iff, bool_decide_eq_false in He.
  - intros c' kws' Hin. apply Hno. by right.
Qed.

Lemma keyword_category_last pre c kws post details :
  c ≠ "Uncategorized" →
  normalize details ∈ normalize <$> kws →
  (∀ c' kws', (c', kws') ∈ post → c' ≠ "Uncategorized" →
     normalize details ∉ normalize <$> kws') →
  keyword_category (pre ++ (c, kws) :: post) details = c.
Proof.
  intros Hc Hin Hpost. unfold keyword_category.
  rewrite matching_categories_app, matching_categories_cons.
  rewrite (matching_categories_nil post) by done.
  assert (eligible (c, kws) && keyword_match (c, kws).2 details = true) as ->.
  { unfold eligible, keyword_match. cbn.
    rewrite bool_decide_eq_false_2 by done.
    rewrite (bool_decide_eq_false_2 (kws = [])).
    - by rewrite bool_decide_eq_true_2.
    - intros ->. by apply elem_of_nil in Hin. }
  cbn. by rewrite last_snoc.
Qed.

Lemma keyword_category_none cats details :
  (∀ c kws, (c, kws) ∈ cats → c ≠ "Uncategorized" →
     normalize details ∉ normalize <$> kws) →
  keyword_category cats details = "Uncategorized".
Proof.
  intros Hno. unfold keyword_category.
  by rewrite matching_categories_nil.
Qed.

Lemma categorize_row_not_text category lowered idx r df :
  "Details" ∈ columns df →
  ¬ has_text_details r →
  categorize_row category lowered (idx, r) df = Raise AttributeError.
Proof.
  intros Hcol Hr. unfold categorize_row, Frame.row_get.
  rewrite decide_True by done.
  destruct (r !! "Details") as [[t| | |]|] eqn:Ht; try done.
  destruct Hr. by exists t.
Qed.

Lemma inner_loop_not_text category lowered its df :
  "Details" ∈ columns df →
  Exists (λ it : nat * gmap string cell, ¬ has_text_details it.2) its →
  for_each (categorize_row category lowered) its df = Raise AttributeError.
Proof.
  intros Hcol Hex. revert df Hcol.
  induction its as [|[idx r] its IH]; intros df Hcol; [by inversion Hex|].
  cbn [for_each].
  destruct (r !! "Details") as [[t| | |]|] eqn:Ht.
  - rewrite (categorize_row_text _ _ _ _ _ t) by done. cbn [mbind result_bind].
    apply IH.
    + apply Exists_cons in Hex as [Hex|Hex]; [|done].
      destruct Hex. by exists t.
    + by case_bool_decide.
  - rewrite categorize_row_not_text; [done | done |]. intros [t Hs]. congruence.
  - rewrite categorize_row_not_text; [done | done |]. intros [t Hs]. congruence.
  - rewrite categorize_row_not_text; [done | done |]. intros [t Hs]. congruence.
  - rewrite categorize_row_not_text; [done | done |]. intros [t Hs]. congruence.
Qed.

Lemma iterrows_not_text k (rs : list (gmap string cell)) :
  Exists (λ r, ¬ has_text_details r) rs →
  Exists (λ it : nat * gmap string cell, ¬ has_text_details it.2)
         (zip (seq k (length rs)) rs).
Proof.
  intros Hex. revert k. induction Hex as [r rs Hr|r rs _ IH]; intros k; cbn.
  - by apply Exists_cons_hd.
  - apply Exists_cons_tl, IH.
Qed.

Lemma categorize_category_not_text item df :
  "Details" ∈ columns df →
  eligible item = true →
  Exists (λ r, ¬ has_text_details r) (rows df) →
  categorize_category item df = Raise AttributeError.
Proof.
  intros Hcol Hel Hex. destruct item as [category keywords].
  unfold categorize_category. unfold eligible in Hel. cbn [fst snd] in Hel.
  rewrite <- negb_orb in Hel. apply negb_true_iff in Hel. rewrite Hel.
  apply inner_loop_not_text; [done|]. by apply iterrows_not_text.
Qed.

Lemma outer_loop_not_text cats df :
  "Details" ∈ columns df →
  Exists (λ r, ¬ has_text_details r) (rows df) →
  Exists (λ item, eligible item = true) cats →
  for_each categorize_category cats df = Raise AttributeError.
Proof.
  intros Hcol Hrows Hcats.
  induction cats as [|item cats IH]; [by inversion Hcats|].
  cbn [for_each]. destruct (eligible item) eqn:Hel.
  - by rewrite categorize_category_not_text.
  - assert (categorize_category item df = Ok df) as ->.
    { destruct item as [category keywords].
      unfold categorize_category. unfold eligible in Hel. cbn [fst snd] in Hel.
      rewrite <- negb_orb in Hel. apply negb_false_iff in Hel.
      by rewrite Hel. }
    cbn [mbind result_bind]. apply IH.
    apply Exists_cons in Hcats as [Hcats|Hcats]; [congruence | done].
Qed.

(** A record without text details stops the classifier as soon as a
    category takes part in the matching. *)
Lemma categorize_transactions_not_text cats df r c kws :
  "Details" ∈ columns df →
  r ∈ rows df → ¬ has_text_details r →
  (c, kws) ∈ cats → c ≠ "Uncategorized" → kws ≠ [] →
  categorize_transactions cats df = Raise AttributeError.
Proof.
  intros Hcol Hr Hnot Hin Hc Hkws. unfold categorize_transactions.
  apply outer_loop_not_text.
  - cbn. unfold Frame.add_column. case_decide; [done|]. set_solver.
  - cbn [Frame.setitem_scalar rows]. apply Exists_exists.
    exists (<["Category" := VStr "Uncategorized"]> r). split.
    + by apply list_elem_of_fmap_2.
    + intros [t Ht]. apply Hnot. exists t.
      by rewrite lookup_insert_ne in Ht.
  - apply Exists_exists. exists (c, kws). split; [done|].
    unfold eligible. cbn.
    by rewrite !bool_decide_eq_false_2.
Qed.

(** C3. Keyword matching mode: on a dataset whose records have text
    details the classifier returns a dataset of the same length in which
    record [i] carries the last category, in the iteration order of the
    dictionary, among those other than "Uncategorized" one of whose
    normalised keywords equals the record's normalised details; a record
    that no keyword matches keeps "Uncategorized".  A record whose
    details are no text has nothing to normalise: when a category other
    than "Uncategorized" has keywords, the classifier stops at it with
    [AttributeError]. *)
Theorem keyword_mode_last_match_wins (cats : dict) (df : DataFrame) :
  "Details" ∈ columns df →
  (Forall has_text_details (rows df) →
   ∃ out,
     categorize_transactions cats df = Ok out
     ∧ length (rows out) = length (rows df)
     ∧ ∀ i r, rows df !! i = Some r →
         ∃ r', rows out !! i = Some r'
           ∧ r' !! "Category"
             = Some (VStr (keyword_category cats (details_text r)))
           ∧ (∀ pre c kws post,
                cats = pre ++ (c, kws) :: post →
                c ≠ "Uncategorized" →
                normalize (details_text r) ∈ normalize <$> kws →
                (∀ c' kws', (c', kws') ∈ post → c' ≠ "Uncategorized" →
                   normalize (details_text r) ∉ normalize <$> kws') →
                r' !! "Category" = Some (VStr c))
           ∧ ((∀ c kws, (c, kws) ∈ cats → c ≠ "Uncategorized" →
                 normalize (details_text r) ∉ normalize <$> kws) →
              r' !! "Category" = Some (VStr "Uncategorized")))
  ∧ (∀ r c kws,
       r ∈ rows df → ¬ has_text_details r →
       (c, kws) ∈ cats → c ≠ "Uncategorized" → kws ≠ [] →
       categorize_transactions cats df = Raise AttributeError).
Proof.
  intros Hcol. split.
  - intros Hrows. eexists.
    split; [by apply categorize_transactions_spec|].
    cbn [rows]. split; [by rewrite length_fmap|].
    intros i r Hi. eexists. split; [by rewrite list_lookup_fmap, Hi|].
    rewrite lookup_insert_eq. split; [done|]. split.
    + intros pre c kws post -> Hc Hin Hpost.
      by rewrite keyword_category_last.
    + intros Hno. by rewrite keyword_category_none.
  - intros r c kws. by apply categorize_transactions_not_text.
Qed.

Lemma keyword_mode_last_match_wins_witness :
  (∃ out,
     categorize_transactions
       [("Uncategorized", ["rent"]); ("Food", ["café shop"]);
        ("Fun", [" CAFÉ Shop" +:+ nbsp]); ("Home", ["Cafe Shop"])]
       (mkDF ["Details"]
          [{[ "Details" := VStr (nbsp +:+ "Café SHOP ") ]};
           {[ "Details" := VStr "Rent" ]}])
     = Ok out
     ∧ (λ r : gmap string cell, r !! "Category") <$> rows out
       = [Some (VStr "Fun"); Some (VStr "Uncategorized")])
  ∧ categorize_transactions
      [("Uncategorized", ["rent"]); ("Food", ["café shop"])]
      (mkDF ["Details"]
         [{[ "Details" := VStr "Rent" ]}; {[ "Details" := VNaN ]}])
    = Raise AttributeError.
Proof.
  split.
  - destruct (keyword_mode_last_match_wins
                [("Uncategorized", ["rent"]); ("Food", ["café shop"]);
                 ("Fun", [" CAFÉ Shop" +:+ nbsp]); ("Home", ["Cafe Shop"])]
                (mkDF ["Details"]
                   [{[ "Details" := VStr (nbsp +:+ "Café SHOP ") ]};
                    {[ "Details" := VStr "Rent" ]}]))
      as [Htext _].
    + cbn. apply list_elem_of_here.
    + destruct Htext as (out & Hout & _).
      * repeat constructor; eexists; apply lookup_singleton_eq.
      * exists out. split; [exact Hout|].
        vm_compute in Hout. injection Hout as <-. vm_compute. reflexivity.
  - destruct (keyword_mode_last_match_wins
                [("Uncategorized", ["rent"]); ("Food", ["café shop"])]
                (mkDF ["Details"]
                   [{[ "Details" := VStr "Rent" ]}; {[ "Details" := VNaN ]}]))
      as [_ Hraise].
    + cbn. apply list_elem_of_here.
    + apply (Hraise {[ "Details" := VNaN ]} "Food" ["café shop"]).
      * apply list_elem_of_further, list_elem_of_here.
      * intros [t Ht]. rewrite lookup_singleton_eq in Ht. discriminate.
      * apply list_elem_of_further, list_elem_of_here.
      * discriminate.
      * discriminate.
Defined.

(** C10. Keyword classification only relabels: it returns on every
    dataset whose records have text details, and whenever it returns, the
    output has the records of the input in the same number and order, and
    every column other than [Category] is the column of the input. *)
Theorem keyword_mode_frame (cats : dict) (df : DataFrame) :
  ("Details" ∈ columns df → Forall has_text_details (rows df) →
   ∃ out, categorize_transactions cats df = Ok out)
  ∧ ∀ out, categorize_transactions cats df = Ok out →
      length (rows out) = length (rows df)
      ∧ (∀ c, c ≠ "Category" → Frame.getitem out c = Frame.getitem df c)
      ∧ ∀ i r, rows df !! i = Some r →
          ∃ r', rows out !! i = Some r'
            ∧ ∀ c, c ≠ "Category" → r' !! c = r !! c.
Proof.
  split.
  { intros Hcol Hrows. eexists. by apply categorize_transactions_spec. }
  intros out Hout.
  apply categorize_transactions_frame in Hout as [Hcols Hrows].
  split; [symmetry; by eapply Forall2_length|]. split.
  - intros c Hc. unfold Frame.getitem. rewrite Hcols.
    assert (c ∈ Frame.add_column "Category" (columns df) ↔ c ∈ columns df)
      as Hiff.
    { unfold Frame.add_column. case_decide; [done|].
      rewrite elem_of_app, list_elem_of_singleton. intuition congruence. }
    destruct (decide (c ∈ columns df)) as [Hin|Hin].
    + rewrite decide_True by (by apply Hiff). f_equal.
      apply list_eq. intros i. rewrite !list_lookup_fmap.
      destruct (rows df !! i) as [r|] eqn:Hr.
      * destruct (Forall2_lookup_l _ _ _ _ _ Hrows Hr) as (r' & -> & Hrr').
        cbn. by rewrite (Hrr' c Hc).
      * apply lookup_ge_None in Hr.
        rewrite (Forall2_length _ _ _ Hrows) in Hr.
        apply lookup_ge_None in Hr. by rewrite Hr.
    + rewrite decide_False by (by rewrite Hiff). done.
  - intros i r Hr.
    destruct (Forall2_lookup_l _ _ _ _ _ Hrows Hr) as (r' & Hr' & Hrr').
    eauto.
Qed.

Lemma keyword_mode_frame_witness :
  ∃ out,
    categorize_transactions [("Food", ["coffee"])]
      (mkDF ["Details"; "Amount"]
         [{[ "Details" := VStr "Coffee"; "Amount" := VNaN ]}]) = Ok out
    ∧ length (rows out) = 1
    ∧ Frame.getitem out "Amount" = Ok [VNaN].
Proof.
  destruct (keyword_mode_frame [("Food", ["coffee"])]
              (mkDF ["Details"; "Amount"]
                 [{[ "Details" := VStr "Coffee"; "Amount" := VNaN ]}]))
    as [Hreturns Hframe].
  destruct Hreturns as [out Hout].
  - cbn. apply list_elem_of_here.
  - repeat constructor. exists "Coffee". reflexivity.
  - exists out. split; [exact Hout|].
    destruct (Hframe out Hout) as (Hlen & Hcols & _).
    split; [exact Hlen|]. rewrite (Hcols "Amount") by done. reflexivity.
Defined.

(** ** The category store *)

Module DictFacts.
Import Dict.

Lemma get_Ok_keys k d v : get k d = Ok v → k ∈ keys d.
Proof.
  induction d as [|[k' v'] d IH]; cbn; [done|].
  case_decide; [subst; intros _; apply list_elem_of_here|].
  intros Hget. apply list_elem_of_further. by apply IH.
Qed.

Lemma get_absent k d : k ∉ keys d → get k d = Raise KeyError.
Proof.
  induction d as [|[k' v'] d IH]; cbn; [done|].
  intros Hk. apply not_elem_of_cons in Hk as [Hne Hk].
  rewrite decide_False by done. by apply IH.
Qed.

Lemma get_present k d : k ∈ keys d → ∃ v, get k d = Ok v.
Proof.
  induction d as [|[k' v'] d IH]; cbn.
  - intros Hin. by apply elem_of_nil in Hin.
  - intros Hin. case_decide; [eauto|].
    apply elem_of_cons in Hin as [->|Hin]; [done|]. by apply IH.
Qed.

Lemma keys_update k v d : keys (update k v d) = keys d.
Proof.
  induction d as [|[k' v'] d IH]; cbn; [done|].
  case_decide; cbn; [done|]. f_equal. apply IH.
Qed.

Lemma get_update_eq k v d v0 : get k d = Ok v0 → get k (update k v d) = Ok v.
Proof.
  induction d as [|[k' v'] d IH]; cbn; [done|].
  case_decide as Hk; cbn.
  - by rewrite decide_True.
  - rewrite decide_False by done. apply IH.
Qed.

Lemma get_update_ne k k' v d : k' ≠ k → get k' (update k v d) = get k' d.
Proof.
  intros Hne. induction d as [|[k0 v0] d IH]; cbn; [done|].
  case_decide as Hk; cbn.
  - subst. by rewrite !decide_False by congruence.
  - case_decide; [done|]. apply IH.
Qed.

(** An update leaves every entry where it stands. *)
Lemma update_split k v d v0 :
  get k d = Ok v0 →
  ∃ pre, d = pre ++ (k, v0) :: entries_after k d
    ∧ update k v d = pre ++ (k, v) :: entries_after k d
    ∧ entries_after k (update k v d) = entries_after k d.
Proof.
  induction d as [|[k' v'] d IH]; cbn; [done|].
  case_decide as Hk; cbn.
  - intros [= ->]. subst. exists []. rewrite decide_True by done. done.
  - intros Hget. destruct (IH Hget) as (pre & Hd & Hu & Ha).
    exists ((k', v') :: pre). rewrite decide_False by done. cbn.
    by rewrite <- Hd, <- Hu.
Qed.

Lemma set_absent k v d : k ∉ keys d → set k v d = d ++ [(k, v)].
Proof.
  intros Hk. unfold set, contains. by rewrite bool_decide_eq_false_2.
Qed.

End DictFacts.

Lemma add_keyword_empty category keyword s :
  Text.strip keyword = "" →
  add_keyword_to_category category keyword s = Ok (s, false).
Proof.
  intros Hk. unfold add_keyword_to_category, Text.truthy. rewrite Hk.
  by rewrite bool_decide_eq_false_2 by (by intros H).
Qed.

Lemma add_keyword_known category keyword s kws :
  Text.strip keyword ≠ "" →
  Dict.get category (categories s) = Ok kws →
  add_keyword_to_category category keyword s
  = if bool_decide (Text.strip keyword ∉ kws)
    then Ok (save_categories
               (set_categories
                  (Dict.update category (kws ++ [Text.strip keyword])
                     (categories s)) s), true)
    else Ok (s, false).
Proof.
  intros Hk Hget. unfold add_keyword_to_category, Text.truthy.
  rewrite bool_decide_eq_true_2 by done. by rewrite Hget.
Qed.

(** C2. [add_keyword_to_category] trims the keyword.  It returns false,
    leaving the store as it is, when the trimmed keyword is empty or is
    already among the keywords of the category (exact, case-sensitive
    comparison).  Otherwise, for a category of the store, it appends the
    trimmed keyword to that category's keywords, saves, and returns true;
    for a category the store does not have it raises [KeyError].  A second
    call with the same arguments returns false and changes nothing. *)
Theorem add_keyword_to_category_spec (category keyword : string) (s : state) :
  let k := Text.strip keyword in
  (k = "" → add_keyword_to_category category keyword s = Ok (s, false))
  ∧ (k ≠ "" → category ∉ Dict.keys (categories s) →
     add_keyword_to_category category keyword s = Raise KeyError)
  ∧ (∀ kws, k ≠ "" →
     Dict.get category (categories s) = Ok kws → k ∈ kws →
     add_keyword_to_category category keyword s = Ok (s, false))
  ∧ (∀ kws, k ≠ "" →
     Dict.get category (categories s) = Ok kws → k ∉ kws →
     ∃ s', add_keyword_to_category category keyword s = Ok (s', true)
       ∧ Dict.get category (categories s') = Ok (kws ++ [k])
       ∧ (∀ c, c ≠ category →
            Dict.get c (categories s') = Dict.get c (categories s))
       ∧ Dict.keys (categories s') = Dict.keys (categories s)
       ∧ category_file s' = Some (categories s')
       ∧ categorized_transactions s' = categorized_transactions s
       ∧ debits_df s' = debits_df s)
  ∧ (∀ s' b, add_keyword_to_category category keyword s = Ok (s', b) →
     add_keyword_to_category category keyword s' = Ok (s', false)
     ∧ ∀ kws, Dict.get category (categories s') = Ok kws →
         k ≠ "" → k ∈ kws).
Proof.
  intros k. subst k. split; [apply add_keyword_empty|]. split.
  { intros Hk Hc. unfold add_keyword_to_category, Text.truthy.
    rewrite bool_decide_eq_true_2 by done.
    by rewrite DictFacts.get_absent. }
  split.
  { intros kws Hk Hget Hin. rewrite (add_keyword_known _ _ _ kws) by done.
    by rewrite bool_decide_eq_false_2 by (by intros H). }
  split.
  { intros kws Hk Hget Hin. eexists.
    rewrite (add_keyword_known _ _ _ kws) by done.
    rewrite bool_decide_eq_true_2 by done. split; [done|]. cbn.
    split; [by eapply DictFacts.get_update_eq|].
    split; [intros c Hc; by apply DictFacts.get_update_ne|].
    split; [apply DictFacts.keys_update|]. done. }
  intros s' b Hcall.
  destruct (decide (Text.strip keyword = "")) as [Hk|Hk].
  { rewrite add_keyword_empty in Hcall by done. injection Hcall as <- <-.
    split; [by apply add_keyword_empty | done]. }
  destruct (Dict.get category (categories s)) as [kws|e] eqn:Hget.
  - rewrite (add_keyword_known _ _ _ kws) in Hcall by done.
    case_bool_decide as Hin.
    + injection Hcall as <- <-.
      assert (Dict.get category
                (categories
                   (save_categories
                      (set_categories
                         (Dict.update category (kws ++ [Text.strip keyword])
                            (categories s)) s)))
              = Ok (kws ++ [Text.strip keyword])) as Hget'.
      { cbn. by eapply DictFacts.get_update_eq. }
      split.
      * rewrite (add_keyword_known _ _ _ _ Hk Hget').
        rewrite bool_decide_eq_false_2; [done|].
        intros Hn. apply Hn. set_solver.
      * intros kws'. rewrite Hget'. intros [= <-] _. set_solver.
    + injection Hcall as <- <-. split.
      * rewrite (add_keyword_known _ _ _ kws) by done.
        rewrite bool_decide_eq_false_2 by (intros Hn; by apply Hn).
        reflexivity.
      * intros kws'. rewrite Hget. by intros [= <-] _.
  - unfold add_keyword_to_category, Text.truthy in Hcall.
    rewrite bool_decide_eq_true_2 in Hcall by done.
    by rewrite Hget in Hcall.
Qed.

Lemma add_keyword_to_category_spec_witness :
  add_keyword_to_category "Food" (" " +:+ nbsp) food_session
    = Ok (food_session, false)
  ∧ (∃ s', add_keyword_to_category "Food" (" Café" +:+ nbsp) food_session
           = Ok (s', true)
           ∧ Dict.get "Food" (categories s') = Ok ["Café"]
           ∧ category_file s' = Some (categories s'))
  ∧ add_keyword_to_category "Food" " x " (new_session None) = Raise KeyError.
Proof.
  destruct (add_keyword_to_category_spec "Food" (" " +:+ nbsp) food_session)
    as (Hempty & _).
  destruct (add_keyword_to_category_spec "Food" (" Café" +:+ nbsp)
              food_session) as (_ & _ & _ & Hnew & _).
  destruct (add_keyword_to_category_spec "Food" " x " (new_session None))
    as (_ & Hunknown & _).
  split; [|split].
  - apply Hempty. reflexivity.
  - destruct (Hnew []) as (s' & Hs' & Hget & _ & _ & Hfile & _).
    + vm_compute. discriminate.
    + reflexivity.
    + apply not_elem_of_nil.
    + exists s'. split; [exact Hs'|]. split; [exact Hget | exact Hfile].
  - apply Hunknown; vm_compute; [discriminate|].
    intros H. apply list_elem_of_In in H. cbn in H. intuition discriminate.
Defined.

(** Counterexample to C2 as first worded, at a category the store does
    not have: the call raises instead of returning false. *)
Lemma add_keyword_unknown_category_raises :
  add_keyword_to_category "Food" "coffee" (new_session None) = Raise KeyError
  ∧ add_keyword_to_category "Food" "coffee" (new_session None)
    ≠ Ok (new_session None, false).
Proof. split; [reflexivity | discriminate]. Qed.

(** C6. Adding a category: a name that is not empty and not yet a key is
    inserted as it was typed, without trimming, after the existing
    entries and with no keywords, and the store is saved; a name that is
    empty or already a key leaves the store untouched and reports that
    nothing was inserted. *)
Theorem add_category_spec (add_button : bool) (name : string) (s : state) :
  (add_button = true → name ≠ "" → name ∉ Dict.keys (categories s) →
   ∃ s', add_category add_button name s = (s', true)
     ∧ categories s' = categories s ++ [(name, [])]
     ∧ category_file s' = Some (categories s')
     ∧ categorized_transactions s' = categorized_transactions s
     ∧ debits_df s' = debits_df s)
  ∧ (add_button = false ∨ name = ""
     ∨ name ∈ Dict.keys (categories s) →
     add_category add_button name s = (s, false)).
Proof.
  unfold add_category, Text.truthy, Dict.contains. split.
  - intros -> Hname Hkey. eexists.
    rewrite bool_decide_eq_true_2 by done.
    rewrite bool_decide_eq_false_2 by done. cbn.
    split; [done|]. by rewrite DictFacts.set_absent.
  - intros [-> | [-> | Hkey]]; [done | |].
    + rewrite bool_decide_eq_false_2 by (by intros Hn).
      by rewrite andb_false_r.
    + rewrite (bool_decide_eq_true_2 (name ∈ _)) by done. cbn.
      by destruct (_ && _).
Qed.

Lemma add_category_spec_witness :
  (∃ s', add_category true "Food" (new_session None) = (s', true)
     ∧ categories s' = [("Uncategorized", []); ("Food", [])])
  ∧ add_category true "Uncategorized" (new_session None)
    = (new_session None, false).
Proof.
  destruct (add_category_spec true "Food" (new_session None)) as [Hnew _].
  destruct (add_category_spec true "Uncategorized" (new_session None))
    as [_ Hold].
  split.
  - destruct Hnew as (s' & Hcall & Hcats & _); [done | discriminate | |].
    + intros Hin. apply list_elem_of_In in Hin. cbn in Hin.
      intuition discriminate.
    + exists s'. split; [exact Hcall | exact Hcats].
  - apply Hold. right. right. apply list_elem_of_here.
Defined.

(** Counterexample to C6 as first worded, at a name of white space only:
    the name is not trimmed, so the category is inserted. *)
Lemma add_category_blank_name_inserted :
  Text.strip " " = ""
  ∧ add_category true " " (new_session None)
    = (mkState [("Uncategorized", []); (" ", [])] None None
         (Some [("Uncategorized", []); (" ", [])]), true).
Proof. split; reflexivity. Qed.

(** ** A learned keyword and the classifier *)

Lemma category_column_fresh cats details :
  category_column (categorize_transactions cats (fresh_record details))
  = Ok [VStr (keyword_category cats details)].
Proof.
  rewrite categorize_transactions_spec.
  - cbn. unfold Frame.getitem. cbn [columns rows].
    rewrite decide_True.
    + cbn. by rewrite lookup_insert_eq.
    + unfold Frame.add_column. case_decide; [done|].
      apply elem_of_app. right. apply list_elem_of_here.
  - apply list_elem_of_here.
  - repeat constructor. by exists details.
Qed.

(** C5. After [add_keyword_to_category c k] returned true, a fresh
    record whose details equal [k] up to case and surrounding white space
    is classified [c] in keyword mode, provided no category that the
    matching loop visits after [c] holds such a keyword: for [c] other
    than "Uncategorized" these are the later categories other than
    "Uncategorized", for "Uncategorized" itself all the others. *)
Theorem added_keyword_classifies (c k : string) (s s' : state) (d : string) :
  add_keyword_to_category c k s = Ok (s', true) →
  normalize d = normalize k →
  (c ≠ "Uncategorized" →
   (∀ c' kws, (c', kws) ∈ entries_after c (categories s') →
      c' ≠ "Uncategorized" → normalize d ∉ normalize <$> kws) →
   category_column (categorize_transactions (categories s') (fresh_record d))
   = Ok [VStr c])
  ∧ (c = "Uncategorized" →
     (∀ c' kws, (c', kws) ∈ categories s' →
        c' ≠ "Uncategorized" → normalize d ∉ normalize <$> kws) →
     category_column (categorize_transactions (categories s') (fresh_record d))
     = Ok [VStr c]).
Proof.
  intros Hadd Hd. rewrite category_column_fresh. split.
  - intros Hc Hlater.
    destruct (decide (Text.strip k = "")) as [Hk|Hk].
    { by rewrite add_keyword_empty in Hadd. }
    destruct (Dict.get c (categories s)) as [kws|e] eqn:Hget.
    + rewrite (add_keyword_known _ _ _ kws) in Hadd by done.
      case_bool_decide; [|done]. injection Hadd as <-.
      cbn [categories save_categories set_categories] in Hlater |- *.
      destruct (DictFacts.update_split c (kws ++ [Text.strip k]) _ _ Hget)
        as (pre & _ & Hupd & Hafter).
      rewrite Hafter in Hlater. rewrite Hupd.
      rewrite keyword_category_last; [done | done | | done].
      rewrite fmap_app, elem_of_app. right. cbn.
      rewrite normalize_strip, Hd. apply list_elem_of_here.
    + unfold add_keyword_to_category, Text.truthy in Hadd.
      rewrite bool_decide_eq_true_2 in Hadd by done.
      by rewrite Hget in Hadd.
  - intros -> Hno. by rewrite keyword_category_none.
Qed.

Lemma added_keyword_classifies_witness :
  category_column
    (categorize_transactions
       [("Uncategorized", []); ("Food", ["Café Shop"]); ("Fun", ["cafe shop"])]
       (fresh_record ("  café SHOP" +:+ nbsp)))
  = Ok [VStr "Food"].
Proof.
  refine (proj1 (added_keyword_classifies "Food" (nbsp +:+ "Café Shop ")
            (mkState
               [("Uncategorized", []); ("Food", []); ("Fun", ["cafe shop"])]
               None None None)
            (mkState
               [("Uncategorized", []); ("Food", ["Café Shop"]);
                ("Fun", ["cafe shop"])]
               None None
               (Some [("Uncategorized", []); ("Food", ["Café Shop"]);
                      ("Fun", ["cafe shop"])]))
            ("  café SHOP" +:+ nbsp) _ _) _ _).
  - reflexivity.
  - reflexivity.
  - discriminate.
  - intros c' kws Hin _. cbn in Hin.
    apply list_elem_of_singleton in Hin as [= -> ->].
    vm_compute. intros Hin. apply list_elem_of_In in Hin. cbn in Hin.
    intuition discriminate.
Defined.

(** Counterexample to C5 as first worded, at a keyword that a later
    category also holds: the keyword is added to "Food", and the record
    is classified "Fun". *)
Lemma added_keyword_overridden :
  add_keyword_to_category "Food" "coffee"
    (mkState [("Uncategorized", []); ("Food", []); ("Fun", ["coffee"])]
       None None None)
  = Ok (mkState
          [("Uncategorized", []); ("Food", ["coffee"]); ("Fun", ["coffee"])]
          None None
          (Some [("Uncategorized", []); ("Food", ["coffee"]);
                 ("Fun", ["coffee"])]), true)
  ∧ category_column
      (categorize_transactions
         [("Uncategorized", []); ("Food", ["coffee"]); ("Fun", ["coffee"])]
         (fresh_record "coffee"))
    = Ok [VStr "Fun"].
Proof. split; reflexivity. Qed.

(** ** The invariant of the category store *)

Lemma store_inv_new : store_inv (new_session None).
Proof. split; [apply list_elem_of_here | done]. Qed.

Lemma store_inv_restart s :
  store_inv s → store_inv (new_session (category_file s)).
Proof. intros [_ Hf]. split; [apply list_elem_of_here | exact Hf]. Qed.

Lemma store_inv_load s : store_inv s → store_inv (load_categories s).
Proof.
  intros [Hc Hf]. unfold load_categories.
  destruct (category_file s) as [d|] eqn:Hd.
  - split; cbn; [by apply Hf | rewrite Hd; exact Hf].
  - split; [done | rewrite Hd; exact Hf].
Qed.

Lemma store_inv_save s : store_inv s → store_inv (save_categories s).
Proof. intros [Hc _]. split; cbn; [done|]. by intros d [= <-]. Qed.

Lemma store_inv_set_debits df s :
  store_inv s → store_inv (set_debits_df df s).
Proof. by intros [Hc Hf]. Qed.

Lemma store_inv_set_snapshot df s :
  store_inv s → store_inv (set_categorized_transactions df s).
Proof. by intros [Hc Hf]. Qed.

Lemma store_inv_add_category b name s :
  store_inv s → store_inv (add_category b name s).1.
Proof.
  intros Hs. unfold add_category.
  destruct (b && Text.truthy name); [|done].
  destruct (Dict.contains name (categories s)) eqn:Hin; [done|]. cbn.
  apply store_inv_save. destruct Hs as [Hc Hf]. split; [|done]. cbn.
  unfold Dict.set. rewrite Hin. unfold Dict.keys in *.
  rewrite fmap_app, elem_of_app. by left.
Qed.

Lemma store_inv_add_keyword category keyword s s' b :
  store_inv s →
  add_keyword_to_category category keyword s = Ok (s', b) →
  store_inv s'.
Proof.
  intros Hs. unfold add_keyword_to_category.
  destruct (Text.truthy _); [|by intros [= <- <-]].
  destruct (Dict.get category (categories s)) as [kws|]; cbn; [|done].
  case_bool_decide; intros [= <- <-]; [|done].
  apply store_inv_save. destruct Hs as [Hc Hf]. split; [|done]. cbn.
  by rewrite DictFacts.keys_update.
Qed.

Lemma store_inv_learn_keyword new_category details s s' b :
  store_inv s →
  learn_keyword new_category details s = Ok (s', b) →
  store_inv s'.
Proof.
  intros Hs. unfold learn_keyword.
  destruct (as_str details) as [k|]; cbn; [|done].
  destruct new_category as [c| | |];
    try (destruct (Text.truthy _); [done | by intros [= <- <-]]).
  by apply store_inv_add_keyword.
Qed.

Lemma store_inv_apply_edit edited_df it s :
  store_inv s → store_inv (apply_edit edited_df it s).1.
Proof.
  intros Hs. destruct it as [idx row]. unfold apply_edit.
  destruct (Frame.row_get edited_df row "Category") as [nc|]; [|done].
  destruct (Frame.at_get _ idx "Category") as [oc|]; [|done].
  case_decide; [|done].
  destruct (Frame.row_get edited_df row "Details") as [dt|]; [|done].
  destruct (learn_keyword nc dt _) as [[s' b]|] eqn:Hl; cbn.
  - eapply store_inv_learn_keyword; [|exact Hl].
    by apply store_inv_set_debits.
  - by apply store_inv_set_debits.
Qed.

Lemma store_inv_apply_edits edited_df its s :
  store_inv s → store_inv (apply_edits edited_df its s).1.
Proof.
  revert s. induction its as [|it its IH]; intros s Hs; [done|]. cbn.
  pose proof (store_inv_apply_edit edited_df it s Hs) as Hstep.
  destruct (apply_edit edited_df it s) as [s1 [e|]]; [done|].
  by apply IH.
Qed.

Lemma store_inv_apply_changes edited_df s :
  store_inv s → store_inv (apply_changes edited_df s).1.
Proof.
  intros Hs. unfold apply_changes.
  pose proof (store_inv_apply_edits edited_df (Frame.iterrows edited_df) s Hs)
    as Hloop.
  destruct (apply_edits _ _ s) as [s1 [e|]]; [done|]. cbn.
  by apply store_inv_set_snapshot, store_inv_save.
Qed.

Lemma store_inv_main f g w s : store_inv s → store_inv (main f g w s).1.
Proof.
  intros Hs. apply store_inv_load in Hs. unfold main.
  destruct (uploaded_file w) as [file|]; [|done].
  destruct (load_transactions f g _ file) as [df|]; [|done].
  destruct (Frame.select_eq df _ _) as [debits|]; [|done].
  pose proof (store_inv_add_category (add_button w) (new_category w) _
                (store_inv_set_debits debits _ Hs)) as Hadd.
  destruct (add_category _ _ _) as [s1 inserted]. cbn in Hadd.
  destruct inserted; [done|].
  destruct (select_columns debits _) as [shown|]; [|done].
  destruct (save_button w); [|done].
  by apply store_inv_apply_changes.
Qed.

Lemma store_inv_reachable s : reachable s → store_inv s.
Proof.
  induction 1 as [|s _ IH|s _ IH|s b name _ IH|s c k s' b _ IH Hk|s e _ IH
                  |s f g w _ IH].
  - apply store_inv_new.
  - by apply store_inv_restart.
  - by apply store_inv_load.
  - by apply store_inv_add_category.
  - by eapply store_inv_add_keyword.
  - by apply store_inv_apply_changes.
  - by apply store_inv_main.
Qed.

(** The keywords kept under "Uncategorized" are never read by the
    classifier. *)
Lemma categorize_skips_uncategorized kws cats df :
  categorize_transactions (Dict.update "Uncategorized" kws cats) df
  = categorize_transactions cats df.
Proof.
  unfold categorize_transactions.
  generalize (Frame.setitem_scalar df "Category" (VStr "Uncategorized")).
  induction cats as [|[c v] cats IH]; intros df0; [done|]. cbn.
  case_decide as Hc; cbn.
  - subst c. by rewrite !bool_decide_eq_true_2 by done.
  - destruct (_ || _); cbn; [apply IH|].
    destruct (for_each _ _ df0); cbn; [apply IH | done].
Qed.

(** C8. In every reachable state the category "Uncategorized" is a key
    of the store, and keyword matching skips it: whatever keywords it
    holds, the classifier returns the same result. *)
Theorem uncategorized_exists_and_is_skipped (s : state) :
  reachable s →
  "Uncategorized" ∈ Dict.keys (categories s)
  ∧ (∃ kws, Dict.get "Uncategorized" (categories s) = Ok kws)
  ∧ ∀ kws df,
      categorize_transactions
        (Dict.update "Uncategorized" kws (categories s)) df
      = categorize_transactions (categories s) df.
Proof.
  intros Hs. apply store_inv_reachable in Hs as [Hc _].
  split; [done|]. split; [by apply DictFacts.get_present|].
  intros kws df. apply categorize_skips_uncategorized.
Qed.

Lemma uncategorized_exists_and_is_skipped_witness :
  "Uncategorized" ∈ Dict.keys (categories (new_session None))
  ∧ (∃ kws,
       Dict.get "Uncategorized" (categories (new_session None)) = Ok kws)
  ∧ ∀ kws df,
      categorize_transactions
        (Dict.update "Uncategorized" kws (categories (new_session None))) df
      = categorize_transactions (categories (new_session None)) df.
Proof.
  apply (uncategorized_exists_and_is_skipped (new_session None)).
  apply reach_new.
Defined.

(** ** Snapshot reconciliation *)

Lemma filter_fmap {A B} (f : A → B) (P : B → Prop) `{!∀ x, Decision (P x)}
    (l : list A) :
  filter P (f <$> l) = f <$> filter (P ∘ f) l.
Proof.
  induction l as [|x l IH]; [done|]. cbn [fmap list_fmap].
  rewrite !filter_cons. cbn. case_decide; cbn; by rewrite IH.
Qed.

Lemma project_row_id_lookup cols (value : string → cell) c :
  project_row cols id value !! c
  = if decide (c ∈ cols) then Some (value c) else None.
Proof.
  unfold project_row.
  induction cols as [|c' cols IH].
  - cbn. rewrite lookup_empty, decide_False; [done | apply not_elem_of_nil].
  - rewrite fmap_cons, list_to_map_cons. unfold id at 1.
    destruct (decide (c' = c)) as [->|Hne].
    + rewrite lookup_insert_eq, decide_True; [done | apply list_elem_of_here].
    + rewrite lookup_insert_ne, IH by done.
      destruct (decide (c ∈ cols)) as [Hin|Hin].
      * rewrite decide_True; [done | by apply list_elem_of_further].
      * rewrite decide_False; [done|].
        intros Hx. by apply elem_of_cons in Hx as [->|Hx].
Qed.

Lemma merge_left_details df right_rows :
  "Details" ∈ columns df →
  "Category" ∉ columns df →
  same_kind (key_column df "Details")
            ((λ r, cell_of r "Details") <$> right_rows) = true →
  merge_left df (mkDF ["Details"; "Category"] right_rows) "Details"
  = Ok (mkDF (columns df ++ ["Category"])
          (rows df ≫= λ l,
             match filter (λ r, cell_of r "Details" = cell_of l "Details")
                          right_rows with
             | [] => [left_row df l ∪ {[ "Category" := VNaN ]}]
             | ms =>
                 (λ r, left_row df l ∪ {[ "Category" := cell_of r "Category" ]})
                   <$> ms
             end)).
Proof.
  intros HD HC Hkind. unfold merge_left. cbn [columns rows].
  rewrite decide_True by (split; [done | apply list_elem_of_here]).
  unfold key_column at 2. cbn [rows]. rewrite Hkind. cbn [negb].
  cbv zeta.
  assert (filter (λ c : string, c ≠ "Details") ["Details"; "Category"]
          = ["Category"]) as -> by reflexivity.
  assert (suffixed (columns df) "Details" "_y" "Category" = "Category") as Hr.
  { unfold suffixed. rewrite decide_False; [done|]. by intros [_ ?]. }
  assert (suffixed ["Details"; "Category"] "Details" "_x" <$> columns df
          = columns df) as Hl.
  { rewrite <- (list_fmap_id (columns df)) at 2. apply list_fmap_ext.
    intros i c Hc. apply list_elem_of_lookup_2 in Hc. unfold suffixed.
    rewrite decide_False; [done|]. intros [Hne Hin].
    apply elem_of_cons in Hin as [->|Hin]; [done|].
    apply list_elem_of_singleton in Hin as ->. done. }
  assert (∀ l, project_row (columns df)
                 (suffixed ["Details"; "Category"] "Details" "_x") (cell_of l)
               = left_row df l) as Hlrow.
  { intros l. unfold left_row, project_row. f_equal.
    apply list_fmap_ext. intros i c Hc. apply list_elem_of_lookup_2 in Hc.
    unfold suffixed.
    rewrite decide_False; [done|]. intros [Hne Hin].
    apply elem_of_cons in Hin as [->|Hin]; [done|].
    apply list_elem_of_singleton in Hin as ->. done. }
  rewrite Hl. cbn [fmap list_fmap]. rewrite Hr. f_equal. f_equal.
  apply list_bind_ext; [|done]. intros l. rewrite Hlrow.
  unfold project_row. cbn [fmap list_fmap]. rewrite Hr.
  cbn [list_to_map foldr]. rewrite !insert_empty. done.
Qed.

Lemma fmap_bind_list {A B C} (f : B → C) (g : A → list B) (l : list A) :
  f <$> (l ≫= g) = l ≫= (λ x, f <$> g x).
Proof.
  induction l as [|x l IH]; [done|].
  by rewrite !bind_cons, fmap_app, IH.
Qed.

Lemma bind_singletons {A B} (f : A → list B) (g : A → B) (l : list A) :
  Forall (λ x, f x = [g x]) l → l ≫= f = g <$> l.
Proof.
  induction 1 as [|x l Hx _ IH]; [done|].
  by rewrite bind_cons, Hx, IH.
Qed.

Lemma select_details_category snapshot :
  "Details" ∈ columns snapshot →
  "Category" ∈ columns snapshot →
  select_columns snapshot ["Details"; "Category"]
  = Ok (mkDF ["Details"; "Category"]
          ((λ r, project_row ["Details"; "Category"] id (cell_of r))
             <$> rows snapshot)).
Proof.
  intros HD HC. unfold select_columns. rewrite decide_True; [done|].
  intros c Hc. apply elem_of_cons in Hc as [->|Hc]; [done|].
  by apply list_elem_of_singleton in Hc as ->.
Qed.

Lemma selected_cell r c :
  c ∈ ["Details"; "Category"] →
  cell_of (project_row ["Details"; "Category"] id (cell_of r)) c = cell_of r c.
Proof.
  intros Hc. unfold cell_of at 1.
  by rewrite project_row_id_lookup, decide_True.
Qed.

Lemma joined_row df l v :
  "Category" ∉ columns df →
  <["Category" := fill_category
                    (cell_of (left_row df l ∪ {[ "Category" := v ]}) "Category")]>
    (left_row df l ∪ {[ "Category" := v ]})
  = <["Category" := fill_category v]> (left_row df l).
Proof.
  intros HC.
  assert (left_row df l !! "Category" = None) as Hnone.
  { unfold left_row. by rewrite project_row_id_lookup, decide_False. }
  unfold cell_of at 1.
  rewrite lookup_union_r, lookup_singleton_eq by done. cbn.
  rewrite <- insert_union_singleton_r by done.
  apply insert_insert_eq.
Qed.

Lemma selected_key_column snapshot :
  (λ r, cell_of r "Details")
    <$> ((λ r, project_row ["Details"; "Category"] id (cell_of r))
           <$> rows snapshot)
  = key_column snapshot "Details".
Proof.
  unfold key_column. rewrite <- list_fmap_compose. apply list_fmap_ext.
  intros i r _. unfold compose. apply selected_cell, list_elem_of_here.
Qed.


Lemma same_kind_refl l : same_kind l l = true.
Proof. destruct l; [done|]. cbn. by rewrite bool_decide_eq_true_2. Qed.

Lemma reconcile_spec snapshot df :
  "Details" ∈ columns df →
  "Category" ∉ columns df →
  "Details" ∈ columns snapshot →
  "Category" ∈ columns snapshot →
  same_kind (key_column df "Details") (key_column snapshot "Details") = true →
  reconcile snapshot df
  = Ok (mkDF (columns df ++ ["Category"])
          (rows df ≫= λ l,
             (λ v, <["Category" := fill_category v]> (left_row df l))
               <$> joined_categories snapshot l)).
Proof.
  intros HD HC HDs HCs Hkind. unfold reconcile.
  rewrite select_details_category by done. cbn [mbind result_bind].
  rewrite merge_left_details by (done || by rewrite selected_key_column).
  cbn [mbind result_bind].
  unfold Frame.getitem, Frame.setitem. cbn [columns rows].
  rewrite decide_True
    by (apply elem_of_app; right; apply list_elem_of_here).
  cbn [mbind result_bind]. f_equal. f_equal.
  - unfold Frame.add_column. rewrite decide_True; [done|].
    apply elem_of_app. right. apply list_elem_of_here.
  - unfold fillna. rewrite <- list_fmap_compose, zip_with_fmap_r, zip_with_diag.
    rewrite fmap_bind_list. apply list_bind_ext; [|done]. intros l.
    rewrite filter_fmap.
    rewrite (list_filter_iff _
               (λ r, cell_of r "Details" = cell_of l "Details")).
    2:{ intros r. unfold compose.
        rewrite selected_cell; [done | apply list_elem_of_here]. }
    fold (partners snapshot l). unfold joined_categories.
    destruct (partners snapshot l) as [|r ms].
    + cbn [fmap list_fmap]. f_equal. by apply (joined_row df l VNaN).
    + set (proj := λ r : gmap string cell,
                     project_row ["Details"; "Category"] id (cell_of r)).
      change (proj <$> r :: ms) with (proj r :: (proj <$> ms)). cbv iota.
      change (proj r :: (proj <$> ms)) with (proj <$> r :: ms). subst proj.
      rewrite <- !list_fmap_compose. apply list_fmap_ext.
      intros i r' _. unfold compose.
      rewrite selected_cell
        by (apply list_elem_of_further, list_elem_of_here).
      by apply (joined_row df l).
Qed.

Lemma reconcile_unique snapshot df :
  "Details" ∈ columns df →
  "Category" ∉ columns df →
  "Details" ∈ columns snapshot →
  "Category" ∈ columns snapshot →
  same_kind (key_column df "Details") (key_column snapshot "Details") = true →
  Forall (λ l, length (partners snapshot l) ≤ 1) (rows df) →
  reconcile snapshot df
  = Ok (mkDF (columns df ++ ["Category"])
          ((λ l, <["Category" := fill_category (joined_category snapshot l)]>
                   (left_row df l))
             <$> rows df)).
Proof.
  intros HD HC HDs HCs Hkind Huniq. rewrite reconcile_spec by done.
  f_equal. f_equal. apply bind_singletons.
  eapply Forall_impl; [exact Huniq|]. intros l Hl. cbn in Hl.
  unfold joined_categories, joined_category.
  destruct (partners snapshot l) as [|r [|r' ms]]; [done | done |].
  cbn in Hl. lia.
Qed.

Lemma filter_unique_key {A B} `{EqDecision B} (f : A → B) (l : list A) x :
  NoDup (f <$> l) → x ∈ l → filter (λ y, f y = f x) l = [x].
Proof.
  induction l as [|y l IH]; intros Hnd Hx; [by apply elem_of_nil in Hx|].
  rewrite fmap_cons in Hnd. apply NoDup_cons in Hnd as [Hy Hnd].
  apply elem_of_cons in Hx as [<-|Hx].
  - rewrite filter_cons_True by done. f_equal.
    apply elem_of_nil_inv. intros z Hz.
    apply list_elem_of_filter in Hz as [Hfz Hz]. apply Hy.
    rewrite <- Hfz. by apply list_elem_of_fmap_2.
  - rewrite filter_cons_False; [by apply IH|].
    intros Hfy. apply Hy. rewrite Hfy. by apply list_elem_of_fmap_2.
Qed.

Lemma filter_key_length {A B} `{EqDecision B} (f : A → B) (l : list A) k :
  NoDup (f <$> l) → length (filter (λ y, f y = k) l) ≤ 1.
Proof.
  intros Hnd.
  destruct (filter (λ y, f y = k) l) as [|x xs] eqn:Hf; [cbn; lia|].
  assert (x ∈ filter (λ y, f y = k) l) as Hx by (rewrite Hf; left).
  apply list_elem_of_filter in Hx as [<- Hx].
  rewrite (filter_unique_key f l x Hnd Hx) in Hf. injection Hf as <-.
  cbn. lia.
Qed.

Lemma partners_member snapshot l r :
  NoDup ((λ r, cell_of r "Details") <$> rows snapshot) →
  r ∈ rows snapshot →
  cell_of r "Details" = cell_of l "Details" →
  partners snapshot l = [r].
Proof.
  intros Hnd Hr Heq. unfold partners. rewrite <- Heq.
  by apply (filter_unique_key (λ r, cell_of r "Details")).
Qed.


Lemma left_row_cell df l c :
  c ∈ columns df → cell_of (left_row df l) c = cell_of l c.
Proof.
  intros Hc. unfold cell_of at 1, left_row.
  by rewrite project_row_id_lookup, decide_True.
Qed.


Lemma setitem_details df vs :
  length vs = length (rows df) →
  key_column (Frame.setitem df "Category" vs) "Details"
  = key_column df "Details".
Proof.
  intros Hlen. unfold key_column. cbn [Frame.setitem rows].
  apply list_eq. intros i.
  rewrite !list_lookup_fmap, lookup_zip_with.
  destruct (rows df !! i) as [r|] eqn:Hr; [|done]. cbn.
  destruct (lookup_lt_is_Some_2 vs i) as [v ->].
  { rewrite Hlen. by eapply lookup_lt_Some. }
  cbn. unfold cell_of. by rewrite lookup_insert_ne.
Qed.

(** Where no details occur twice, reconciliation has the fixed point
    that the specification describes: uploading the records of a
    dataset again, with the categorised dataset as the snapshot, returns
    the same records with the same categories. *)
Lemma reconcile_self (df : DataFrame) (names : list string) :
  "Details" ∈ columns df →
  "Category" ∉ columns df →
  length names = length (rows df) →
  NoDup (key_column df "Details") →
  ∃ out,
    reconcile (Frame.setitem df "Category" (VStr <$> names)) df = Ok out
    ∧ length (rows out) = length (rows df)
    ∧ Frame.getitem out "Category" = Ok (VStr <$> names)
    ∧ ∀ c, c ∈ columns df → Frame.getitem out c = Frame.getitem df c.
Proof.
  intros HD HC Hlen Hnd.
  set (snapshot := Frame.setitem df "Category" (VStr <$> names)).
  assert (length (VStr <$> names) = length (rows df)) as Hlen'
    by (by rewrite length_fmap).
  assert (key_column snapshot "Details" = key_column df "Details") as Hkeys.
  { subst snapshot. by rewrite setitem_details. }
  assert (columns snapshot = columns df ++ ["Category"]) as Hcols.
  { cbn. unfold Frame.add_column. by rewrite decide_False. }
  eexists. split.
  { apply reconcile_unique; [done | done | | | |].
    - rewrite Hcols. apply elem_of_app. by left.
    - rewrite Hcols. apply elem_of_app. right. apply list_elem_of_here.
    - rewrite Hkeys. apply same_kind_refl.
    - apply Forall_forall. intros l _.
      apply (filter_key_length (λ r, cell_of r "Details")).
      fold (key_column snapshot "Details"). by rewrite Hkeys. }
  cbn [columns rows]. split; [by rewrite length_fmap|].
  unfold Frame.getitem. cbn [columns rows]. split.
  - rewrite decide_True by (apply elem_of_app; right; apply list_elem_of_here).
    f_equal. apply list_eq. intros i. rewrite !list_lookup_fmap.
    destruct (rows df !! i) as [l|] eqn:Hl; cbn.
    + destruct (lookup_lt_is_Some_2 names i) as [n Hn].
      { rewrite Hlen. by eapply lookup_lt_Some. }
      rewrite Hn. cbn. rewrite lookup_insert_eq. cbn. f_equal.
      unfold joined_category.
      rewrite (partners_member snapshot l (<["Category" := VStr n]> l)).
      * unfold cell_of. by rewrite lookup_insert_eq.
      * fold (key_column snapshot "Details"). by rewrite Hkeys.
      * apply list_elem_of_lookup. exists i. subst snapshot.
        cbn [Frame.setitem rows].
        by rewrite lookup_zip_with, Hl, list_lookup_fmap, Hn.
      * unfold cell_of. by rewrite lookup_insert_ne.
    + apply lookup_ge_None in Hl. rewrite <- Hlen in Hl.
      apply lookup_ge_None in Hl. by rewrite Hl.
  - intros c Hc.
    rewrite decide_True by (apply elem_of_app; by left).
    rewrite decide_True by done. f_equal.
    rewrite <- list_fmap_compose. apply list_fmap_ext. intros i l _. cbn.
    rewrite lookup_insert_ne by (by intros <-).
    fold (cell_of (left_row df l) c). by rewrite left_row_cell.
Qed.



Lemma reconcile_self_witness :
  ∃ out,
    reconcile
      (Frame.setitem coffee_upload "Category" [VStr "Dining"; VStr "Fun"])
      coffee_upload = Ok out
    ∧ Frame.getitem out "Category" = Ok [VStr "Dining"; VStr "Fun"].
Proof.
  destruct (reconcile_self coffee_upload ["Dining"; "Fun"])
    as (out & Hout & _ & Hcat & _).
  - apply list_elem_of_here.
  - cbn. intros Hin. apply list_elem_of_singleton in Hin. discriminate.
  - reflexivity.
  - vm_compute. apply NoDup_cons. split.
    + intros Hin. apply list_elem_of_singleton in Hin. discriminate.
    + apply NoDup_singleton.
  - exists out. split; [exact Hout | exact Hcat].
Defined.

(** How often each key of a list occurs in it, summed over the list. *)
Lemma sum_occurrences_cons {A} `{EqDecision A} (k0 : A) (ks l : list A) :
  sum_list_with (λ k, length (filter (λ y, y = k) (k0 :: ks))) l
  = sum_list_with (λ k, length (filter (λ y, y = k) ks)) l
    + length (filter (λ y, y = k0) l).
Proof.
  induction l as [|k l IH]; [done|]. cbn [sum_list_with].
  rewrite IH, !filter_cons.
  destruct (decide (k0 = k)) as [->|Hne].
  - rewrite decide_True by done. cbn. lia.
  - rewrite (decide_False (P := k = k0)) by (by intros ->). lia.
Qed.

Lemma sum_occurrences {A} `{EqDecision A} (ks : list A) :
  length ks ≤ sum_list_with (λ k, length (filter (λ y, y = k) ks)) ks
  ∧ (¬ NoDup ks →
     length ks < sum_list_with (λ k, length (filter (λ y, y = k) ks)) ks).
Proof.
  induction ks as [|k0 ks [IH1 IH2]]; [split; [done|]; intros H; destruct H; constructor|].
  cbn [sum_list_with]. rewrite sum_occurrences_cons, filter_cons.
  rewrite decide_True by done. cbn [length]. split; [lia|].
  intros Hdup. destruct (decide (k0 ∈ ks)) as [Hin|Hin].
  - assert (0 < length (filter (λ y, y = k0) ks)); [|lia].
    destruct (filter (λ y, y = k0) ks) eqn:Hf; [|cbn; lia].
    assert (k0 ∈ filter (λ y, y = k0) ks) as Hk
      by (by apply list_elem_of_filter).
    rewrite Hf in Hk. by apply elem_of_nil in Hk.
  - assert (¬ NoDup ks) as Hks.
    { intros Hnd. apply Hdup. by constructor. }
    specialize (IH2 Hks). lia.
Qed.

Lemma length_bind_with {A B} (f : A → list B) (g : A → nat) (l : list A) :
  (∀ x, x ∈ l → length (f x) = g x) →
  length (l ≫= f) = sum_list_with g l.
Proof.
  induction l as [|x l IH]; intros Hf; [done|].
  rewrite bind_cons, length_app, Hf, IH; [done | | left].
  intros y Hy. apply Hf. by right.
Qed.

Lemma sum_list_with_key {A B} (f : B → nat) (g : A → B) (l : list A) :
  sum_list_with f (g <$> l) = sum_list_with (λ x, f (g x)) l.
Proof. induction l as [|x l IH]; [done|]. cbn. by rewrite IH. Qed.

Lemma length_partners snapshot l :
  length (partners snapshot l)
  = length (filter (λ k, k = cell_of l "Details")
                   (key_column snapshot "Details")).
Proof.
  unfold partners, key_column. rewrite filter_fmap, length_fmap. done.
Qed.

(** C4 fails where details occur twice: uploading the records of a
    categorised dataset again, with that dataset as the snapshot, returns
    every record once for each record that has its details, so details
    that occur [k] times come back as [k * k] records; any repetition
    makes the result longer than the dataset, where the specification
    has a fixed point. *)
Theorem reconcile_self_multiplies (df : DataFrame) (names : list string) :
  "Details" ∈ columns df →
  "Category" ∉ columns df →
  length names = length (rows df) →
  ∃ out,
    reconcile (Frame.setitem df "Category" (VStr <$> names)) df = Ok out
    ∧ length (rows out)
      = sum_list_with
          (λ k, length (filter (λ k', k' = k) (key_column df "Details")))
          (key_column df "Details")
    ∧ (¬ NoDup (key_column df "Details") →
       length (rows df) < length (rows out)).
Proof.
  intros HD HC Hlen.
  set (snapshot := Frame.setitem df "Category" (VStr <$> names)).
  assert (key_column snapshot "Details" = key_column df "Details") as Hkeys.
  { subst snapshot. by rewrite setitem_details by (by rewrite length_fmap). }
  assert (columns snapshot = columns df ++ ["Category"]) as Hcols.
  { cbn. unfold Frame.add_column. by rewrite decide_False. }
  assert (length (rows df ≫= λ l,
            (λ v, <["Category" := fill_category v]> (left_row df l))
              <$> joined_categories snapshot l)
          = sum_list_with
              (λ k, length (filter (λ k', k' = k) (key_column df "Details")))
              (key_column df "Details")) as Hcount.
  { rewrite (length_bind_with _
               (λ l, length (filter (λ k', k' = cell_of l "Details")
                                    (key_column df "Details")))).
    - unfold key_column at 3. by rewrite sum_list_with_key.
    - intros l Hl. rewrite length_fmap. unfold joined_categories.
      pose proof (length_partners snapshot l) as Hp. rewrite Hkeys in Hp.
      destruct (partners snapshot l) as [|r ms];
        [|by rewrite length_fmap]. exfalso.
      symmetry in Hp. apply nil_length_inv in Hp.
      assert (cell_of l "Details"
              ∈ filter (λ k, k = cell_of l "Details")
                       (key_column df "Details")) as Hin.
      { apply list_elem_of_filter. split; [done|].
        unfold key_column. apply list_elem_of_fmap. by exists l. }
      rewrite Hp in Hin. by apply elem_of_nil in Hin. }
  eexists. split.
  { apply reconcile_spec; [done | done | | |].
    - rewrite Hcols. apply elem_of_app. by left.
    - rewrite Hcols. apply elem_of_app. right. apply list_elem_of_here.
    - rewrite Hkeys. apply same_kind_refl. }
  cbn [rows]. split; [exact Hcount|].
  intros Hdup. rewrite Hcount.
  replace (length (rows df)) with (length (key_column df "Details"))
    by (unfold key_column; by rewrite length_fmap).
  by apply sum_occurrences.
Qed.

Lemma reconcile_self_multiplies_witness :
  ∃ out,
    reconcile
      (Frame.setitem coffee_twice "Category" [VStr "Dining"; VStr "Travel"])
      coffee_twice = Ok out
    ∧ length (rows coffee_twice) = 2
    ∧ length (rows out) = 4
    ∧ Frame.getitem out "Category"
      = Ok [VStr "Dining"; VStr "Travel"; VStr "Dining"; VStr "Travel"].
Proof.
  destruct (reconcile_self_multiplies coffee_twice ["Dining"; "Travel"])
    as (out & Hout & Hlen & _).
  - apply list_elem_of_here.
  - cbn. intros Hin. apply list_elem_of_singleton in Hin. discriminate.
  - reflexivity.
  - exists out. split; [exact Hout|]. split; [reflexivity|].
    split; [rewrite Hlen; by vm_compute|].
    vm_compute in Hout. injection Hout as <-. vm_compute. reflexivity.
Defined.

(** Counterexample to C8 as first worded, after three runs of the
    script: moving a record back to "Uncategorized" makes the learner
    store its details as a keyword of "Uncategorized". *)
Lemma uncategorized_learns_keyword :
  reachable session_3
  ∧ Dict.get "Uncategorized" (categories session_3) = Ok ["COFFEE"].
Proof.
  split.
  - unfold session_3, session_2, session_1.
    repeat apply reach_main. apply reach_new.
  - vm_compute. reflexivity.
Qed.

(** ** Ingestion *)

Module StrptimeFacts.
Import Strptime.

Lemma digit_digit_char n :
  n < 10 →
  ascii_digit [digit_char n] = Some n ∧ digit [digit_char n] = Some n.
Proof.
  intros Hn. do 10 (destruct n as [|n]; [by vm_compute|]). lia.
Qed.

(** A digit is one byte, no white space, and starts none of the texts
    that stand for a missing date. *)
Lemma digit_char_plain n :
  n < 10 →
  Text.is_cont (digit_char n) = false
  ∧ Text.isspace [digit_char n] = false
  ∧ [digit_char n] ≠ [" "%char] ∧ ["/"%char] ≠ [digit_char n]
  ∧ digit_char n ≠ "N"%char ∧ digit_char n ≠ "n"%char.
Proof.
  intros Hn. do 10 (destruct n as [|n]; [by vm_compute|]). lia.
Qed.

Lemma two_plain n :
  n < 100 → Forall (λ a, Text.is_cont a = false) (two n).
Proof.
  intros Hn. unfold two.
  repeat constructor; apply digit_char_plain;
    [apply Nat.Div0.div_lt_upper_bound | apply Nat.mod_upper_bound]; lia.
Qed.

Lemma four_plain n :
  n < 10 * 1000 → Forall (λ a, Text.is_cont a = false) (four n).
Proof.
  intros Hn. unfold four.
  repeat constructor; apply digit_char_plain;
    try (apply Nat.mod_upper_bound; lia).
  apply Nat.Div0.div_lt_upper_bound. lia.
Qed.

Lemma two_digits_two wide lo hi n rest :
  n < 100 → lo ≤ n → n ≤ hi →
  two_digits wide lo hi (((λ a, [a]) <$> two n) ++ rest) = [(n, rest)].
Proof.
  intros Hn Hlo Hhi. unfold two_digits, two. cbn [app fmap list_fmap].
  assert (n / 10 < 10) as H1 by (apply Nat.Div0.div_lt_upper_bound; lia).
  assert (n mod 10 < 10) as H2 by (apply Nat.mod_upper_bound; lia).
  destruct (digit_digit_char _ H1) as [-> _].
  destruct (digit_digit_char _ H2) as [-> ->].
  assert ((if wide (n / 10) then Some (n mod 10) else Some (n mod 10))
          = Some (n mod 10)) as -> by (by destruct (wide _)).
  replace (10 * (n / 10) + n mod 10) with n
    by (rewrite (Nat.div_mod_eq n 10) at 1; lia).
  apply Nat.leb_le in Hlo, Hhi. by rewrite Hlo, Hhi.
Qed.

Lemma four_digits_four n rest :
  n < 10 * 1000 →
  four_digits (((λ a, [a]) <$> four n) ++ rest) = [(n, rest)].
Proof.
  intros Hn. unfold four_digits, four. cbn [app fmap list_fmap].
  assert (n / 1000 < 10) as H1 by (apply Nat.Div0.div_lt_upper_bound; lia).
  assert (n / 100 mod 10 < 10) as H2 by (apply Nat.mod_upper_bound; lia).
  assert (n / 10 mod 10 < 10) as H3 by (apply Nat.mod_upper_bound; lia).
  assert (n mod 10 < 10) as H4 by (apply Nat.mod_upper_bound; lia).
  destruct (digit_digit_char _ H1) as [_ ->].
  destruct (digit_digit_char _ H2) as [_ ->].
  destruct (digit_digit_char _ H3) as [_ ->].
  destruct (digit_digit_char _ H4) as [_ ->].
  do 2 f_equal.
  pose proof (Nat.div_mod_eq n 10).
  pose proof (Nat.div_mod_eq (n / 10) 10).
  pose proof (Nat.div_mod_eq (n / 100) 10).
  replace (n / 100) with (n / 10 / 10) in * by (rewrite Nat.Div0.div_div; done).
  replace (n / 1000) with (n / 10 / 10 / 10) by (rewrite !Nat.Div0.div_div; done).
  lia.
Qed.

Lemma valid_bounds d :
  valid d = true → 1 ≤ day d ∧ day d ≤ 31 ∧ 1 ≤ month d ∧ month d ≤ 12.
Proof.
  unfold valid. rewrite !andb_true_iff, !Nat.leb_le.
  intros ((((_ & Hm1) & Hm12) & Hd1) & Hd).
  repeat split; try done.
  etransitivity; [exact Hd|]. unfold days_in_month.
  destruct (month d) as [|[|[|[|[|[|[|[|[|[|[|[|?]]]]]]]]]]]];
    try destruct (leap _); lia.
Qed.

Lemma in_bounds_year d : in_bounds d = true → year d < 10 * 1000.
Proof.
  unfold in_bounds, date_le. cbn [year month day]. intros H.
  apply andb_true_iff in H as [_ H]. apply orb_true_iff in H as [H|H].
  - apply Nat.ltb_lt in H. lia.
  - apply andb_true_iff in H as [H _]. apply Nat.eqb_eq in H. lia.
Qed.


(** A text that starts with a digit does not stand for a missing date. *)
Lemma digit_text_not_missing n rest :
  n < 10 → string_of_list_ascii (digit_char n :: rest) ∉ nat_strings.
Proof.
  intros Hn Hin. destruct (digit_char_plain n Hn) as (_ & _ & _ & _ & H1 & H2).
  cbn [string_of_list_ascii] in Hin. unfold nat_strings in Hin.
  repeat (apply elem_of_cons in Hin as [Hin|Hin];
          [try discriminate Hin; injection Hin as Hc _; done|]).
  by apply elem_of_nil in Hin.
Qed.

End StrptimeFacts.

Lemma to_datetime_raises col fmt e :
  to_datetime col fmt = Raise e → e = ValueError.
Proof.
  unfold to_datetime. induction col as [|v col IH]; cbn; [done|].
  destruct (to_datetime_cell fmt v) as [x|e'] eqn:Hv; cbn.
  - destruct (map_result _ col); cbn; [done|]. intros [= <-]. by apply IH.
  - intros [= <-]. destruct v as [t| | |]; cbn in Hv; try done.
    + destruct (bool_decide _); [done|].
      destruct (Strptime.strptime t fmt) as [d|]; [|by injection Hv as <-].
      destruct (in_bounds d); [done|]. by injection Hv as <-.
    + by injection Hv as <-.
Qed.


Section DateNormalization.

Variable g : list cell → result (list cell).

Lemma normalize_date_first df col ds :
  Frame.getitem df "Date" = Ok col →
  to_datetime col "%d/%m/%Y" = Ok ds →
  normalize_date g df = Ok (Frame.setitem df "Date" ds).
Proof. intros Hc H1. unfold normalize_date. by rewrite Hc; cbn; rewrite H1. Qed.

Lemma normalize_date_second df col ds :
  Frame.getitem df "Date" = Ok col →
  to_datetime col "%d/%m/%Y" = Raise ValueError →
  to_datetime col "%d %b %Y" = Ok ds →
  normalize_date g df = Ok (Frame.setitem df "Date" ds).
Proof.
  intros Hc H1 H2. unfold normalize_date.
  by rewrite Hc; cbn; rewrite H1, H2.
Qed.

Lemma normalize_date_third df col :
  Frame.getitem df "Date" = Ok col →
  to_datetime col "%d/%m/%Y" = Raise ValueError →
  to_datetime col "%d %b %Y" = Raise ValueError →
  normalize_date g df = (ds ← g col; Ok (Frame.setitem df "Date" ds)).
Proof.
  intros Hc H1 H2. unfold normalize_date.
  by rewrite Hc; cbn; rewrite H1, H2.
Qed.

Lemma normalize_date_missing df :
  "Date" ∉ columns df → normalize_date g df = Raise KeyError.
Proof.
  intros Hc. unfold normalize_date, Frame.getitem.
  by rewrite decide_False.
Qed.

Lemma normalize_date_columns df df' :
  normalize_date g df = Ok df' →
  columns df' = Frame.add_column "Date" (columns df).
Proof.
  unfold normalize_date.
  destruct (Frame.getitem df "Date") as [col|e]; cbn; [|by destruct e].
  destruct (to_datetime col "%d/%m/%Y") as [d1|e1] eqn:H1; cbn.
  { by intros [= <-]. }
  rewrite (to_datetime_raises _ _ _ H1). cbn.
  destruct (to_datetime col "%d %b %Y") as [d2|e2] eqn:H2; cbn.
  { by intros [= <-]. }
  rewrite (to_datetime_raises _ _ _ H2). cbn.
  destruct (g col) as [d3|e3]; cbn; [|done]. by intros [= <-].
Qed.

End DateNormalization.

Lemma elem_of_add_column c c' cols :
  c' ≠ c → c' ∈ Frame.add_column c cols ↔ c' ∈ cols.
Proof.
  intros Hne. unfold Frame.add_column. case_decide; [done|].
  rewrite elem_of_app, list_elem_of_singleton. intuition congruence.
Qed.

Lemma getitem_missing df c : c ∉ columns df → Frame.getitem df c = Raise KeyError.
Proof. intros Hc. unfold Frame.getitem. by rewrite decide_False. Qed.

Lemma getitem_length df c col :
  Frame.getitem df c = Ok col → length col = length (rows df).
Proof.
  unfold Frame.getitem. case_decide; [|done]. intros [= <-].
  by rewrite length_fmap.
Qed.

Lemma getitem_setitem_ne df c c' vs :
  c' ≠ c → length vs = length (rows df) →
  Frame.getitem (Frame.setitem df c vs) c' = Frame.getitem df c'.
Proof.
  intros Hne Hlen. unfold Frame.getitem. cbn [Frame.setitem columns rows].
  destruct (decide (c' ∈ columns df)) as [Hin|Hin].
  - rewrite decide_True by (by apply elem_of_add_column). f_equal.
    apply list_eq. intros i. rewrite !list_lookup_fmap, lookup_zip_with.
    destruct (rows df !! i) as [r|] eqn:Hr; [|done]. cbn.
    destruct (lookup_lt_is_Some_2 vs i) as [v ->].
    { rewrite Hlen. by eapply lookup_lt_Some. }
    cbn. by rewrite lookup_insert_ne.
  - by rewrite decide_False by (by rewrite elem_of_add_column).
Qed.

Lemma getitem_setitem_eq df c vs :
  length vs = length (rows df) →
  Frame.getitem (Frame.setitem df c vs) c = Ok vs.
Proof.
  intros Hlen. unfold Frame.getitem. cbn [Frame.setitem columns rows].
  rewrite decide_True.
  - f_equal. apply list_eq. intros i.
    rewrite list_lookup_fmap, lookup_zip_with.
    destruct (vs !! i) as [v|] eqn:Hv.
    + destruct (lookup_lt_is_Some_2 (rows df) i) as [r ->].
      { rewrite <- Hlen. by eapply lookup_lt_Some. }
      cbn. by rewrite lookup_insert_eq.
    + by destruct (rows df !! i).
  - unfold Frame.add_column. case_decide; [done|].
    apply elem_of_app. right. apply list_elem_of_here.
Qed.

(** Setting the [Date] column changes that column and no other. *)
Lemma setitem_dated df col ds :
  Frame.getitem df "Date" = Ok col →
  length ds = length col →
  dated df (Frame.setitem df "Date" ds) ds.
Proof.
  intros Hcol Hlen. pose proof (getitem_length _ _ _ Hcol) as Hrows.
  assert ("Date" ∈ columns df) as Hin.
  { unfold Frame.getitem in Hcol. by case_decide. }
  split; [apply getitem_setitem_eq; congruence|]. split.
  - cbn. unfold Frame.add_column. by rewrite decide_True.
  - intros c Hc. apply getitem_setitem_ne; [done | congruence].
Qed.

Section IngestionFacts.

Variable f : string → option Qc.
Variable g : list cell → result (list cell).

Lemma normalize_amount_missing df :
  "Amount" ∉ columns df → normalize_amount f df = Raise KeyError.
Proof. intros Hc. unfold normalize_amount. by rewrite getitem_missing. Qed.

Lemma normalize_amount_malformed df col t :
  Frame.getitem df "Amount" = Ok col →
  VStr t ∈ col →
  f (Text.remove_commas t) = None →
  ∃ e, normalize_amount f df = Raise e.
Proof.
  intros Hcol Ht Hf. unfold normalize_amount. rewrite Hcol. cbn.
  assert (is_object col = true) as ->.
  { unfold is_object. apply existsb_exists. exists (VStr t).
    split; [by apply list_elem_of_In | done]. }
  destruct (map_result_Raise (astype_float f) (replace_commas <$> col)
              (VStr (Text.remove_commas t)) ValueError) as [e He].
  - by apply (list_elem_of_fmap_2 replace_commas col (VStr t)).
  - cbn. by rewrite Hf.
  - exists e. by rewrite He.
Qed.

Lemma normalize_amount_Ok df df' :
  normalize_amount f df = Ok df' →
  ∃ vs, df' = Frame.setitem df "Amount" vs ∧ length vs = length (rows df).
Proof.
  unfold normalize_amount.
  destruct (Frame.getitem df "Amount") as [col|] eqn:Hcol; cbn; [|done].
  pose proof (getitem_length _ _ _ Hcol) as Hlen.
  destruct (is_object col).
  - destruct (map_result _ _) as [vs|] eqn:Hvs; cbn; [|done].
    intros [= <-]. exists vs. split; [done|].
    apply map_result_length in Hvs. by rewrite Hvs, length_fmap.
  - intros [= <-]. exists (float_cell <$> col). by rewrite length_fmap.
Qed.


Lemma load_body_unfold s file :
  load_transactions_body f g s file
  = (df ← normalize_amount f (parsed file);
     df ← normalize_date g df;
     classify s df).
Proof. reflexivity. Qed.


Lemma reconcile_missing_details snapshot df :
  "Details" ∉ columns df → ∃ e, reconcile snapshot df = Raise e.
Proof.
  intros Hc. unfold reconcile.
  destruct (select_columns snapshot _) as [right|e]; cbn; [|eauto].
  unfold merge_left. rewrite decide_False by (by intros [? _]). cbn. eauto.
Qed.

Lemma parse_error_load s file :
  parse_error f g s file → load_transactions f g s file = None.
Proof.
  intros Herr. unfold load_transactions. rewrite load_body_unfold.
  destruct Herr as [Ha|col t Hcol Ht Hf|Hd|col e Hcol H1 H2 H3|snap Hd Hs].
  - by rewrite normalize_amount_missing.
  - by destruct (normalize_amount_malformed _ _ _ Hcol Ht Hf) as [e ->].
  - destruct (normalize_amount f (parsed file)) as [df|] eqn:Ha; cbn; [|done].
    apply normalize_amount_Ok in Ha as (vs & -> & Hlen).
    rewrite normalize_date_missing; [done|]. cbn.
    by rewrite elem_of_add_column.
  - destruct (normalize_amount f (parsed file)) as [df|] eqn:Ha; cbn; [|done].
    apply normalize_amount_Ok in Ha as (vs & -> & Hlen).
    rewrite (normalize_date_third _ _ col); [by rewrite H3 | | done | done].
    by rewrite getitem_setitem_ne.
  - destruct (normalize_amount f (parsed file)) as [df|] eqn:Ha; cbn; [|done].
    apply normalize_amount_Ok in Ha as (vs & -> & Hlen).
    destruct (normalize_date g _) as [df2|] eqn:Hdate; cbn; [|done].
    apply normalize_date_columns in Hdate. cbn in Hdate.
    unfold classify. rewrite Hs.
    destruct (reconcile_missing_details snap df2) as [e ->]; [|done].
    rewrite Hdate. by rewrite !elem_of_add_column.
Qed.

Lemma load_categories_frames s :
  debits_df (load_categories s) = debits_df s
  ∧ categorized_transactions (load_categories s) = categorized_transactions s.
Proof. unfold load_categories. by destruct (category_file s). Qed.

(** A file without a [Debit/Credit] column passes [load_transactions];
    [main] then stops at line 106, before the session is touched. *)
Lemma missing_direction_uncaught (s : state) (file : csv) (w : widgets) df :
  uploaded_file w = Some file →
  load_transactions f g (load_categories s) file = Some df →
  "Debit/Credit" ∉ columns df →
  main f g w s = (load_categories s, Uncaught KeyError).
Proof.
  intros Hw Hload Hcol. unfold main. rewrite Hw, Hload.
  unfold Frame.select_eq. by rewrite decide_False.
Qed.

(** The errors that [load_transactions] detects in a statement (no
    [Amount] or [Date] column, an amount that is no number, a date column
    that none of the three conversions accepts, no [Details] column while
    a snapshot exists) abort the ingestion: nothing is returned, the error is shown,
    and the dataset and the snapshot of the session stay as they were. *)
Theorem parse_errors_abort (s : state) (file : csv) (w : widgets) :
  uploaded_file w = Some file →
  fits file →
  parse_error f g s file →
  load_transactions f g (load_categories s) file = None
  ∧ main f g w s = (load_categories s, ErrorShown)
  ∧ debits_df (main f g w s).1 = debits_df s
  ∧ categorized_transactions (main f g w s).1 = categorized_transactions s.
Proof.
  intros Hw _ Herr. destruct (load_categories_frames s) as [Hdeb Hsnap].
  assert (load_transactions f g (load_categories s) file = None) as Hload.
  { apply parse_error_load.
    destruct Herr as [Ha|col t Hcol Ht Hf|Hd|col e Hcol H1 H2 H3|snap Hd Hs].
    - by apply MissingAmount.
    - by eapply MalformedAmount.
    - by apply MissingDate.
    - by eapply MalformedDate.
    - eapply MissingDetails; [done|]. by rewrite Hsnap. }
  assert (main f g w s = (load_categories s, ErrorShown)) as Hmain.
  { unfold main. by rewrite Hw, Hload. }
  by rewrite Hmain.
Qed.

End IngestionFacts.



Lemma parse_errors_abort_witness :
  main no_float no_dayfirst
    (mkWidgets (Some malformed_statement) false "" id false) session_2
  = (load_categories session_2, ErrorShown)
  ∧ debits_df
      (main no_float no_dayfirst
         (mkWidgets (Some malformed_statement) false "" id false) session_2).1
    = debits_df session_2.
Proof.
  destruct (parse_errors_abort no_float no_dayfirst session_2
              malformed_statement
              (mkWidgets (Some malformed_statement) false "" id false))
    as (_ & Hmain & Hdebits & _).
  - reflexivity.
  - split.
    + constructor; [|constructor]. apply Nat.leb_le. reflexivity.
    + apply (bool_decide_unpack _). by vm_compute.
  - apply (MalformedAmount no_float no_dayfirst session_2 malformed_statement
             [VStr "12,5O"] "12,5O").
    + reflexivity.
    + apply list_elem_of_here.
    + reflexivity.
  - split; [exact Hmain | exact Hdebits].
Defined.

(** C9 fails at a file without a [Details] column uploaded to a session
    that holds a dataset, no snapshot and no keyword: nothing reads the
    missing column, so [load_transactions] returns a dataset without
    details, [main] puts it in the place of the dataset of the session,
    and only then stops with an uncaught [KeyError]. *)
Lemma missing_details_not_detected :
  "Details" ∉ columns (parsed statement_without_details)
  ∧ columns <$> load_transactions no_float no_dayfirst
                  (load_categories session_1) statement_without_details
    = Some ["Date"; "Amount"; "Debit/Credit"; "Category"]
  ∧ (main no_float no_dayfirst
       (mkWidgets (Some statement_without_details) false "" id false)
       session_1).2 = Uncaught KeyError
  ∧ columns <$> debits_df session_1
    = Some ["Date"; "Details"; "Amount"; "Debit/Credit"; "Category"]
  ∧ columns <$> debits_df
                  (main no_float no_dayfirst
                     (mkWidgets (Some statement_without_details) false "" id
                        false)
                     session_1).1
    = Some ["Date"; "Amount"; "Debit/Credit"; "Category"].
Proof.
  split.
  - vm_compute. intros Hin. apply list_elem_of_In in Hin. cbn in Hin.
    intuition discriminate.
  - repeat split; vm_compute; reflexivity.
Qed.

(** * Further properties *)

(** ** The store across runs *)

Lemma learn_keyword_debits nc dt s s' b :
  learn_keyword nc dt s = Ok (s', b) →
  debits_df s' = debits_df s
  ∧ categorized_transactions s' = categorized_transactions s.
Proof.
  unfold learn_keyword. destruct (as_str dt) as [k|]; cbn; [|done].
  destruct nc as [c| | |];
    try (destruct (Text.truthy _); [done | by intros [= <- <-]]).
  unfold add_keyword_to_category.
  destruct (Text.truthy _); [|by intros [= <- <-]].
  destruct (Dict.get c (categories s)) as [kws|]; cbn; [|done].
  by case_bool_decide; intros [= <- <-].
Qed.

(** A property of the store that every operation of a run keeps. *)
Section StoreStep.

Variable I : state → Prop.
Hypothesis I_debits : ∀ df s, I s → I (set_debits_df df s).
Hypothesis I_snapshot : ∀ df s, I s → I (set_categorized_transactions df s).
Hypothesis I_save : ∀ s, I s → I (save_categories s).
Hypothesis I_create : ∀ b name s, I s → I (add_category b name s).1.
Hypothesis I_keyword :
  ∀ c k s s' b, I s → add_keyword_to_category c k s = Ok (s', b) → I s'.

Lemma step_learn_keyword nc dt s s' b :
  I s → learn_keyword nc dt s = Ok (s', b) → I s'.
Proof.
  intros Hs. unfold learn_keyword.
  destruct (as_str dt) as [k|]; cbn; [|done].
  destruct nc as [c| | |];
    try (destruct (Text.truthy _); [done | by intros [= <- <-]]).
  by apply I_keyword.
Qed.

Lemma step_apply_edit edited_df it s : I s → I (apply_edit edited_df it s).1.
Proof.
  intros Hs. destruct it as [idx row]. unfold apply_edit.
  destruct (Frame.row_get edited_df row "Category") as [nc|]; [|done].
  destruct (Frame.at_get _ idx "Category") as [oc|]; [|done].
  case_decide; [|done].
  destruct (Frame.row_get edited_df row "Details") as [dt|]; [|done].
  destruct (learn_keyword nc dt _) as [[s' b]|] eqn:Hl; cbn.
  - eapply step_learn_keyword; [|exact Hl]. by apply I_debits.
  - by apply I_debits.
Qed.

Lemma step_apply_edits edited_df its s :
  I s → I (apply_edits edited_df its s).1.
Proof.
  revert s. induction its as [|it its IH]; intros s Hs; [done|]. cbn.
  pose proof (step_apply_edit edited_df it s Hs) as Hstep.
  destruct (apply_edit edited_df it s) as [s1 [e|]]; [done|].
  by apply IH.
Qed.

Lemma step_apply_changes edited_df s : I s → I (apply_changes edited_df s).1.
Proof.
  intros Hs. unfold apply_changes.
  pose proof (step_apply_edits edited_df (Frame.iterrows edited_df) s Hs)
    as Hloop.
  destruct (apply_edits _ _ s) as [s1 [e|]]; [done|]. cbn.
  by apply I_snapshot, I_save.
Qed.

(** What [main] does after [load_categories]. *)
Lemma step_main f g w s :
  I (load_categories s) → I (main f g w s).1.
Proof.
  intros Hs. unfold main.
  destruct (uploaded_file w) as [file|]; [|done].
  destruct (load_transactions f g _ file) as [df|]; [|done].
  destruct (Frame.select_eq df _ _) as [debits|]; [|done].
  pose proof (I_create (add_button w) (new_category w) _
                (I_debits debits _ Hs)) as Hadd.
  destruct (add_category _ _ _) as [s1 inserted]. cbn in Hadd.
  destruct inserted; [done|].
  destruct (select_columns debits _) as [shown|]; [|done].
  destruct (save_button w); [|done].
  by apply step_apply_changes.
Qed.

End StoreStep.

Lemma synced_load s : synced (load_categories s).
Proof.
  unfold synced, load_categories.
  destruct (category_file s) as [d|] eqn:Hd; cbn.
  - rewrite Hd. by intros d' [= <-].
  - by rewrite Hd.
Qed.

Lemma synced_save s : synced (save_categories s).
Proof. by intros d [= <-]. Qed.

Lemma synced_add_category b name s :
  synced s → synced (add_category b name s).1.
Proof.
  intros Hs. unfold add_category.
  destruct (b && Text.truthy name); [|done].
  destruct (negb _); [apply synced_save | done].
Qed.

Lemma synced_add_keyword c k s s' b :
  synced s → add_keyword_to_category c k s = Ok (s', b) → synced s'.
Proof.
  intros Hs. unfold add_keyword_to_category.
  destruct (Text.truthy _); [|by intros [= <- <-]].
  destruct (Dict.get c (categories s)) as [kws|]; cbn; [|done].
  case_bool_decide; intros [= <- <-]; [apply synced_save | done].
Qed.

(** X1.  After a run of [main], however it ends, a [categories.json]
    that exists holds exactly the categories of the session: no change of
    the store stays unwritten. *)
Theorem main_keeps_file_in_step f g (w : widgets) (s : state) (d : dict) :
  category_file (main f g w s).1 = Some d →
  d = categories (main f g w s).1.
Proof.
  revert d. change (synced (main f g w s).1).
  apply step_main; try done.
  - intros ? ?. apply synced_save.
  - apply synced_add_category.
  - apply synced_add_keyword.
  - apply synced_load.
Qed.

Lemma main_keeps_file_in_step_witness :
  [("Uncategorized", []); ("Food", [])]
  = categories
      (main no_float no_dayfirst
         (mkWidgets (Some coffee_statement) true "Food" id false)
         (new_session None)).1.
Proof.
  apply (main_keeps_file_in_step no_float no_dayfirst
           (mkWidgets (Some coffee_statement) true "Food" id false)
           (new_session None)).
  by vm_compute.
Defined.

Global Instance grows_refl : Reflexive grows.
Proof. intros d c kws Hget. exists []. by rewrite app_nil_r. Qed.

Global Instance grows_trans : Transitive grows.
Proof.
  intros d1 d2 d3 H12 H23 c kws Hget.
  destruct (H12 c kws Hget) as [m1 H1]. destruct (H23 c _ H1) as [m2 H2].
  exists (m1 ++ m2). by rewrite app_assoc.
Qed.

Lemma get_app_l k d d' v : Dict.get k d = Ok v → Dict.get k (d ++ d') = Ok v.
Proof.
  induction d as [|[k' v'] d IH]; cbn; [done|].
  case_decide; [done | apply IH].
Qed.

Lemma grows_add_category b name s :
  grows (categories s) (categories (add_category b name s).1).
Proof.
  unfold add_category. destruct (b && Text.truthy name); [|reflexivity].
  destruct (Dict.contains name (categories s)) eqn:Hin; [reflexivity|]. cbn.
  unfold Dict.set. rewrite Hin. intros c kws Hget. exists [].
  rewrite app_nil_r. by apply get_app_l.
Qed.

Lemma grows_add_keyword c k s s' b :
  add_keyword_to_category c k s = Ok (s', b) →
  grows (categories s) (categories s').
Proof.
  unfold add_keyword_to_category.
  destruct (Text.truthy _); [|intros [= <- <-]; reflexivity].
  destruct (Dict.get c (categories s)) as [kws|] eqn:Hget; cbn; [|done].
  case_bool_decide; intros [= <- <-]; [|reflexivity]. cbn.
  intros c' kws' Hget'. destruct (decide (c' = c)) as [->|Hne].
  - rewrite Hget in Hget'. injection Hget' as <-.
    exists [Text.strip k]. by eapply DictFacts.get_update_eq.
  - exists []. rewrite app_nil_r. by rewrite DictFacts.get_update_ne.
Qed.

(** X2.  A run of [main] forgets nothing: every category that the
    session has once the file is loaded is still there when the run ends,
    and its keyword list has only grown at its end. *)
Theorem main_never_forgets f g (w : widgets) (s : state) c kws :
  Dict.get c (categories (load_categories s)) = Ok kws →
  ∃ more, Dict.get c (categories (main f g w s).1) = Ok (kws ++ more).
Proof.
  revert c kws.
  change (grows (categories (load_categories s))
                (categories (main f g w s).1)).
  apply (step_main (λ s', grows (categories (load_categories s))
                                (categories s'))).
  - done.
  - done.
  - done.
  - intros b name s' Hs'. etransitivity; [exact Hs'|].
    apply grows_add_category.
  - intros c k s1 s2 b Hs1 Hk. etransitivity; [exact Hs1|].
    by eapply grows_add_keyword.
  - reflexivity.
Qed.

Lemma main_never_forgets_witness :
  ∃ more,
    Dict.get "Food"
      (categories
         (main no_float no_dayfirst
            (mkWidgets (Some coffee_statement) false ""
               (recategorize "Uncategorized") true)
            session_2).1)
    = Ok (["COFFEE"] ++ more).
Proof.
  apply (main_never_forgets no_float no_dayfirst
           (mkWidgets (Some coffee_statement) false ""
              (recategorize "Uncategorized") true)
           session_2 "Food" ["COFFEE"]).
  by vm_compute.
Defined.

Lemma clean_keywords_update c kws k d :
  clean_keywords d →
  Dict.get c d = Ok kws →
  k ∉ kws → k ≠ "" → Text.strip k = k →
  clean_keywords (Dict.update c (kws ++ [k]) d).
Proof.
  intros Hd Hget Hk Hne Hstrip. revert Hd Hget.
  induction d as [|[c' v'] d IH]; intros Hd Hget; cbn in *; [done|].
  assert (clean_keywords d) as Hd'.
  { intros c0 kws0 Hin. apply (Hd c0 kws0). by right. }
  case_decide as Hc.
  - injection Hget as ->. intros c0 kws0 Hin.
    apply elem_of_cons in Hin as [[= -> ->]|Hin]; [|exact (Hd' _ _ Hin)].
    destruct (Hd c' kws) as [Hnd Hall]; [left|].
    split.
    + apply NoDup_app. split; [done|]. split; [|apply NoDup_singleton].
      intros x Hx Hx'. apply list_elem_of_singleton in Hx' as ->. done.
    + intros x Hx. apply elem_of_app in Hx as [Hx|Hx]; [by apply Hall|].
      by apply list_elem_of_singleton in Hx as ->.
  - intros c0 kws0 Hin.
    apply elem_of_cons in Hin as [[= -> ->]|Hin].
    + apply (Hd c' v'). left.
    + exact (IH Hd' Hget _ _ Hin).
Qed.

Lemma clean_keywords_set_new name d :
  clean_keywords d → Dict.contains name d = false →
  clean_keywords (Dict.set name [] d).
Proof.
  intros Hd Hin. unfold Dict.set. rewrite Hin. intros c kws Hc.
  apply elem_of_app in Hc as [Hc|Hc]; [exact (Hd _ _ Hc)|].
  apply list_elem_of_singleton in Hc as [= -> ->].
  split; [apply NoDup_nil_2|]. intros k Hk. by apply elem_of_nil in Hk.
Qed.

Lemma store_clean_save s :
  clean_keywords (categories s) → store_clean (save_categories s).
Proof. intros Hc. split; cbn; [done|]. by intros d [= <-]. Qed.

Lemma store_clean_add_category b name s :
  store_clean s → store_clean (add_category b name s).1.
Proof.
  intros [Hc Hf]. unfold add_category.
  destruct (b && Text.truthy name); [|done].
  destruct (Dict.contains name (categories s)) eqn:Hin; [done|]. cbn.
  apply store_clean_save. cbn. by apply clean_keywords_set_new.
Qed.

Lemma store_clean_add_keyword c k s s' b :
  store_clean s → add_keyword_to_category c k s = Ok (s', b) → store_clean s'.
Proof.
  intros [Hc Hf]. unfold add_keyword_to_category, Text.truthy.
  case_bool_decide as Hk; [|by intros [= <- <-]].
  destruct (Dict.get c (categories s)) as [kws|] eqn:Hget; cbn; [|done].
  case_bool_decide; intros [= <- <-]; [|done].
  apply store_clean_save. cbn.
  apply clean_keywords_update; [done..|]. apply TextFacts.strip_idemp.
Qed.

Lemma store_clean_load s : store_clean s → store_clean (load_categories s).
Proof.
  intros [Hc Hf]. unfold load_categories.
  destruct (category_file s) as [d|] eqn:Hd; [|split; [done|by rewrite Hd]].
  split; cbn; [by apply Hf | by rewrite Hd].
Qed.

Lemma store_clean_reachable s : reachable s → store_clean s.
Proof.
  assert (∀ df s, store_clean s → store_clean (set_debits_df df s))
    as Hdeb by (by intros df s0 [? ?]).
  assert (∀ df s, store_clean s → store_clean (set_categorized_transactions df s))
    as Hsnap by (by intros df s0 [? ?]).
  assert (∀ s, store_clean s → store_clean (save_categories s))
    as Hsave by (intros s0 [? ?]; by apply store_clean_save).
  induction 1 as [|s _ IH|s _ IH|s b name _ IH|s c k s' b _ IH Hk|s e _ IH
                  |s f g w _ IH].
  - split; [|done]. intros c kws Hin.
    apply list_elem_of_singleton in Hin as [= -> ->].
    split; [apply NoDup_nil_2|]. intros k Hk. by apply elem_of_nil in Hk.
  - destruct IH as [_ Hf]. split; [|exact Hf]. intros c kws Hin.
    apply list_elem_of_singleton in Hin as [= -> ->].
    split; [apply NoDup_nil_2|]. intros k Hk. by apply elem_of_nil in Hk.
  - by apply store_clean_load.
  - by apply store_clean_add_category.
  - by eapply store_clean_add_keyword.
  - apply (step_apply_changes store_clean);
      [exact Hdeb | exact Hsnap | exact Hsave
      | apply store_clean_add_keyword | exact IH].
  - apply (step_main store_clean);
      [exact Hdeb | exact Hsnap | exact Hsave
      | apply store_clean_add_category | apply store_clean_add_keyword
      | by apply store_clean_load].
Qed.

(** X3.  In every state that a session reaches, a keyword list of
    the store has no duplicates, and each of its keywords is non-empty and
    trimmed. *)
Theorem stored_keywords_are_clean (s : state) c kws :
  reachable s →
  (c, kws) ∈ categories s →
  NoDup kws ∧ ∀ k, k ∈ kws → k ≠ "" ∧ Text.strip k = k.
Proof.
  intros Hs Hin. apply store_clean_reachable in Hs as [Hc _].
  exact (Hc c kws Hin).
Qed.

Lemma stored_keywords_are_clean_witness :
  NoDup ["COFFEE"] ∧ ∀ k, k ∈ ["COFFEE"] → k ≠ "" ∧ Text.strip k = k.
Proof.
  apply (stored_keywords_are_clean session_2 "Food" ["COFFEE"]).
  - unfold session_2, session_1. apply reach_main, reach_main, reach_new.
  - vm_compute. apply list_elem_of_further, list_elem_of_here.
Defined.

(** X4.  A run of [main] in which neither button is pressed keeps
    the categories as they were loaded and leaves [categories.json] and the
    snapshot as they were, whatever is uploaded. *)
Theorem viewing_learns_nothing f g (w : widgets) (s : state) :
  add_button w = false →
  save_button w = false →
  categories (main f g w s).1 = categories (load_categories s)
  ∧ category_file (main f g w s).1 = category_file s
  ∧ categorized_transactions (main f g w s).1 = categorized_transactions s.
Proof.
  intros Hadd Hsave.
  assert (category_file (load_categories s) = category_file s
          ∧ categorized_transactions (load_categories s)
            = categorized_transactions s) as [Hf Hc].
  { unfold load_categories.
    destruct (category_file s) as [d|] eqn:Hd; cbn; by rewrite ?Hd. }
  unfold main. rewrite Hadd, Hsave. cbv zeta.
  destruct (uploaded_file w) as [file|]; [|by cbn].
  destruct (load_transactions f g _ file) as [df|]; [|by cbn].
  destruct (Frame.select_eq df _ _) as [debits|]; [|by cbn].
  cbn. by destruct (select_columns debits _).
Qed.

Lemma viewing_learns_nothing_witness :
  categories
    (main no_float no_dayfirst
       (mkWidgets (Some coffee_statement) false "" id false) session_2).1
  = categories (load_categories session_2)
  ∧ category_file
      (main no_float no_dayfirst
         (mkWidgets (Some coffee_statement) false "" id false) session_2).1
    = category_file session_2
  ∧ categorized_transactions
      (main no_float no_dayfirst
         (mkWidgets (Some coffee_statement) false "" id false) session_2).1
    = categorized_transactions session_2.
Proof.
  apply (viewing_learns_nothing no_float no_dayfirst
           (mkWidgets (Some coffee_statement) false "" id false) session_2);
    reflexivity.
Defined.

(** ** Applying the user's edits *)

Lemma at_set_frame_rel df idx v :
  frame_rel df (Frame.at_set df idx "Category" v).
Proof.
  split; [done|]. cbn. apply Forall2_alter_r; [reflexivity|].
  intros x y _ _ Hxy. etransitivity; [exact Hxy|].
  apply same_but_category_insert.
Qed.

Lemma apply_edit_frame edited_df it s :
  frame_rel (session_dataset s)
            (session_dataset (apply_edit edited_df it s).1).
Proof.
  destruct it as [idx row]. unfold apply_edit.
  destruct (Frame.row_get edited_df row "Category") as [nc|]; [|reflexivity].
  fold (session_dataset s).
  destruct (Frame.at_get _ idx "Category") as [oc|]; [|reflexivity].
  case_decide; [|reflexivity].
  destruct (Frame.row_get edited_df row "Details") as [dt|]; [|reflexivity].
  destruct (learn_keyword nc dt _) as [[s' b]|] eqn:Hl; cbn.
  - apply learn_keyword_debits in Hl as [Hd _].
    unfold session_dataset at 2. rewrite Hd. cbn. apply at_set_frame_rel.
  - apply at_set_frame_rel.
Qed.

Lemma apply_edit_other edited_df idx row s i :
  i ≠ idx →
  rows (session_dataset (apply_edit edited_df (idx, row) s).1) !! i
  = rows (session_dataset s) !! i.
Proof.
  intros Hi. unfold apply_edit.
  destruct (Frame.row_get edited_df row "Category") as [nc|]; [|done].
  fold (session_dataset s).
  destruct (Frame.at_get _ idx "Category") as [oc|]; [|done].
  case_decide; [|done].
  destruct (Frame.row_get edited_df row "Details") as [dt|]; [|done].
  assert (rows (Frame.at_set (session_dataset s) idx "Category" nc) !! i
          = rows (session_dataset s) !! i) as Hrow.
  { cbn. by rewrite list_lookup_alter_ne. }
  destruct (learn_keyword nc dt _) as [[s' b]|] eqn:Hl; cbn.
  - apply learn_keyword_debits in Hl as [Hd _].
    unfold session_dataset at 1. by rewrite Hd.
  - done.
Qed.

Lemma apply_edit_done edited_df idx row s s' :
  apply_edit edited_df (idx, row) s = (s', None) →
  ∃ r', rows (session_dataset s') !! idx = Some r'
        ∧ cell_of r' "Category" = cell_of row "Category".
Proof.
  unfold apply_edit, Frame.row_get.
  destruct (decide ("Category" ∈ columns edited_df)); [|done].
  fold (session_dataset s). unfold Frame.at_get, Frame.row_get.
  destruct (rows (session_dataset s) !! idx) as [r|] eqn:Hr; [|done].
  destruct (decide ("Category" ∈ columns (session_dataset s))); [|done].
  case_decide as Hne.
  - destruct (decide ("Details" ∈ columns edited_df)); [|done].
    destruct (learn_keyword _ _ _) as [[s1 b]|] eqn:Hl; [|done].
    intros [= <-]. apply learn_keyword_debits in Hl as [Hd _].
    unfold session_dataset at 1. rewrite Hd. cbn.
    rewrite list_lookup_alter_eq. fold (session_dataset s). rewrite Hr. cbn.
    eexists. split; [done|]. unfold cell_of. by rewrite lookup_insert_eq.
  - intros [= <-]. exists r. split; [done|].
    unfold cell_of. by rewrite Hne.
Qed.

Lemma apply_edits_cons edited_df it its s :
  apply_edits edited_df (it :: its) s
  = match apply_edit edited_df it s with
    | (s1, Some e) => (s1, Some e)
    | (s1, None) => apply_edits edited_df its s1
    end.
Proof. reflexivity. Qed.

Lemma apply_edits_frame edited_df its s :
  frame_rel (session_dataset s)
            (session_dataset (apply_edits edited_df its s).1).
Proof.
  revert s. induction its as [|it its IH]; intros s; [reflexivity|]. cbn.
  pose proof (apply_edit_frame edited_df it s) as Hstep.
  destruct (apply_edit edited_df it s) as [s1 [e|]]; [done|].
  etransitivity; [exact Hstep | apply IH].
Qed.

Lemma apply_edits_other edited_df its s i :
  i ∉ its.*1 →
  rows (session_dataset (apply_edits edited_df its s).1) !! i
  = rows (session_dataset s) !! i.
Proof.
  revert s. induction its as [|[idx row] its IH]; intros s Hi; [done|].
  cbn in Hi. apply not_elem_of_cons in Hi as [Hne Hi].
  rewrite apply_edits_cons.
  pose proof (apply_edit_other edited_df idx row s i Hne) as Hstep.
  destruct (apply_edit edited_df (idx, row) s) as [s1 [e|]];
    [exact Hstep|].
  cbn in Hstep. by rewrite IH.
Qed.

Lemma apply_edits_persist edited_df l k s s' :
  apply_edits edited_df (zip (seq k (length l)) l) s = (s', None) →
  ∀ i row, l !! i = Some row →
    ∃ r', rows (session_dataset s') !! (k + i) = Some r'
          ∧ cell_of r' "Category" = cell_of row "Category".
Proof.
  revert k s. induction l as [|row0 l IH]; intros k s Hrun i row Hi; [done|].
  cbn [length seq zip zip_with] in Hrun. rewrite apply_edits_cons in Hrun.
  destruct (apply_edit edited_df (k, row0) s) as [s1 [e|]] eqn:Hstep; [done|].
  destruct i as [|i]; cbn in Hi.
  - injection Hi as ->. rewrite Nat.add_0_r.
    destruct (apply_edit_done _ _ _ _ _ Hstep) as (r' & Hr' & Hcat).
    exists r'. split; [|done].
    pose proof (apply_edits_other edited_df (zip (seq (S k) (length l)) l)
                  s1 k) as Hkeep.
    rewrite Hrun in Hkeep. cbn in Hkeep. rewrite Hkeep; [done|].
    rewrite fst_zip by (by rewrite length_seq).
    rewrite elem_of_seq. lia.
  - replace (k + S i) with (S k + i) by lia. by eapply IH.
Qed.

Lemma edit_finishes edited_df idx row s :
  is_Some (debits_df s) →
  "Category" ∈ columns edited_df →
  "Details" ∈ columns edited_df →
  "Category" ∈ columns (session_dataset s) →
  idx < length (rows (session_dataset s)) →
  has_text_details row →
  (∃ c, row !! "Category" = Some (VStr c) ∧ c ∈ Dict.keys (categories s)) →
  ∃ s', apply_edit edited_df (idx, row) s = (s', None)
        ∧ is_Some (debits_df s')
        ∧ Dict.keys (categories s') = Dict.keys (categories s).
Proof.
  intros Hdeb Hc Hd Hcs Hidx [t Ht] (c & Hrc & Hkey).
  unfold apply_edit, Frame.row_get. rewrite !decide_True by done.
  fold (session_dataset s). unfold Frame.at_get, Frame.row_get.
  destruct (lookup_lt_is_Some_2 _ _ Hidx) as [r Hr]. rewrite Hr.
  rewrite decide_True by done. case_decide; [|eauto].
  rewrite Ht, Hrc. cbn. unfold add_keyword_to_category.
  destruct (Text.truthy _); [|eauto]. cbn.
  destruct (DictFacts.get_present c _ Hkey) as [kws ->]. cbn.
  case_bool_decide; [|eauto].
  eexists. split; [done|]. split; [done|]. cbn.
  apply DictFacts.keys_update.
Qed.

Lemma edits_finish edited_df l k s :
  is_Some (debits_df s) →
  "Category" ∈ columns edited_df →
  "Details" ∈ columns edited_df →
  "Category" ∈ columns (session_dataset s) →
  k + length l ≤ length (rows (session_dataset s)) →
  Forall (λ row : gmap string cell,
            has_text_details row
            ∧ ∃ c, row !! "Category" = Some (VStr c)
                   ∧ c ∈ Dict.keys (categories s)) l →
  ∃ s', apply_edits edited_df (zip (seq k (length l)) l) s = (s', None).
Proof.
  intros Hdeb Hc Hd. revert k s Hdeb.
  induction l as [|row l IH]; intros k s Hdeb Hcs Hlen Hrows; [by eexists|].
  apply Forall_cons in Hrows as [[Ht Hcat] Hrows]. cbn in Hlen.
  cbn [length seq zip zip_with]. rewrite apply_edits_cons.
  destruct (edit_finishes edited_df k row s) as (s1 & Hs1 & Hdeb1 & Hkeys);
    [done.. | lia | done | done |].
  pose proof (apply_edit_frame edited_df (k, row) s) as [Hcols Hrel].
  rewrite Hs1 in Hcols, Hrel |- *. cbn in Hcols, Hrel.
  apply (IH (S k) s1); [done | by rewrite Hcols | |].
  - rewrite <- (Forall2_length _ _ _ Hrel). lia.
  - eapply Forall_impl; [exact Hrows|]. intros r [Hr (c & Hrc & Hkey)].
    split; [done|]. exists c. by rewrite Hkeys.
Qed.

(** X5.  Apply Changes on a table whose records have text details
    and categories of the store, no more records than the dataset, finishes.
    Whenever it finishes, every record of the dataset has the category of
    the edited table, the other cells and the columns of the dataset are
    unchanged, the snapshot is the dataset, and the file holds the
    categories. *)
Theorem apply_changes_keeps_edits (edited_df : DataFrame) (s : state) :
  (editable edited_df s →
   ∃ s', apply_changes edited_df s = (s', Finished))
  ∧ ∀ s', apply_changes edited_df s = (s', Finished) →
      (∀ i row, rows edited_df !! i = Some row →
         ∃ r', rows (session_dataset s') !! i = Some r'
               ∧ cell_of r' "Category" = cell_of row "Category")
      ∧ columns (session_dataset s') = columns (session_dataset s)
      ∧ Forall2 same_but_category (rows (session_dataset s))
                (rows (session_dataset s'))
      ∧ categorized_transactions s' = debits_df s'
      ∧ category_file s' = Some (categories s').
Proof.
  unfold apply_changes, Frame.iterrows. split.
  - intros (Hdeb & Hc & Hd & Hcs & Hlen & Hrows).
    destruct (edits_finish edited_df (rows edited_df) 0 s) as [s1 ->];
      [done..|]. eauto.
  - intros s' Hrun.
    destruct (apply_edits _ _ s) as [s1 [e|]] eqn:Hloop; [done|].
    injection Hrun as <-. cbn [debits_df save_categories
      set_categorized_transactions categorized_transactions category_file
      categories].
    change (session_dataset (set_categorized_transactions (debits_df s1)
                               (save_categories s1)))
      with (session_dataset s1).
    pose proof (apply_edits_frame edited_df
                  (zip (seq 0 (length (rows edited_df))) (rows edited_df)) s)
      as Hframe.
    rewrite Hloop in Hframe. destruct Hframe as [Hcols Hrel].
    split; [|done].
    intros i row Hi.
    by apply (apply_edits_persist edited_df (rows edited_df) 0 s s1 Hloop).
Qed.

Lemma apply_changes_keeps_edits_witness :
  ∃ s', apply_changes (coffee_table "Food") (coffee_session "Uncategorized")
        = (s', Finished)
        ∧ categorized_transactions s' = debits_df s'
        ∧ category_file s' = Some (categories s').
Proof.
  destruct (apply_changes_keeps_edits (coffee_table "Food")
              (coffee_session "Uncategorized")) as [Hfinishes Hkeeps].
  destruct Hfinishes as [s' Hs'].
  - split; [by eexists|]. repeat split.
    + apply list_elem_of_further, list_elem_of_here.
    + apply list_elem_of_here.
    + apply list_elem_of_further, list_elem_of_here.
    + cbn. lia.
    + repeat constructor.
      * by exists "COFFEE".
      * exists "Food". split; [done|].
        apply list_elem_of_further, list_elem_of_here.
  - exists s'. split; [exact Hs'|].
    by destruct (Hkeeps s' Hs') as (_ & _ & _ & Hsnap & Hfile).
Defined.

(** ** Apply Changes on a table that was not edited *)

Lemma apply_edit_unchanged edited_df idx row s r c :
  "Category" ∈ columns edited_df →
  "Category" ∈ columns (session_dataset s) →
  rows (session_dataset s) !! idx = Some r →
  r !! "Category" = Some (VStr c) →
  row !! "Category" = Some (VStr c) →
  apply_edit edited_df (idx, row) s = (s, None).
Proof.
  intros Hc Hcs Hr Hold Hnew. unfold apply_edit, Frame.row_get.
  rewrite decide_True by done. fold (session_dataset s).
  unfold Frame.at_get, Frame.row_get. rewrite Hr, decide_True by done.
  rewrite Hold, Hnew. cbn. by rewrite decide_False by (by intros H).
Qed.

Lemma apply_edits_unchanged edited_df l k s :
  "Category" ∈ columns edited_df →
  "Category" ∈ columns (session_dataset s) →
  (∀ i row, l !! i = Some row →
     ∃ r c, rows (session_dataset s) !! (k + i) = Some r
            ∧ r !! "Category" = Some (VStr c)
            ∧ row !! "Category" = Some (VStr c)) →
  apply_edits edited_df (zip (seq k (length l)) l) s = (s, None).
Proof.
  intros Hc Hcs. revert k. induction l as [|row l IH]; intros k Hrows; [done|].
  cbn [length seq zip zip_with]. rewrite apply_edits_cons.
  destruct (Hrows 0 row) as (r & c & Hr & Hold & Hnew); [done|].
  rewrite Nat.add_0_r in Hr.
  rewrite (apply_edit_unchanged _ _ _ _ _ _ Hc Hcs Hr Hold Hnew).
  apply IH. intros i row' Hi.
  replace (S k + i) with (k + S i) by lia. by apply Hrows.
Qed.

(** X6.  Apply Changes on a table whose categories are those of
    the dataset learns no keyword and changes no record: the categories are
    written to the file and the dataset becomes the snapshot, nothing
    else. *)
Theorem apply_changes_without_edits (edited_df : DataFrame) (s : state) :
  "Category" ∈ columns edited_df →
  "Category" ∈ columns (session_dataset s) →
  (∀ i row, rows edited_df !! i = Some row →
     ∃ r c, rows (session_dataset s) !! i = Some r
            ∧ r !! "Category" = Some (VStr c)
            ∧ row !! "Category" = Some (VStr c)) →
  apply_changes edited_df s
  = (set_categorized_transactions (debits_df s) (save_categories s),
     Finished).
Proof.
  intros Hc Hcs Hrows. unfold apply_changes, Frame.iterrows.
  by rewrite apply_edits_unchanged.
Qed.

Lemma apply_changes_without_edits_witness :
  apply_changes (coffee_table "Food") (coffee_session "Food")
  = (set_categorized_transactions (debits_df (coffee_session "Food"))
       (save_categories (coffee_session "Food")), Finished).
Proof.
  apply (apply_changes_without_edits (coffee_table "Food")
           (coffee_session "Food")).
  - apply list_elem_of_further, list_elem_of_here.
  - apply list_elem_of_further, list_elem_of_here.
  - intros [|i] row Hrow; [|done]. injection Hrow as <-.
    eexists _, "Food". repeat split; reflexivity.
Defined.

(** ** More on keyword classification *)

Lemma for_each_inv {A S} (I : S → Prop) (body : A → S → result S) xs s s' :
  (∀ x a b, x ∈ xs → body x a = Ok b → I a → I b) →
  for_each body xs s = Ok s' → I s → I s'.
Proof.
  revert s. induction xs as [|x xs IH]; intros s Hbody; cbn.
  - by intros [= ->].
  - destruct (body x s) as [s1|e] eqn:Hx; cbn; [|done].
    intros Hrest Hs. apply (IH s1); [|done|].
    + intros y a b Hy. apply Hbody. by right.
    + eapply Hbody; [left | exact Hx | exact Hs].
Qed.

Lemma categorize_category_range cats item df df' :
  item ∈ cats →
  categorize_category item df = Ok df' →
  Forall (has_rule_category cats) (rows df) →
  Forall (has_rule_category cats) (rows df').
Proof.
  destruct item as [category keywords]. intros Hin.
  unfold categorize_category.
  destruct (bool_decide (category = "Uncategorized")) eqn:Hc; cbn;
    [by intros [= <-]|].
  destruct (bool_decide (keywords = [])) eqn:Hk; cbn; [by intros [= <-]|].
  apply bool_decide_eq_false in Hc, Hk.
  apply (for_each_inv (λ d, Forall (has_rule_category cats) (rows d))).
  intros [idx row] a b _. unfold categorize_row.
  destruct (Frame.row_get a row "Details") as [v|]; cbn; [|done].
  destruct (as_str v) as [t|]; cbn; [|done].
  case_bool_decide; intros [= <-]; [|done]. cbn. intros Ha.
  apply Forall_alter; [done|]. intros r _ _.
  exists category. rewrite lookup_insert_eq. split; [done|]. right. eauto.
Qed.

(** X7.  Keyword mode gives every record a text category, which is
    "Uncategorized" or a category of the store other than "Uncategorized"
    with a non-empty keyword list. *)
Theorem keyword_mode_category_range (cats : dict) (df out : DataFrame) :
  categorize_transactions cats df = Ok out →
  ∀ r, r ∈ rows out →
    ∃ c, r !! "Category" = Some (VStr c)
         ∧ (c = "Uncategorized"
            ∨ ∃ kws, (c, kws) ∈ cats ∧ c ≠ "Uncategorized" ∧ kws ≠ []).
Proof.
  unfold categorize_transactions. intros Hrun.
  apply (for_each_inv (λ d, Forall (has_rule_category cats) (rows d)))
    in Hrun.
  - intros r Hr. by apply (proj1 (Forall_forall _ _) Hrun r).
  - intros item a b Hin. by apply categorize_category_range.
  - cbn. apply Forall_fmap, Forall_forall. intros r _.
    exists "Uncategorized". cbn. rewrite lookup_insert_eq. split; [done|].
    by left.
Qed.

Lemma keyword_mode_category_range_witness :
  ∃ c, (<["Category" := VStr "Food"]> {[ "Details" := VStr "Coffee" ]}
          : gmap string cell) !! "Category" = Some (VStr c)
       ∧ (c = "Uncategorized"
          ∨ ∃ kws, (c, kws) ∈ [("Food", ["coffee"])]
                   ∧ c ≠ "Uncategorized" ∧ kws ≠ []).
Proof.
  apply (keyword_mode_category_range [("Food", ["coffee"])]
           (mkDF ["Details"] [{[ "Details" := VStr "Coffee" ]}])
           (mkDF ["Details"; "Category"]
              [<["Category" := VStr "Food"]>
                 {[ "Details" := VStr "Coffee" ]}])).
  - by vm_compute.
  - apply list_elem_of_here.
Defined.

Lemma setitem_scalar_rel df df' v :
  frame_rel df df' →
  Frame.setitem_scalar df "Category" v = Frame.setitem_scalar df' "Category" v.
Proof.
  intros [Hcols Hrows]. unfold Frame.setitem_scalar. rewrite Hcols. f_equal.
  induction Hrows as [|r r' l l' Hr _ IH]; [done|]. cbn. f_equal; [|exact IH].
  apply map_eq. intros c. destruct (decide (c = "Category")) as [->|Hc].
  - by rewrite !lookup_insert_eq.
  - rewrite !lookup_insert_ne by done. symmetry. by apply Hr.
Qed.

(** X8.  Keyword mode does not read the [Category] column of its
    input: two datasets that differ only there are classified alike. *)
Theorem keyword_mode_ignores_old_categories (cats : dict)
    (df df' : DataFrame) :
  columns df' = columns df →
  Forall2 (λ r r' : gmap string cell,
             ∀ c, c ≠ "Category" → r' !! c = r !! c) (rows df) (rows df') →
  categorize_transactions cats df' = categorize_transactions cats df.
Proof.
  intros Hcols Hrows. unfold categorize_transactions.
  by rewrite (setitem_scalar_rel df df') by (by split).
Qed.

Lemma keyword_mode_ignores_old_categories_witness :
  categorize_transactions [("Food", ["coffee"])] (coffee_table "Food")
  = categorize_transactions [("Food", ["coffee"])] (coffee_table "Fun").
Proof.
  apply (keyword_mode_ignores_old_categories [("Food", ["coffee"])]
           (coffee_table "Fun") (coffee_table "Food")).
  - reflexivity.
  - repeat constructor. intros c Hc. cbn.
    by rewrite !lookup_insert_ne by done.
Defined.

(** X9.  Classifying a classified dataset again, with the same store,
    changes nothing. *)
Theorem keyword_mode_idempotent (cats : dict) (df : DataFrame) :
  "Details" ∈ columns df →
  Forall has_text_details (rows df) →
  ∃ out, categorize_transactions cats df = Ok out
         ∧ categorize_transactions cats out = Ok out.
Proof.
  intros Hcol Hrows. eexists. split; [by apply categorize_transactions_spec|].
  rewrite categorize_transactions_spec; cbn [columns rows].
  - f_equal. f_equal.
    + unfold Frame.add_column at 1. rewrite decide_True; [done|].
      unfold Frame.add_column. case_decide; [done|].
      apply elem_of_app. right. apply list_elem_of_here.
    + rewrite <- list_fmap_compose. apply list_fmap_ext. intros i r _. cbn.
      by rewrite details_text_insert, insert_insert_eq.
  - unfold Frame.add_column. case_decide; [done|].
    apply elem_of_app. by left.
  - apply Forall_fmap. eapply Forall_impl; [exact Hrows|].
    intros r. apply has_text_details_insert.
Qed.

Lemma keyword_mode_idempotent_witness :
  ∃ out,
    categorize_transactions [("Food", ["coffee"])]
      (mkDF ["Details"] [{[ "Details" := VStr "Coffee" ]}]) = Ok out
    ∧ categorize_transactions [("Food", ["coffee"])] out = Ok out.
Proof.
  apply (keyword_mode_idempotent [("Food", ["coffee"])]
           (mkDF ["Details"] [{[ "Details" := VStr "Coffee" ]}])).
  - apply list_elem_of_here.
  - repeat constructor. by exists "Coffee".
Defined.

(** ** What a learned keyword changes *)

Lemma keyword_match_snoc kws k t :
  normalize t ≠ normalize k →
  keyword_match (kws ++ [Text.strip k]) t = keyword_match kws t.
Proof.
  intros Hne. unfold keyword_match. apply bool_decide_ext.
  rewrite fmap_app, elem_of_app. cbn. rewrite list_elem_of_singleton.
  rewrite normalize_strip. tauto.
Qed.

Lemma matching_categories_learned category keyword s s' b t :
  add_keyword_to_category category keyword s = Ok (s', b) →
  normalize t ≠ normalize keyword →
  matching_categories (categories s') t = matching_categories (categories s) t.
Proof.
  intros Hadd Hne. unfold add_keyword_to_category in Hadd.
  destruct (Text.truthy _); [|by injection Hadd as <- _].
  destruct (Dict.get category (categories s)) as [kws|] eqn:Hget;
    cbn in Hadd; [|done].
  destruct (bool_decide _); [|by injection Hadd as <- _].
  injection Hadd as <- _. unfold save_categories, set_categories.
  cbn [categories].
  destruct (DictFacts.update_split category (kws ++ [Text.strip keyword])
              _ _ Hget) as (pre & Hd & -> & _).
  rewrite Hd at 2.
  rewrite !matching_categories_app, !matching_categories_cons. f_equal.
  cbn [fst snd]. rewrite keyword_match_snoc by done.
  destruct (keyword_match kws t) eqn:Hm; [|by rewrite !andb_false_r].
  rewrite !andb_true_r.
  assert (kws ≠ []) as Hkws.
  { intros ->. unfold keyword_match in Hm. cbn in Hm.
    apply bool_decide_eq_true in Hm. by apply elem_of_nil in Hm. }
  unfold eligible. cbn [fst snd].
  rewrite !(bool_decide_eq_false_2 (_ = [])); [done|done|].
  by destruct kws.
Qed.

(** X10.  A keyword that [add_keyword_to_category] accepts changes
    the classification of no record whose normalised details differ from
    the normalised keyword. *)
Theorem learned_keyword_is_local (category keyword : string) (s s' : state)
    (b : bool) (df : DataFrame) :
  add_keyword_to_category category keyword s = Ok (s', b) →
  "Details" ∈ columns df →
  Forall (λ r : gmap string cell,
            ∃ t, r !! "Details" = Some (VStr t)
                 ∧ normalize t ≠ normalize keyword) (rows df) →
  categorize_transactions (categories s') df
  = categorize_transactions (categories s) df.
Proof.
  intros Hadd HD Hrows.
  assert (Forall has_text_details (rows df)) as Htext.
  { eapply Forall_impl; [exact Hrows|]. intros r (t & Ht & _). by exists t. }
  rewrite !categorize_transactions_spec by done. do 2 f_equal.
  apply Forall_fmap_ext_1. eapply Forall_impl; [exact Hrows|].
  intros r (t & Ht & Hne). cbn. unfold keyword_category, details_text.
  rewrite Ht. by rewrite (matching_categories_learned _ _ _ _ _ _ Hadd Hne).
Qed.

Lemma learned_keyword_is_local_witness :
  categorize_transactions [("Uncategorized", []); ("Food", ["café"])]
    (mkDF ["Details"] [{[ "Details" := VStr "CAFE" ]}])
  = categorize_transactions [("Uncategorized", []); ("Food", [])]
      (mkDF ["Details"] [{[ "Details" := VStr "CAFE" ]}])
  ∧ category_column
      (categorize_transactions [("Uncategorized", []); ("Food", ["café"])]
         (mkDF ["Details"] [{[ "Details" := VStr "CAFÉ" ]}]))
    = Ok [VStr "Food"].
Proof.
  split; [|reflexivity].
  apply (learned_keyword_is_local "Food" (" café" +:+ nbsp)
           (coffee_session "Food")
           (mkState [("Uncategorized", []); ("Food", ["café"])] None
              (Some (coffee_table "Food"))
              (Some [("Uncategorized", []); ("Food", ["café"])]))
           true
           (mkDF ["Details"] [{[ "Details" := VStr "CAFE" ]}])).
  - reflexivity.
  - apply list_elem_of_here.
  - repeat constructor. exists "CAFE". split; [reflexivity|].
    by vm_compute.
Defined.

(** ** More on snapshot reconciliation *)

(** X11.  Snapshot mode loses no record and leaves no category
    missing: an upload with [Details] and without [Category], whose
    details are of the kind of the snapshot's (text or numbers), is
    reconciled, each of its records comes back once per snapshot record
    of the same details, at least once, and every record of the result
    has a category and the cells of a record of the upload. *)
Theorem reconcile_accounts_for_every_record (snapshot df : DataFrame) :
  "Details" ∈ columns df →
  "Category" ∉ columns df →
  "Details" ∈ columns snapshot →
  "Category" ∈ columns snapshot →
  same_kind (key_column df "Details") (key_column snapshot "Details") = true →
  ∃ out,
    reconcile snapshot df = Ok out
    ∧ length (rows out)
      = sum_list_with
          (λ l, length (partners snapshot l) `max` 1) (rows df)
    ∧ ∀ r, r ∈ rows out →
        cell_of r "Category" ≠ VNaN
        ∧ ∃ l, l ∈ rows df ∧ ∀ c, c ∈ columns df → cell_of r c = cell_of l c.
Proof.
  intros HD HC HDs HCs Hkind. eexists. split; [by apply reconcile_spec|].
  cbn [rows]. split.
  - apply length_bind_with. intros l _.
    rewrite length_fmap. unfold joined_categories.
    destruct (partners snapshot l) as [|r ms]; [done|].
    rewrite length_fmap. cbn. lia.
  - intros r Hr. apply list_elem_of_bind in Hr as (l & Hr & Hl).
    apply list_elem_of_fmap in Hr as (v & -> & _). split.
    + unfold cell_of. rewrite lookup_insert_eq. cbn. by destruct v.
    + exists l. split; [done|]. intros c Hc. unfold cell_of at 1.
      rewrite lookup_insert_ne by (by intros <-).
      by apply left_row_cell.
Qed.

Lemma reconcile_accounts_for_every_record_witness :
  ∃ out, reconcile coffee_snapshot coffee_upload = Ok out
         ∧ length (rows out) = 3
         ∧ Frame.getitem out "Category"
           = Ok [VStr "Dining"; VStr "Travel"; VStr "Uncategorized"].
Proof.
  destruct (reconcile_accounts_for_every_record coffee_snapshot coffee_upload)
    as (out & Hout & Hlen & _).
  - apply list_elem_of_here.
  - intros Hin. by apply list_elem_of_singleton in Hin.
  - apply list_elem_of_here.
  - apply list_elem_of_further, list_elem_of_here.
  - reflexivity.
  - exists out. split; [exact Hout|]. split; [rewrite Hlen; by vm_compute|].
    vm_compute in Hout. injection Hout as <-. vm_compute. reflexivity.
Defined.

Lemma category_x_not_category : "Category" +:+ "_x" ≠ "Category".
Proof. discriminate. Qed.

Lemma reconcile_with_category snapshot df :
  "Category" ∈ columns df → ∃ e, reconcile snapshot df = Raise e.
Proof.
  intros HC. unfold reconcile, select_columns.
  destruct (decide (_ ⊆ columns snapshot)); cbn [mbind result_bind];
    [|by eexists].
  unfold merge_left. cbn [columns rows].
  destruct (decide (_ ∧ _)); cbn [mbind result_bind]; [|by eexists].
  destruct (negb _); cbn [mbind result_bind]; [by eexists|].
  cbv zeta. rewrite getitem_missing; [by eexists|]. cbn [columns].
  assert (filter (λ c : string, c ≠ "Details") ["Details"; "Category"]
          = ["Category"]) as -> by reflexivity.
  intros Hin. apply elem_of_app in Hin as [Hin|Hin].
  - apply list_elem_of_fmap in Hin as (c & Hc & Hcin).
    unfold suffixed in Hc. case_decide as Hsfx.
    + destruct Hsfx as [Hne Hsfx].
      apply elem_of_cons in Hsfx as [->|Hsfx]; [done|].
      apply list_elem_of_singleton in Hsfx as ->. done.
    + subst c. apply Hsfx. split; [done|].
      apply list_elem_of_further, list_elem_of_here.
  - apply list_elem_of_singleton in Hin.
    unfold suffixed in Hin. by rewrite decide_True in Hin.
Qed.

(** X12.  While a snapshot exists, a statement that has a [Category]
    column of its own is rejected: the merge renames both [Category]
    columns, the look-up of [Category] fails, and [load_transactions]
    returns nothing. *)
Theorem upload_with_category_column_fails f g (s : state) (file : csv)
    (snapshot : DataFrame) :
  categorized_transactions s = Some snapshot →
  "Category" ∈ columns (parsed file) →
  load_transactions f g s file = None.
Proof.
  intros Hs HC. unfold load_transactions. rewrite load_body_unfold.
  destruct (normalize_amount f (parsed file)) as [df|] eqn:Ha; cbn; [|done].
  apply normalize_amount_Ok in Ha as (vs & -> & Hlen).
  destruct (normalize_date g _) as [df2|] eqn:Hdate; cbn; [|done].
  apply normalize_date_columns in Hdate. cbn in Hdate.
  unfold classify. rewrite Hs.
  destruct (reconcile_with_category snapshot df2) as [e ->]; [|done].
  rewrite Hdate. by rewrite !elem_of_add_column.
Qed.

Lemma upload_with_category_column_fails_witness :
  load_transactions no_float no_dayfirst
    (mkState [("Uncategorized", [])] (Some coffee_snapshot) None None)
    categorized_statement
  = None.
Proof.
  apply (upload_with_category_column_fails no_float no_dayfirst
           (mkState [("Uncategorized", [])] (Some coffee_snapshot) None None)
           categorized_statement coffee_snapshot).
  - reflexivity.
  - do 3 apply list_elem_of_further. apply list_elem_of_here.
Defined.

(** ** More on ingestion *)

Lemma astype_float_amounts f col col' :
  map_result (astype_float f) (replace_commas <$> col) = Ok col' →
  Forall2 (amount_of f) col col'.
Proof.
  revert col'. induction col as [|v col IH]; intros col'; cbn.
  - intros [= <-]. constructor.
  - destruct (astype_float f (replace_commas v)) as [v'|] eqn:Hv; cbn; [|done].
    destruct (map_result _ _) as [vs|]; cbn; [|done].
    intros [= <-]. constructor; [|by apply IH].
    destruct v as [t|x|d|]; cbn in Hv |- *.
    + destruct (f (Text.remove_commas t)) as [x|]; [|done].
      injection Hv as <-. eauto.
    + by injection Hv as <-.
    + done.
    + by injection Hv as <-.
Qed.

Lemma not_object_amounts f col :
  is_object col = false → Forall2 (amount_of f) col (float_cell <$> col).
Proof.
  intros Hobj. apply Forall2_fmap_r, Forall_Forall2_diag, Forall_forall.
  intros v Hv. destruct v as [t| | |]; try done.
  assert (is_object col = true) as Htrue; [|congruence].
  unfold is_object. apply existsb_exists. exists (VStr t).
  split; [by apply list_elem_of_In | done].
Qed.

(** X13.  When the conversion of [Amount] succeeds, the columns and
    the number of records are kept, every other column is unchanged, and in
    [Amount] each text has become the float of the text without its commas,
    each number the float nearest to it, while missing amounts stay. *)
Theorem normalize_amount_result f (df df' : DataFrame) :
  normalize_amount f df = Ok df' →
  columns df' = columns df
  ∧ length (rows df') = length (rows df)
  ∧ (∀ c, c ≠ "Amount" → Frame.getitem df' c = Frame.getitem df c)
  ∧ ∃ col col',
      Frame.getitem df "Amount" = Ok col
      ∧ Frame.getitem df' "Amount" = Ok col'
      ∧ Forall2 (amount_of f) col col'.
Proof.
  unfold normalize_amount.
  destruct (Frame.getitem df "Amount") as [col|] eqn:Hcol; cbn; [|done].
  pose proof (getitem_length _ _ _ Hcol) as Hlen.
  assert ("Amount" ∈ columns df) as Hin.
  { unfold Frame.getitem in Hcol. by case_decide. }
  assert (∀ vs, length vs = length (rows df) →
            Forall2 (amount_of f) col vs →
            columns (Frame.setitem df "Amount" vs) = columns df
            ∧ length (rows (Frame.setitem df "Amount" vs)) = length (rows df)
            ∧ (∀ c, c ≠ "Amount" →
                 Frame.getitem (Frame.setitem df "Amount" vs) c
                 = Frame.getitem df c)
            ∧ ∃ col0 col',
                Ok col = Ok col0
                ∧ Frame.getitem (Frame.setitem df "Amount" vs) "Amount"
                  = Ok col'
                ∧ Forall2 (amount_of f) col0 col') as Hres.
  { intros vs Hvs Hrel. split.
    { cbn. unfold Frame.add_column. by rewrite decide_True. }
    split.
    { cbn. rewrite length_zip_with. lia. }
    split; [intros c Hc; by apply getitem_setitem_ne|].
    exists col, vs. by rewrite getitem_setitem_eq. }
  destruct (is_object col) eqn:Hobj.
  - destruct (map_result _ _) as [vs|] eqn:Hvs; cbn; [|done].
    intros [= <-]. apply Hres.
    + apply map_result_length in Hvs. by rewrite Hvs, length_fmap.
    + by apply astype_float_amounts.
  - intros [= <-]. apply Hres; [by rewrite length_fmap|].
    by apply not_object_amounts.
Qed.

Lemma normalize_amount_result_witness :
  (∃ col',
     Frame.getitem
       (Frame.setitem (mkDF ["Amount"] [{[ "Amount" := VStr "1,000" ]}])
          "Amount" [VNum (Q2Qc 1000)]) "Amount" = Ok col'
     ∧ Forall2 (amount_of float_1000) [VStr "1,000"] col')
  ∧ ∃ x,
      Forall2 (amount_of no_float)
        [VNum (Q2Qc 9007199254740993); VNaN] [VNum x; VNaN]
      ∧ (x == 9007199254740992)%Q.
Proof.
  split.
  - destruct (normalize_amount_result float_1000
                (mkDF ["Amount"] [{[ "Amount" := VStr "1,000" ]}])
                (Frame.setitem
                   (mkDF ["Amount"] [{[ "Amount" := VStr "1,000" ]}])
                   "Amount" [VNum (Q2Qc 1000)]))
      as (_ & _ & _ & col & col' & Hcol & Hcol' & Hrel).
    + by vm_compute.
    + exists col'. split; [exact Hcol'|]. by injection Hcol as <-.
  - destruct (normalize_amount_result no_float
                (mkDF ["Amount"]
                   [{[ "Amount" := VNum (Q2Qc 9007199254740993) ]};
                    {[ "Amount" := VNaN ]}])
                (Frame.setitem
                   (mkDF ["Amount"]
                      [{[ "Amount" := VNum (Q2Qc 9007199254740993) ]};
                       {[ "Amount" := VNaN ]}])
                   "Amount"
                   [VNum (to_float (Q2Qc 9007199254740993)); VNaN]))
      as (_ & _ & _ & col & col' & Hcol & Hcol' & Hrel).
    + reflexivity.
    + exists (to_float (Q2Qc 9007199254740993)).
      injection Hcol as <-.
      rewrite getitem_setitem_eq in Hcol' by reflexivity.
      injection Hcol' as <-. split; [exact Hrel | by vm_compute].
Defined.

(** X14.  A [Date] column with a value that is not DD/MM/YYYY and a
    value that is not DD Mon YYYY is converted by the general day-first
    parser alone: the statement is read exactly when that parser accepts
    the whole column. *)
Theorem mixed_date_column_uses_general_parser
    (g : list cell → result (list cell)) (df : DataFrame) (col : list cell)
    (v1 v2 : cell) :
  Frame.getitem df "Date" = Ok col →
  v1 ∈ col → to_datetime_cell "%d/%m/%Y" v1 = Raise ValueError →
  v2 ∈ col → to_datetime_cell "%d %b %Y" v2 = Raise ValueError →
  normalize_date g df = (ds ← g col; Ok (Frame.setitem df "Date" ds)).
Proof.
  intros Hcol H1 Hv1 H2 Hv2. apply normalize_date_third; [done| |].
  - destruct (map_result_Raise _ col v1 _ H1 Hv1) as [e He].
    fold (to_datetime col "%d/%m/%Y") in He.
    by rewrite He, (to_datetime_raises _ _ _ He).
  - destruct (map_result_Raise _ col v2 _ H2 Hv2) as [e He].
    fold (to_datetime col "%d %b %Y") in He.
    by rewrite He, (to_datetime_raises _ _ _ He).
Qed.

Lemma mixed_date_column_uses_general_parser_witness :
  normalize_date no_dayfirst
    (mkDF ["Date"] [{[ "Date" := VStr "31/01/2024" ]};
                    {[ "Date" := VStr "31 Jan 2024" ]}])
  = Raise ValueError.
Proof.
  apply (mixed_date_column_uses_general_parser no_dayfirst
           (mkDF ["Date"] [{[ "Date" := VStr "31/01/2024" ]};
                           {[ "Date" := VStr "31 Jan 2024" ]}])
           [VStr "31/01/2024"; VStr "31 Jan 2024"]
           (VStr "31 Jan 2024") (VStr "31/01/2024")).
  - reflexivity.
  - apply list_elem_of_further, list_elem_of_here.
  - reflexivity.
  - apply list_elem_of_here.
  - reflexivity.
Defined.

(** ** Dates written with the name of the month *)

Module MonthNameFacts.
Import Strptime StrptimeFacts.

Lemma month_name_plain m :
  1 ≤ m → m ≤ 12 →
  ∃ a b c,
    list_ascii_of_string (month_name m) = [a; b; c]
    ∧ Forall (λ x, Text.is_cont x = false) [a; b; c]
    ∧ Text.isspace [a] = false
    ∧ ∀ rest, abbr ([a] :: [b] :: [c] :: rest) = [(m, rest)].
Proof.
  intros H1 H12.
  destruct m as [|[|[|[|[|[|[|[|[|[|[|[|[|m]]]]]]]]]]]]]; try lia;
    (do 3 eexists; split; [reflexivity|];
     split; [by repeat constructor|]; by split).
Qed.

Lemma dd_mon_yyyy_chars d :
  valid d = true → year d < 10 * 1000 →
  ∃ a b c,
    Text.chars (list_ascii_of_string (dd_mon_yyyy d))
    = ((λ x, [x]) <$> two (day d))
      ++ [" "%char] :: [a] :: [b] :: [c] :: [" "%char]
         :: ((λ x, [x]) <$> four (year d))
    ∧ Text.isspace [a] = false
    ∧ ∀ rest, abbr ([a] :: [b] :: [c] :: rest) = [(month d, rest)].
Proof.
  intros Hv Hy. destruct (valid_bounds d Hv) as (Hd1 & Hd31 & Hm1 & Hm12).
  destruct (month_name_plain (month d) Hm1 Hm12)
    as (a & b & c & Hname & Hplain & Ha & Habbr).
  exists a, b, c. split; [|done].
  unfold dd_mon_yyyy. rewrite list_ascii_of_string_of_list_ascii, Hname.
  rewrite TextFacts.chars_ascii.
  - by rewrite fmap_app, !fmap_cons.
  - apply Forall_app. split; [apply two_plain; lia|].
    constructor; [done|]. apply Forall_app. split; [done|].
    constructor; [done|]. by apply four_plain.
Qed.

Lemma strptime_dd_mon_yyyy d :
  valid d = true → year d < 10 * 1000 →
  strptime (dd_mon_yyyy d) "%d %b %Y" = Some d.
Proof.
  intros Hv Hy. destruct (valid_bounds d Hv) as (Hd1 & Hd31 & Hm1 & Hm12).
  assert (year d / 1000 < 10) as Hy3
    by (apply Nat.Div0.div_lt_upper_bound; lia).
  destruct (digit_char_plain _ Hy3) as (_ & Hsp & _).
  destruct (dd_mon_yyyy_chars d Hv Hy) as (a & b & c & Hchars & Ha & Habbr).
  unfold strptime. rewrite Hchars.
  assert (compile false (Text.chars (list_ascii_of_string "%d %b %Y"))
          = [Day; Spaces; MonthAbbr; Spaces; Year4]) as -> by reflexivity.
  cbn [run step].
  rewrite two_digits_two by lia. cbn [app fmap list_fmap].
  rewrite bind_cons. cbn [run step].
  assert (spaces ((λ x, [x]) <$> four (year d)) = []) as Hfour.
  { unfold four. cbn [fmap list_fmap spaces]. by rewrite Hsp. }
  assert (Text.isspace [" "%char] = true) as Hspace by reflexivity.
  cbn [spaces]. rewrite Hspace, Ha. cbn [app fmap list_fmap].
  rewrite bind_cons. cbn [run step]. rewrite Habbr. cbn [fmap list_fmap].
  rewrite bind_cons. cbn [run step spaces].
  rewrite Hspace, Hfour.
  cbn [app fmap list_fmap]. rewrite bind_cons. cbn [run step].
  rewrite <- (app_nil_r ((λ x, [x]) <$> four (year d))).
  rewrite (four_digits_four _ []) by done. cbn [fmap list_fmap].
  rewrite bind_singleton. cbn [run app].
  destruct d as [y m dd]. cbn in *. unfold set_year, set_month, set_day. cbn.
  by rewrite Hv.
Qed.

Lemma strptime_dd_mon_yyyy_slashes d :
  valid d = true → year d < 10 * 1000 →
  strptime (dd_mon_yyyy d) "%d/%m/%Y" = None.
Proof.
  intros Hv Hy. destruct (valid_bounds d Hv) as (Hd1 & Hd31 & Hm1 & Hm12).
  assert (day d / 10 < 10) as H1 by (apply Nat.Div0.div_lt_upper_bound; lia).
  assert (day d mod 10 < 10) as H2 by (apply Nat.mod_upper_bound; lia).
  destruct (digit_char_plain _ H1) as (_ & _ & Hsp1 & _).
  destruct (digit_char_plain _ H2) as (_ & _ & _ & Hsl2 & _).
  destruct (digit_digit_char _ H1) as [Ha1 Hu1].
  destruct (digit_digit_char _ H2) as [Ha2 Hu2].
  destruct (dd_mon_yyyy_chars d Hv Hy) as (a & b & c & Hchars & _).
  unfold strptime. rewrite Hchars.
  assert (compile false (Text.chars (list_ascii_of_string "%d/%m/%Y"))
          = [Day; Literal ["/"%char]; Month; Literal ["/"%char]; Year4])
    as -> by reflexivity.
  set (tail := [a] :: _).
  assert (run [Day; Literal ["/"%char]; Month; Literal ["/"%char]; Year4]
            (epoch, ((λ x, [x]) <$> two (day d)) ++ [" "%char] :: tail) = [])
    as ->; [|done].
  cbn [run]. apply list_eq. intros i. rewrite lookup_nil.
  apply eq_None_not_Some. intros [x Hx].
  apply list_elem_of_lookup_2, list_elem_of_bind in Hx as ([d1 r1] & Hx & Hst).
  cbn [step] in Hst. apply list_elem_of_fmap in Hst as ([n r] & [= -> ->] & Hst).
  cbn [run] in Hx. apply list_elem_of_bind in Hx as (st & _ & Hx).
  unfold two in Hst. cbn [app fmap list_fmap] in Hst.
  rewrite !elem_of_app in Hst. destruct Hst as [Hst|[Hst|Hst]].
  - unfold two_digits in Hst. rewrite Ha1, Ha2, Hu2 in Hst.
    destruct (_ || _) in Hst;
      (destruct (_ && _) in Hst; [|by apply elem_of_nil in Hst];
       apply list_elem_of_singleton in Hst as [= -> ->];
       cbn [step] in Hx; rewrite decide_False in Hx by done;
       by apply elem_of_nil in Hx).
  - unfold one_digit in Hst. rewrite Ha1 in Hst.
    destruct (_ <=? _)%nat in Hst; [|by apply elem_of_nil in Hst].
    apply list_elem_of_singleton in Hst as [= -> ->].
    cbn [step] in Hx. rewrite decide_False in Hx by done.
    by apply elem_of_nil in Hx.
  - unfold space_digit in Hst. rewrite decide_False in Hst by done.
    by apply elem_of_nil in Hst.
Qed.

End MonthNameFacts.

Lemma to_datetime_dd_mon_yyyy dates :
  Forall (λ d, Strptime.valid d = true ∧ in_bounds d = true) dates →
  to_datetime ((λ d, VStr (dd_mon_yyyy d)) <$> dates) "%d %b %Y"
  = Ok (VDate <$> dates).
Proof.
  intros Hd. unfold to_datetime.
  induction Hd as [|d dates [Hv Hb] _ IH]; [done|].
  rewrite !fmap_cons. cbn [map_result to_datetime_cell].
  rewrite bool_decide_eq_false_2.
  2:{ unfold dd_mon_yyyy, two. cbn [app].
      apply StrptimeFacts.digit_text_not_missing.
      apply Nat.Div0.div_lt_upper_bound.
      destruct (StrptimeFacts.valid_bounds d Hv) as (_ & ? & _). lia. }
  rewrite MonthNameFacts.strptime_dd_mon_yyyy, Hb
    by (done || by apply StrptimeFacts.in_bounds_year).
  cbn [mbind result_bind]. by rewrite IH.
Qed.

(** X15.  A [Date] column that prints valid dates as DD Mon YYYY, dates
    that a timestamp can hold, is read back as those dates by the second
    format, whatever the general parser would do: the [Date] column then
    holds them and the other columns are as before. *)
Theorem month_name_dates_are_read (g : list cell → result (list cell))
    (df : DataFrame) (dates : list date) :
  Frame.getitem df "Date" = Ok ((λ d, VStr (dd_mon_yyyy d)) <$> dates) →
  Forall (λ d, Strptime.valid d = true ∧ in_bounds d = true) dates →
  ∃ out, normalize_date g df = Ok out ∧ dated df out (VDate <$> dates).
Proof.
  intros Hcol Hd. exists (Frame.setitem df "Date" (VDate <$> dates)). split.
  - destruct dates as [|d dates]; [by eapply normalize_date_first|].
    eapply normalize_date_second; [done| |by apply to_datetime_dd_mon_yyyy].
    apply Forall_cons in Hd as [[Hv Hb] _].
    unfold to_datetime. rewrite fmap_cons. cbn [map_result to_datetime_cell].
    rewrite bool_decide_eq_false_2.
    2:{ unfold dd_mon_yyyy, two. cbn [app].
        apply StrptimeFacts.digit_text_not_missing.
        apply Nat.Div0.div_lt_upper_bound.
        destruct (StrptimeFacts.valid_bounds d Hv) as (_ & ? & _). lia. }
    by rewrite MonthNameFacts.strptime_dd_mon_yyyy_slashes
      by (done || by apply StrptimeFacts.in_bounds_year).
  - eapply setitem_dated; [done|]. by rewrite !length_fmap.
Qed.

Lemma month_name_dates_are_read_witness :
  ∃ out,
    normalize_date no_dayfirst
      (mkDF ["Date"] [{[ "Date" := VStr "05 Mar 2023" ]}]) = Ok out
    ∧ Frame.getitem out "Date" = Ok [VDate (mkDate 2023 3 5)].
Proof.
  destruct (month_name_dates_are_read no_dayfirst
              (mkDF ["Date"] [{[ "Date" := VStr "05 Mar 2023" ]}])
              [mkDate 2023 3 5]) as (out & Hout & Hdate & _).
  - reflexivity.
  - constructor; [|constructor]. split; reflexivity.
  - exists out. by split.
Defined.

(** ** The header of an upload *)

Lemma list_to_map_zip_lookup (ks : list string) (vs : list cell) i k :
  NoDup ks → ks !! i = Some k →
  (list_to_map (zip ks vs) : gmap string cell) !! k = vs !! i.
Proof.
  intros Hnd. revert i vs.
  induction Hnd as [|k0 ks Hk0 Hnd IH]; intros i vs Hi; [done|].
  destruct vs as [|v vs]; [by rewrite lookup_nil|].
  cbn [zip zip_with]. rewrite list_to_map_cons.
  destruct i as [|i]; cbn in Hi |- *.
  - injection Hi as ->. by rewrite lookup_insert_eq.
  - rewrite lookup_insert_ne; [by apply IH|].
    intros ->. apply Hk0. by eapply list_elem_of_lookup_2.
Qed.

(** X16.  A column of the file is found under its trimmed name: in a
    statement none of whose lines is longer than the header and whose
    names stay distinct when trimmed, the column under the trimmed i-th
    name holds the i-th cell of every line, or a missing value where the
    line is too short. *)
Theorem trimmed_header_names_the_column (file : csv) (i : nat) (h : string) :
  fits file →
  header file !! i = Some h →
  Frame.getitem (parsed file) (Text.strip h)
  = Ok ((λ line, default VNaN (line !! i)) <$> lines file).
Proof.
  intros [_ Hstrip] Hi.
  assert (NoDup (header file)) as Hnd by (by eapply NoDup_fmap_1).
  unfold parsed, set_columns, read_csv, Frame.getitem.
  cbn [columns rows].
  rewrite decide_True by (by eapply list_elem_of_lookup_2, list_lookup_fmap_Some_2).
  f_equal. rewrite <- !list_fmap_compose. apply list_fmap_ext.
  intros j line _. unfold compose.
  rewrite (list_to_map_zip_lookup _ _ i) by
    (done || by rewrite list_lookup_fmap, Hi).
  rewrite list_lookup_fmap, Hi. cbn. unfold cell_of.
  by rewrite (list_to_map_zip_lookup _ _ i) by done.
Qed.

Lemma trimmed_header_names_the_column_witness :
  Frame.getitem (parsed padded_statement) "Details" = Ok [VStr "COFFEE"]
  ∧ Frame.getitem (parsed padded_statement) "Amount" = Ok [VNaN].
Proof.
  assert (fits padded_statement) as Hfits.
  { split.
    - constructor; [|constructor]. apply Nat.leb_le. reflexivity.
    - apply (bool_decide_unpack _). by vm_compute. }
  split.
  - apply (trimmed_header_names_the_column padded_statement 1
             ("Details" +:+ nbsp) Hfits).
    reflexivity.
  - apply (trimmed_header_names_the_column padded_statement 2 "Amount" Hfits).
    reflexivity.
Defined.

(** ** A statement without records *)

Lemma add_column_present c cols : c ∈ cols → Frame.add_column c cols = cols.
Proof. intros Hc. unfold Frame.add_column. by rewrite decide_True. Qed.

Lemma categorize_no_rows cats cols :
  for_each categorize_category cats (mkDF cols []) = Ok (mkDF cols []).
Proof.
  induction cats as [|[c kws] cats IH]; [done|].
  cbn [for_each categorize_category].
  by destruct (_ || _); cbn; rewrite IH.
Qed.

(** X17.  A statement with a header and no records, whose names stay
    distinct when trimmed, uploaded while there is no snapshot, is read
    as the empty dataset with the columns of the header and [Category]. *)
Theorem header_only_statement f g (s : state) (file : csv) :
  lines file = [] →
  fits file →
  "Amount" ∈ columns (parsed file) →
  "Date" ∈ columns (parsed file) →
  categorized_transactions s = None →
  load_transactions f g s file
  = Some (mkDF (Frame.add_column "Category" (columns (parsed file))) []).
Proof.
  intros Hlines _ HA HD Hs. unfold load_transactions. rewrite load_body_unfold.
  assert (parsed file = mkDF (columns (parsed file)) []) as ->.
  { unfold parsed, set_columns, read_csv. cbn [columns rows].
    by rewrite Hlines. }
  cbn [columns] in *. set (cols := columns (parsed file)) in *.
  unfold normalize_amount, Frame.getitem. cbn [columns rows].
  rewrite decide_True by done.
  cbn [fmap list_fmap mbind result_bind is_object existsb].
  unfold Frame.setitem at 1. cbn [columns rows zip_with].
  rewrite (add_column_present "Amount") by done.
  unfold normalize_date, Frame.getitem. cbn [columns rows].
  rewrite !decide_True by done.
  cbn [fmap list_fmap mbind result_bind to_datetime map_result].
  unfold Frame.setitem. cbn [except_ValueError columns rows zip_with].
  rewrite (add_column_present "Date") by done. cbn [mbind result_bind].
  unfold classify. rewrite Hs. unfold categorize_transactions.
  unfold Frame.setitem_scalar. cbn [columns rows fmap list_fmap].
  by rewrite categorize_no_rows.
Qed.

Lemma header_only_statement_witness :
  load_transactions no_float no_dayfirst (new_session None) header_only
  = Some (mkDF ["Date"; "Details"; "Amount"; "Debit/Credit"; "Category"] []).
Proof.
  apply (header_only_statement no_float no_dayfirst (new_session None)
           header_only).
  - reflexivity.
  - split; [constructor|]. apply (bool_decide_unpack _). by vm_compute.
  - do 2 apply list_elem_of_further. apply list_elem_of_here.
  - apply list_elem_of_here.
  - reflexivity.
Defined.

(** ** A statement without the direction of its records *)

Lemma no_suffix_direction c sfx :
  sfx = "_x" ∨ sfx = "_y" → c +:+ sfx ≠ "Debit/Credit".
Proof.
  intros Hsfx H.
  do 12 (destruct c as [|? c]; cbn in H;
         [by destruct Hsfx as [-> | ->] | injection H as ? H]).
  by destruct c, Hsfx as [-> | ->].
Qed.

Lemma reconcile_direction snapshot df out :
  reconcile snapshot df = Ok out →
  "Debit/Credit" ∉ columns df → "Debit/Credit" ∉ columns out.
Proof.
  unfold reconcile, select_columns.
  destruct (decide (_ ⊆ columns snapshot)); cbn [mbind result_bind]; [|done].
  unfold merge_left. cbn [columns rows].
  destruct (decide (_ ∧ _)); cbn [mbind result_bind]; [|done].
  destruct (negb _); cbn [mbind result_bind]; [done|].
  cbv zeta.
  destruct (Frame.getitem _ "Category") as [col|]; cbn [mbind result_bind];
    [|done].
  intros [= <-] Hno. cbn [Frame.setitem columns].
  rewrite elem_of_add_column by done. rewrite elem_of_app.
  intros [Hin|Hin].
  - apply list_elem_of_fmap in Hin as (c & Hc & Hin).
    unfold suffixed in Hc. case_decide.
    + symmetry in Hc. revert Hc. apply no_suffix_direction. by left.
    + by subst c.
  - apply list_elem_of_singleton in Hin.
    unfold suffixed in Hin. case_decide; [|done].
    revert Hin. by vm_compute.
Qed.

Lemma load_direction f g s file df :
  load_transactions f g s file = Some df →
  "Debit/Credit" ∉ columns (parsed file) → "Debit/Credit" ∉ columns df.
Proof.
  unfold load_transactions. rewrite load_body_unfold.
  destruct (normalize_amount f (parsed file)) as [df1|] eqn:Ha; cbn; [|done].
  apply normalize_amount_Ok in Ha as (vs & -> & Hlen).
  destruct (normalize_date g _) as [df2|] eqn:Hdate; cbn; [|done].
  apply normalize_date_columns in Hdate. cbn in Hdate.
  destruct (classify s df2) as [out|] eqn:Hcl; [|done].
  intros [= <-] Hno.
  assert ("Debit/Credit" ∉ columns df2) as Hno2.
  { rewrite Hdate. by rewrite !elem_of_add_column. }
  unfold classify in Hcl. destruct (categorized_transactions s) as [snap|].
  - by eapply reconcile_direction.
  - apply categorize_transactions_frame in Hcl as [-> _].
    by rewrite elem_of_add_column.
Qed.

(** X18.  A statement without a [Debit/Credit] column never reaches
    the tables: the run of [main] shows the parse error or stops with
    [KeyError] at line 106, and the session is as it was after loading
    the categories. *)
Theorem statement_without_direction f g (w : widgets) (s : state)
    (file : csv) :
  uploaded_file w = Some file →
  "Debit/Credit" ∉ columns (parsed file) →
  ∃ o, main f g w s = (load_categories s, o)
       ∧ (o = ErrorShown ∨ o = Uncaught KeyError).
Proof.
  intros Hw Hno. unfold main. rewrite Hw.
  destruct (load_transactions f g (load_categories s) file) as [df|] eqn:Hl;
    [|eauto].
  apply load_direction in Hl; [|done].
  unfold Frame.select_eq. rewrite decide_False by done. eauto.
Qed.

Lemma statement_without_direction_witness :
  (∃ o, main no_float no_dayfirst
          (mkWidgets (Some undirected_statement) false "" id
             false)
          (new_session None)
        = (load_categories (new_session None), o)
        ∧ (o = ErrorShown ∨ o = Uncaught KeyError))
  ∧ "Debit/Credit" ∈ columns (parsed directed_statement)
  ∧ (main no_float no_dayfirst
       (mkWidgets (Some directed_statement) false "" id false)
       (new_session None)).2 = Finished.
Proof.
  split; [|split].
  - apply (statement_without_direction no_float no_dayfirst
             (mkWidgets (Some undirected_statement) false "" id
                false)
             (new_session None) undirected_statement).
    + reflexivity.
    + intros Hin. apply list_elem_of_In in Hin. cbn in Hin.
      intuition discriminate.
  - do 3 apply list_elem_of_further. apply list_elem_of_here.
  - reflexivity.
Defined.
